(** * ChatRoom.jsx: the WebSocket connection lifecycle of the chat room

    A shallow embedding of [src/components/ChatRoom.jsx] (the version with
    automatic reconnection): the derivation of the connection URL, the
    [connect] function with its four socket handlers, the mount effect and
    its cleanup, and [send].

    Conventions of the embedding.
    - JavaScript numbers are IEEE 754 doubles.  A finite double is the
      rational it denotes ([Q]), and the sum and the product of the delay
      computation round to the nearest double, ties to even ([round64]).
      The attempt counter is a [Z]: it counts up from 0 by 1, and a double
      represents every integer up to [2^53] exactly.
    - A JavaScript string is represented by its UTF-8 encoding, as a Rocq
      string (a sequence of bytes); this is also how Rocq reads a string
      literal.  White space is decided on the code points the bytes encode.
      A surrogate that stands alone, which UTF-8 proper leaves out, is the
      three bytes of its value; it is never white space.
    - A function that can throw returns a [completion].
    - React state ([useState]) and refs ([useRef]) are fields of one record;
      a state setter takes effect at once, and an updater function passed to
      a setter runs exactly once, when it is enqueued.
    - What the browser owns (the sockets ever constructed, the pending
      timeouts) is kept in the same record, so that the effect of
      [clearTimeout], [setTimeout], [new WebSocket] and [ws.send] can be
      stated. *)

From Stdlib Require Import ZArith QArith Qminmax Qpower Qround Lia Lqa.
From Stdlib Require Import Ascii String.
From stdpp Require Import base list strings pretty gmap.

Open Scope Z_scope.

Set Warnings "-register-all".

(** ** JavaScript preliminaries *)

Inductive exn : Type :=
| SyntaxError
| SecurityError
| InvalidStateError.

(** The outcome of evaluating a JavaScript expression or statement list. *)
Inductive completion (A : Type) : Type :=
| Normal (a : A)
| Throw (e : exn).
Arguments Normal {A} a.
Arguments Throw {A} e.

#[global] Instance completion_ret : MRet completion := fun A a => Normal a.
#[global] Instance completion_bind : MBind completion := fun A B k c =>
  match c with
  | Normal a => k a
  | Throw e => Throw e
  end.

(** [try { body } catch (e) { handler e }], for a handler that completes
    normally. *)
Definition try_catch {A : Type} (body : completion A) (handler : exn -> A)
  : A :=
  match body with
  | Normal a => a
  | Throw e => handler e
  end.

(** JSON values, as [JSON.parse] produces them.  A number is kept as the
    decimal [m * 10 ^ e] its literal denotes. *)
Inductive json : Type :=
| JNull
| JBool (b : bool)
| JNum (m e : Z)
| JStr (s : string)
| JArr (items : list json)
| JObj (fields : list (string * json)).

(** [ToBoolean] on a parsed value. *)
Definition truthy (v : json) : bool :=
  match v with
  | JNull => false
  | JBool b => b
  | JNum m _ => negb (m =? 0)
  | JStr s => negb (String.eqb s "")
  | JArr _ => true
  | JObj _ => true
  end.

Fixpoint assoc (k : string) (fields : list (string * json)) : option json :=
  match fields with
  | [] => None
  | (k', v) :: rest => if String.eqb k k' then Some v else assoc k rest
  end.

(** [v.type] for a parsed value [v] other than [null]; [None] is
    [undefined].  Only objects carry the property: numbers, booleans,
    strings and arrays have no property of that name. *)
Definition get_type (v : json) : option json :=
  match v with
  | JObj fields => assoc "type" fields
  | _ => None
  end.

(** [x === "lit"] where [x] is the result of a property read. *)
Definition strict_eq_str (x : option json) (lit : string) : bool :=
  match x with
  | Some (JStr s) => String.eqb s lit
  | _ => false
  end.

(** *** Strings in UTF-8 *)

Definition ord (c : ascii) : Z := Z.of_nat (nat_of_ascii c).
Definition chr (n : Z) : ascii := ascii_of_nat (Z.to_nat n).

(** The UTF-8 encoding of a code point. *)
Definition utf8 (cp : Z) : string :=
  if cp <? 0x80 then String (chr cp) ""
  else if cp <? 0x800 then
    String (chr (0xC0 + cp / 64)) (String (chr (0x80 + cp mod 64)) "")
  else if cp <? 0x10000 then
    String (chr (0xE0 + cp / 4096))
      (String (chr (0x80 + cp / 64 mod 64))
         (String (chr (0x80 + cp mod 64)) ""))
  else
    String (chr (0xF0 + cp / 262144))
      (String (chr (0x80 + cp / 4096 mod 64))
         (String (chr (0x80 + cp / 64 mod 64))
            (String (chr (0x80 + cp mod 64)) ""))).

Definition continuation (c : ascii) : bool :=
  (0x80 <=? ord c) && (ord c <? 0xC0).

(** The code point [s] starts with, and the number of bytes it takes.
    Overlong forms and values above [U+10FFFF] are not code points. *)
Definition decode (s : string) : option (Z * nat) :=
  match s with
  | String a s1 =>
      if ord a <? 0x80 then Some (ord a, 1%nat)
      else
        match s1 with
        | String b s2 =>
            let cp2 := (ord a - 0xC0) * 64 + (ord b - 0x80) in
            if negb (continuation b) then None
            else if ord a <? 0xE0
            then if 0xC2 <=? ord a then Some (cp2, 2%nat) else None
            else
              match s2 with
              | String c s3 =>
                  let cp3 :=
                    ((ord a - 0xE0) * 64 + (ord b - 0x80)) * 64
                    + (ord c - 0x80) in
                  if negb (continuation c) then None
                  else if ord a <? 0xF0
                  then if 0x800 <=? cp3 then Some (cp3, 3%nat) else None
                  else
                    match s3 with
                    | String d _ =>
                        let cp4 :=
                          (((ord a - 0xF0) * 64 + (ord b - 0x80)) * 64
                           + (ord c - 0x80)) * 64 + (ord d - 0x80) in
                        if continuation d && (0x10000 <=? cp4)
                           && (cp4 <? 0x110000)
                        then Some (cp4, 4%nat) else None
                    | _ => None
                    end
              | _ => None
              end
        | _ => None
        end
  | _ => None
  end.

(** *** A reference [JSON.parse] and [JSON.stringify]

    The component below is stated over any parser and any serializer.  This
    instance follows the JSON grammar on UTF-8 strings and is what the
    examples run.  An escape [\uXXXX] is decoded to the UTF-8 form of its
    code point, two escaped surrogates that pair to that of the code point
    they denote; a surrogate alone, which UTF-8 proper leaves out, is kept
    as the three bytes of its value and serialized as an escape. *)

Module RefJSON.

Open Scope char_scope.
Open Scope Z_scope.

Definition is_ws (c : ascii) : bool :=
  match c with
  | " " | "009" | "010" | "013" => true
  | _ => false
  end.

Fixpoint skip_ws (s : list ascii) : list ascii :=
  match s with
  | c :: r => if is_ws c then skip_ws r else s
  | [] => []
  end.

Definition digit (c : ascii) : option Z :=
  let n := Z.of_nat (nat_of_ascii c) in
  if (48 <=? n) && (n <=? 57) then Some (n - 48) else None.

Definition hex (c : ascii) : option Z :=
  let n := Z.of_nat (nat_of_ascii c) in
  if (48 <=? n) && (n <=? 57) then Some (n - 48)
  else if (65 <=? n) && (n <=? 70) then Some (n - 55)
  else if (97 <=? n) && (n <=? 102) then Some (n - 87)
  else None.

(** Reads a run of digits: the value accumulated on [acc], the number of
    digits read added to [n], and what follows. *)
Fixpoint digits (s : list ascii) (acc n : Z) : Z * Z * list ascii :=
  match s with
  | c :: r =>
      match digit c with
      | Some d => digits r (10 * acc + d) (n + 1)
      | None => (acc, n, s)
      end
  | [] => (acc, n, s)
  end.

Definition parse_exponent (m e : Z) (s : list ascii)
  : option (json * list ascii) :=
  match s with
  | "e" :: r | "E" :: r =>
      let '(neg, r) :=
        match r with
        | "-" :: r' => (true, r')
        | "+" :: r' => (false, r')
        | _ => (false, r)
        end in
      let '(x, n, r) := digits r 0 0 in
      if n =? 0 then None
      else Some (JNum m (e + (if neg : bool then - x else x)), r)
  | _ => Some (JNum m e, s)
  end.

Definition parse_fraction (neg : bool) (ip : Z) (s : list ascii)
  : option (json * list ascii) :=
  let sign m := if neg then - m else m in
  match s with
  | "." :: r =>
      let '(m, n, r) := digits r ip 0 in
      if n =? 0 then None else parse_exponent (sign m) (- n) r
  | _ => parse_exponent (sign ip) 0 s
  end.

Definition parse_number (s : list ascii) : option (json * list ascii) :=
  let '(neg, s) :=
    match s with
    | "-" :: r => (true, r)
    | _ => (false, s)
    end in
  match s with
  | c :: r =>
      match digit c with
      | Some d =>
          if d =? 0 then parse_fraction neg 0 r
          else let '(ip, _, r) := digits r d 1 in parse_fraction neg ip r
      | None => None
      end
  | [] => None
  end.

Definition hex4 (a b c d : ascii) : option Z :=
  a ← hex a; b ← hex b; c ← hex c; d ← hex d;
  Some (((a * 16 + b) * 16 + c) * 16 + d).

(** The bytes of [utf8 cp], last first, on top of [acc]. *)
Definition push (cp : Z) (acc : list ascii) : list ascii :=
  rev (list_ascii_of_string (utf8 cp)) ++ acc.

(** The characters of a string literal after its opening quote. *)
Fixpoint parse_string (s acc : list ascii) : option (string * list ascii) :=
  match s with
  | [] => None
  | "034" :: r => Some (string_of_list_ascii (rev acc), r)
  | "\" :: r =>
      match r with
      | "034" :: r' => parse_string r' ("034" :: acc)
      | "\" :: r' => parse_string r' ("\" :: acc)
      | "/" :: r' => parse_string r' ("/" :: acc)
      | "b" :: r' => parse_string r' ("008" :: acc)
      | "f" :: r' => parse_string r' ("012" :: acc)
      | "n" :: r' => parse_string r' ("010" :: acc)
      | "r" :: r' => parse_string r' ("013" :: acc)
      | "t" :: r' => parse_string r' ("009" :: acc)
      | "u" :: a :: b :: c :: d :: r' =>
          match hex4 a b c d with
          | Some n =>
              match r' with
              | "\" :: "u" :: e :: f :: g :: h :: r'' =>
                  match hex4 e f g h with
                  | Some m =>
                      if (0xD800 <=? n) && (n <? 0xDC00)
                         && (0xDC00 <=? m) && (m <? 0xE000)
                      then parse_string r''
                             (push (0x10000 + (n - 0xD800) * 1024
                                    + (m - 0xDC00)) acc)
                      else parse_string r' (push n acc)
                  | None => parse_string r' (push n acc)
                  end
              | _ => parse_string r' (push n acc)
              end
          | None => None
          end
      | _ => None
      end
  | c :: r =>
      if (nat_of_ascii c <? 32)%nat then None else parse_string r (c :: acc)
  end.

(** A later member replaces an earlier one of the same name. *)
Fixpoint put (k : string) (v : json) (fields : list (string * json))
  : list (string * json) :=
  match fields with
  | [] => [(k, v)]
  | (k', v') :: rest =>
      if String.eqb k k' then (k, v) :: rest else (k', v') :: put k v rest
  end.

Inductive mode : Type :=
| MValue
| MElements (acc : list json)
| MMembers (acc : list (string * json)).

Fixpoint parse_in (fuel : nat) (m : mode) (s : list ascii)
  : option (json * list ascii) :=
  match fuel with
  | O => None
  | S fuel =>
      match m with
      | MValue =>
          match skip_ws s with
          | "n" :: "u" :: "l" :: "l" :: r => Some (JNull, r)
          | "t" :: "r" :: "u" :: "e" :: r => Some (JBool true, r)
          | "f" :: "a" :: "l" :: "s" :: "e" :: r => Some (JBool false, r)
          | "034" :: r =>
              '(str, r) ← parse_string r []; Some (JStr str, r)
          | "[" :: r =>
              match skip_ws r with
              | "]" :: r' => Some (JArr [], r')
              | _ => parse_in fuel (MElements []) r
              end
          | "{" :: r =>
              match skip_ws r with
              | "}" :: r' => Some (JObj [], r')
              | _ => parse_in fuel (MMembers []) r
              end
          | s' => parse_number s'
          end
      | MElements acc =>
          '(v, r) ← parse_in fuel MValue s;
          match skip_ws r with
          | "," :: r' => parse_in fuel (MElements (acc ++ [v])) r'
          | "]" :: r' => Some (JArr (acc ++ [v]), r')
          | _ => None
          end
      | MMembers acc =>
          match skip_ws s with
          | "034" :: r =>
              '(k, r) ← parse_string r [];
              match skip_ws r with
              | ":" :: r =>
                  '(v, r) ← parse_in fuel MValue r;
                  match skip_ws r with
                  | "," :: r' => parse_in fuel (MMembers (put k v acc)) r'
                  | "}" :: r' => Some (JObj (put k v acc), r')
                  | _ => None
                  end
              | _ => None
              end
          | _ => None
          end
      end
  end.

Definition parse (text : string) : completion json :=
  let s := list_ascii_of_string text in
  match parse_in (2 * length s + 2) MValue s with
  | Some (v, r) =>
      match skip_ws r with
      | [] => Normal v
      | _ => Throw SyntaxError
      end
  | None => Throw SyntaxError
  end.

Definition hex_digit (n : nat) : ascii :=
  ascii_of_nat (if (n <? 10)%nat then 48 + n else 87 + n).

Definition quote_char (c : ascii) : list ascii :=
  match c with
  | "034" => ["\"; "034"]
  | "\" => ["\"; "\"]
  | "008" => ["\"; "b"]
  | "012" => ["\"; "f"]
  | "010" => ["\"; "n"]
  | "013" => ["\"; "r"]
  | "009" => ["\"; "t"]
  | _ =>
      let n := nat_of_ascii c in
      if (n <? 32)%nat
      then ["\"; "u"; "0"; "0"; hex_digit (n / 16); hex_digit (n mod 16)]
      else [c]
  end.

Fixpoint quote_chars (s : list ascii) : list ascii :=
  match s with
  | [] => []
  | a :: rest =>
      match rest with
      | b :: c :: r =>
          if (ord a =? 0xED) && (0xA0 <=? ord b) && (ord b <? 0xC0)
             && continuation c
          then
            let cp := (ord b - 0x80) * 64 + (ord c - 0x80) in
            ["\"; "u"; "d"; hex_digit (Z.to_nat (cp / 256));
             hex_digit (Z.to_nat (cp / 16 mod 16));
             hex_digit (Z.to_nat (cp mod 16))] ++ quote_chars r
          else quote_char a ++ quote_chars rest
      | _ => quote_char a ++ quote_chars rest
      end
  end.

Definition quote (s : string) : string :=
  string_of_list_ascii
    ("034" :: quote_chars (list_ascii_of_string s) ++ ["034"]).

Definition join (sep : string) (parts : list string) : string :=
  match parts with
  | [] => ""
  | p :: ps => fold_left (fun acc x => acc +:+ sep +:+ x) ps p
  end.

Fixpoint stringify (v : json) : string :=
  match v with
  | JNull => "null"
  | JBool true => "true"
  | JBool false => "false"
  | JNum m e => if e =? 0 then pretty m else pretty m +:+ "e" +:+ pretty e
  | JStr s => quote s
  | JArr items => "[" +:+ join "," (map stringify items) +:+ "]"
  | JObj fields =>
      "{" +:+ join "," (map (fun kv => quote kv.1 +:+ ":" +:+ stringify kv.2)
                           fields) +:+ "}"
  end.

(** Writes the double quote as an apostrophe, for readable JSON text. *)
Definition q (s : string) : string :=
  string_of_list_ascii
    (map (fun c => if Ascii.eqb c "'" then "034" else c)
       (list_ascii_of_string s)).

End RefJSON.

(** ** The connection URL ([wsUrl], lines 16-24) *)

(** [s.replace(/\/$/, "")]: drops one slash at the very end of [s]. *)
Fixpoint replace_trailing_slash (s : string) : string :=
  match s with
  | EmptyString => EmptyString
  | String c EmptyString =>
      if Ascii.eqb c "/"%char then EmptyString else s
  | String c rest => String c (replace_trailing_slash rest)
  end.

(** [s.replace(/^http/, "ws")] *)
Definition replace_leading_http (s : string) : string :=
  if String.prefix "http" s
  then ("ws" ++ String.substring 4 (String.length s - 4) s)%string
  else s.

(** [import.meta.env.VITE_BACKEND_URL || ""]; [None] is an unset
    variable. *)
Definition BACKEND_URL_of (env : option string) : string :=
  match env with
  | Some s => s
  | None => ""%string
  end.

Definition wsUrl (BACKEND_URL origin : string) : string :=
  let base := replace_trailing_slash BACKEND_URL in
  let base :=
    if String.eqb base ""
    then replace_leading_http origin
    else replace_leading_http base in
  (base ++ "/ws")%string.

(** ** Numbers

    A finite double is kept as the rational it denotes.  [round64] is the
    rounding of IEEE 754 binary64 arithmetic: to the nearest double, ties
    to even, with the subnormal numbers below [2^-1022].  There is no
    overflow to [Infinity] in it; the sums and products it is applied to
    stay below [2^14]. *)

(** [floor (log2 x)] for a positive [x]. *)
Definition ilog2 (x : Q) : Z :=
  let e := Z.log2 (Qnum x) - Z.log2 (Zpos (Qden x)) in
  if Qle_bool (2 ^ e) x then e else e - 1.

(** The integer nearest to [x]; of two equally near, the even one. *)
Definition round_half_even (x : Q) : Z :=
  let f := Qfloor x in
  match (x - inject_Z f ?= 1 # 2)%Q with
  | Lt => f
  | Eq => if Z.even f then f else f + 1
  | Gt => f + 1
  end.

(** The double nearest to a positive [x]: a multiple of the unit in the
    last place, which is [2^(e - 52)] for [2^e <= x < 2^(e + 1)] and
    [2^-1074] for the subnormal numbers. *)
Definition nearest (x : Q) : Q :=
  let u := (2 ^ (Z.max (ilog2 x) (-1022) - 52))%Q in
  (inject_Z (round_half_even (x / u)) * u)%Q.

Definition round64 (x : Q) : Q :=
  match Qnum x with
  | Z0 => 0
  | Zpos _ => nearest x
  | Zneg _ => - nearest (- x)
  end.

(** Whether the rational is a double. *)
Definition is_binary64 (x : Q) : bool := Qeq_bool (round64 x) x.

(** ** The retry delay (lines 55-58) *)

Definition Math_min (a b : Q) : Q := if Qle_bool a b then a else b.
Definition Math_max (a b : Q) : Q := if Qle_bool a b then b else a.
Definition Math_pow (b : Q) (e : Z) : Q := (b ^ e)%Q.

(** [Math.min(10000, 500 * Math.pow(2, prev))].  For an attempt count
    [prev >= 0] the power and the product are doubles, so neither
    operation rounds; once they overflow to [Infinity], [Math.min] still
    returns 10000, as it does here on the exact product. *)
Definition baseDelay (prev : Z) : Q :=
  Math_min 10000 (500 * Math_pow 2 prev)%Q.

(** [Math.random() * 300]; [rnd] is the value returned by
    [Math.random()], a double in [0, 1). *)
Definition jitter (rnd : Q) : Q := round64 (rnd * 300).

(** [Math.max(300, baseDelay + jitter)] *)
Definition delay (prev : Z) (rnd : Q) : Q :=
  Math_max 300 (round64 (baseDelay prev + jitter rnd)).



(** ** The browser's side: sockets and timeouts *)

(** What a message event carries in [evt.data]: a string for a text frame,
    a [Blob] or an [ArrayBuffer] for a binary one. *)
Inductive payload : Type :=
| TextData (s : string)
| BlobData
| ArrayBufferData.

(** The conversion [JSON.parse] applies to its argument. *)
Definition ToString (p : payload) : string :=
  match p with
  | TextData s => s
  | BlobData => "[object Blob]"
  | ArrayBufferData => "[object ArrayBuffer]"
  end.

Definition CONNECTING : Z := 0.
Definition OPEN : Z := 1.
Definition CLOSING : Z := 2.
Definition CLOSED : Z := 3.

Record Socket : Type := mkSocket {
  url : string;
  readyState : Z;
  (** the frames handed to [ws.send] while the socket was open, oldest first *)
  outbox : list string;
}.

Record State : Type := mkState {
  (** [useState] *)
  messages : list json;
  input : string;
  status : string;
  attempt : Z;
  (** [useRef]; [None] is [null] *)
  wsRef : option nat;
  retryTimeoutRef : option Z;
  manualCloseRef : bool;
  (** every socket constructed so far; a handle is an index in this list *)
  sockets : list Socket;
  (** the pending timeouts, each with its id and delay; the callback of
      every one of them is [connect] *)
  timers : list (Z * Q);
  (** the id the next [setTimeout] returns *)
  next_timer : Z;
}.

Definition setMessages (v : list json) (st : State) : State :=
  mkState v (input st) (status st) (attempt st) (wsRef st)
    (retryTimeoutRef st) (manualCloseRef st) (sockets st) (timers st)
    (next_timer st).
Definition setInput (v : string) (st : State) : State :=
  mkState (messages st) v (status st) (attempt st) (wsRef st)
    (retryTimeoutRef st) (manualCloseRef st) (sockets st) (timers st)
    (next_timer st).
Definition setStatus (v : string) (st : State) : State :=
  mkState (messages st) (input st) v (attempt st) (wsRef st)
    (retryTimeoutRef st) (manualCloseRef st) (sockets st) (timers st)
    (next_timer st).
Definition setAttempt (v : Z) (st : State) : State :=
  mkState (messages st) (input st) (status st) v (wsRef st)
    (retryTimeoutRef st) (manualCloseRef st) (sockets st) (timers st)
    (next_timer st).
Definition set_wsRef (v : option nat) (st : State) : State :=
  mkState (messages st) (input st) (status st) (attempt st) v
    (retryTimeoutRef st) (manualCloseRef st) (sockets st) (timers st)
    (next_timer st).
Definition set_retryTimeoutRef (v : option Z) (st : State) : State :=
  mkState (messages st) (input st) (status st) (attempt st) (wsRef st)
    v (manualCloseRef st) (sockets st) (timers st) (next_timer st).
Definition set_manualCloseRef (v : bool) (st : State) : State :=
  mkState (messages st) (input st) (status st) (attempt st) (wsRef st)
    (retryTimeoutRef st) v (sockets st) (timers st) (next_timer st).
Definition set_sockets (v : list Socket) (st : State) : State :=
  mkState (messages st) (input st) (status st) (attempt st) (wsRef st)
    (retryTimeoutRef st) (manualCloseRef st) v (timers st) (next_timer st).
Definition set_timers (v : list (Z * Q)) (st : State) : State :=
  mkState (messages st) (input st) (status st) (attempt st) (wsRef st)
    (retryTimeoutRef st) (manualCloseRef st) (sockets st) v (next_timer st).
Definition set_next_timer (v : Z) (st : State) : State :=
  mkState (messages st) (input st) (status st) (attempt st) (wsRef st)
    (retryTimeoutRef st) (manualCloseRef st) (sockets st) (timers st) v.

(** The component before its first effect runs: the initial values of the
    hooks, no socket, no timeout.  Timeout ids are positive integers. *)
Definition initial : State :=
  mkState [] "" "connecting" 0 None None false [] [] 1.

(** [clearTimeout(id)]: the timeout [id] is no longer pending.  An id that
    is not pending (fired, cleared, or never issued) changes nothing. *)
Definition clearTimeout (id : Z) (st : State) : State :=
  set_timers (List.filter (fun t => negb (fst t =? id)) (timers st)) st.

(** The timeout [id] fires: it leaves the pending ones. *)
Definition expire (id : Z) (st : State) : State :=
  set_timers (List.filter (fun t => negb (fst t =? id)) (timers st)) st.

(** [setTimeout(connect, d)] returns a fresh id. *)
Definition setTimeout (d : Q) (st : State) : Z * State :=
  let id := next_timer st in
  (id, set_next_timer (id + 1) (set_timers (timers st ++ [(id, d)]) st)).

(** [if (retryTimeoutRef.current)]: [null] and [0] are falsy. *)
Definition ref_truthy (r : option Z) : bool :=
  match r with
  | Some id => negb (id =? 0)
  | None => false
  end.

(** [if (retryTimeoutRef.current) clearTimeout(retryTimeoutRef.current)] *)
Definition clear_retryTimeout (st : State) : State :=
  match retryTimeoutRef st with
  | Some id => if ref_truthy (Some id) then clearTimeout id st else st
  | None => st
  end.

(** [new WebSocket(u)].  Whether the constructor throws is decided by the
    browser ([ctor] is the exception it throws, if any). *)
Definition new_WebSocket (ctor : option exn) (u : string) (st : State)
  : completion (nat * State) :=
  match ctor with
  | Some e => Throw e
  | None =>
      Normal (length (sockets st),
              set_sockets (sockets st ++ [mkSocket u CONNECTING []]) st)
  end.

Definition set_readyState (h : nat) (v : Z) (st : State) : State :=
  match sockets st !! h with
  | Some s =>
      set_sockets (<[h := mkSocket (url s) v (outbox s)]> (sockets st)) st
  | None => st
  end.

Definition readyState_of (h : nat) (st : State) : option Z :=
  readyState <$> sockets st !! h.

(** [wsRef.current.readyState], when [wsRef.current] is a socket. *)
Definition current_readyState (st : State) : option Z :=
  ws ← wsRef st; readyState_of ws st.

(** [ws.close()] starts the closing handshake unless the socket is already
    closing or closed. *)
Definition WebSocket_close (h : nat) (st : State) : State :=
  match readyState_of h st with
  | Some r => if (r =? CLOSING) || (r =? CLOSED) then st
              else set_readyState h CLOSING st
  | None => st
  end.

(** [ws.send(frame)] throws on a connecting socket, transmits on an open
    one and discards the frame on a closing or closed one. *)
Definition WebSocket_send (h : nat) (frame : string) (st : State)
  : completion State :=
  match sockets st !! h with
  | Some s =>
      if readyState s =? CONNECTING then Throw InvalidStateError
      else if readyState s =? OPEN
      then Normal (set_sockets
                     (<[h := mkSocket (url s) (readyState s)
                                      (outbox s ++ [frame])]> (sockets st)) st)
      else Normal st
  | None => Normal st
  end.

(** [s.trim()] strips the code points of WhiteSpace and LineTerminator
    from both ends (ECMAScript, 12.2 and 12.3): TAB, VT, FF, ZWNBSP and the
    space separators of Unicode; LF, CR, LS and PS. *)
Definition WhiteSpace : list Z :=
  [0x0009; 0x000B; 0x000C; 0xFEFF;
   0x0020; 0x00A0; 0x1680; 0x2000; 0x2001; 0x2002; 0x2003; 0x2004; 0x2005;
   0x2006; 0x2007; 0x2008; 0x2009; 0x200A; 0x202F; 0x205F; 0x3000].

Definition LineTerminator : list Z := [0x000A; 0x000D; 0x2028; 0x2029].

Definition is_space (cp : Z) : bool :=
  existsb (Z.eqb cp) (WhiteSpace ++ LineTerminator).

(** The number of bytes of the white-space code point [s] starts with;
    0 when it starts with none. *)
Definition space_width (s : string) : nat :=
  match decode s with
  | Some (cp, n) => if is_space cp then n else 0%nat
  | None => 0%nat
  end.

(** [s] without its first code point, when that is white space. *)
Definition skip_space (s : string) : option string :=
  match space_width s, s with
  | 1%nat, String _ r
  | 2%nat, String _ (String _ r)
  | 3%nat, String _ (String _ (String _ r)) => Some r
  | _, _ => None
  end.

Fixpoint trimStart (s : string) : string :=
  match space_width s, s with
  | 1%nat, String _ r
  | 2%nat, String _ (String _ r)
  | 3%nat, String _ (String _ (String _ r)) => trimStart r
  | _, _ => s
  end.

(** Whether [s] is white space from end to end. *)
Definition blank (s : string) : bool := String.eqb (trimStart s) "".

(** The longest blank suffix is dropped. *)
Fixpoint trimEnd (s : string) : string :=
  match s with
  | EmptyString => EmptyString
  | String c rest => if blank s then EmptyString else String c (trimEnd rest)
  end.

Definition trim (s : string) : string := trimEnd (trimStart s).

(** ** Events *)

Inductive Event : Type :=
| EffectRun (ctor : option exn)
| EffectCleanup
| TimerFire (id : Z) (ctor : option exn)
| WsOpen (h : nat)
| WsMessage (h : nat) (evt_data : payload)
| WsError (h : nat)
| WsClose (h : nat) (rnd : Q)
| WsClosing (h : nat)
| Change (value : string)
| Submit.

(** Whether the browser can deliver the event in this state: a timeout
    fires only while pending; a socket opens only from CONNECTING, receives
    only while OPEN, and reports an error or its closing only before it is
    CLOSED; [Math.random()] is in [0, 1) (every rational of that range is
    let through, the doubles among them).  [WsClosing] is the server
    starting the closing handshake on an OPEN socket. *)
Definition fires (st : State) (ev : Event) : bool :=
  match ev with
  | EffectRun _ | EffectCleanup | Change _ | Submit => true
  | TimerFire id _ => existsb (fun t => fst t =? id) (timers st)
  | WsOpen h => bool_decide (readyState_of h st = Some CONNECTING)
  | WsMessage h _ => bool_decide (readyState_of h st = Some OPEN)
  | WsError h =>
      match readyState_of h st with
      | Some r => negb (r =? CLOSED)
      | None => false
      end
  | WsClose h rnd =>
      match readyState_of h st with
      | Some r => negb (r =? CLOSED) && Qle_bool 0 rnd
                  && negb (Qle_bool 1 rnd)
      | None => false
      end
  | WsClosing h => bool_decide (readyState_of h st = Some OPEN)
  end.

(** ** What the properties speak of *)

(** What the presentation and the retry schedule show of a state: the
    status, the attempt count, the message sequence and the pending
    timeouts. *)
Definition observable (st : State)
  : string * Z * list json * list (Z * Q) :=
  (status st, attempt st, messages st, timers st).

(** Every frame handed to a transport so far. *)
Definition transport_calls (st : State) : list string :=
  concat (map outbox (sockets st)).

(** At most one timeout is pending, and it is the one [retryTimeoutRef]
    holds; ids are positive. *)
Definition timers_inv (st : State) : Prop :=
  0 < next_timer st /\
  (timers st = [] \/
   exists id d, retryTimeoutRef st = Some id /\ id <> 0 /\
                timers st = [(id, d)]).

(** The payload parses to a value whose [type] is one of the two accepted
    kinds. *)
Definition accepted_kind (data : json) : Prop :=
  get_type data = Some (JStr "message") \/
  get_type data = Some (JStr "system").

Definition is_socket_event (ev : Event) : bool :=
  match ev with
  | WsOpen _ | WsMessage _ _ | WsError _ | WsClose _ _ => true
  | _ => false
  end.

Definition is_effect_run (ev : Event) : bool :=
  match ev with
  | EffectRun _ => true
  | _ => false
  end.

(** The same event, fired by the socket [h]. *)
Definition fired_by (h : nat) (ev : Event) : Event :=
  match ev with
  | WsOpen _ => WsOpen h
  | WsMessage _ evt_data => WsMessage h evt_data
  | WsError _ => WsError h
  | WsClose _ rnd => WsClose h rnd
  | _ => ev
  end.

Fixpoint ends_with_slash (s : string) : bool :=
  match s with
  | EmptyString => false
  | String c EmptyString => Ascii.eqb c "/"
  | String _ rest => ends_with_slash rest
  end.

(** Mounting in strict mode: the effect runs, is cleaned up, and runs
    again, on the same instance. *)
Definition strict_mount : list Event :=
  [EffectRun None; EffectCleanup; EffectRun None].

(** ** The component *)

Section ChatRoom.

Set Default Proof Using "Type".

(** The configured backend address and [window.location.origin]. *)
Variable VITE_BACKEND_URL : option string.
Variable origin : string.

Definition BACKEND_URL : string := BACKEND_URL_of VITE_BACKEND_URL.

(** [JSON.parse] and [JSON.stringify] are the platform's. *)
Variable JSON_parse : string -> completion json.
Variable JSON_stringify : json -> string.

(** [useMemo(..., [])]: computed on the first render and kept. *)
Definition the_wsUrl : string := wsUrl BACKEND_URL origin.

(** *** The handlers installed by [connect] (lines 31-63) *)

Definition onopen (st : State) : State :=
  setAttempt 0 (setStatus "connected" st).

Definition onmessage (evt_data : payload) (st : State) : State :=
  try_catch
    (data ← JSON_parse (ToString evt_data);
     if truthy data
        && (strict_eq_str (get_type data) "message"
            || strict_eq_str (get_type data) "system")
     then Normal (setMessages (messages st ++ [data]) st)
     else Normal st)
    (fun _ => st).

Definition onerror (st : State) : State :=
  setStatus "error" st.

(** [rnd] is what [Math.random()] returns inside the updater. *)
Definition onclose (rnd : Q) (st : State) : State :=
  let st := set_wsRef None st in
  if manualCloseRef st then st
  else
    let st := setStatus "disconnected" st in
    let prev := attempt st in
    let next := prev + 1 in
    let delay := delay prev rnd in
    let st := clear_retryTimeout st in
    let '(id, st) := setTimeout delay st in
    let st := set_retryTimeoutRef (Some id) st in
    setAttempt next st.

(** *** [connect] (lines 26-71) *)

Definition connect (ctor : option exn) (st : State) : State :=
  try_catch
    ('(ws, st') ← new_WebSocket ctor the_wsUrl st;
     Normal (set_wsRef (Some ws) st'))
    (fun e =>
       let st := setStatus "error" st in
       let delay := 1000%Q in
       let st := clear_retryTimeout st in
       let '(id, st) := setTimeout delay st in
       set_retryTimeoutRef (Some id) st).

(** *** The mount effect and its cleanup (lines 73-86) *)

Definition effect (ctor : option exn) (st : State) : State :=
  let st := set_manualCloseRef false st in
  let st := setStatus "connecting" st in
  connect ctor st.

Definition cleanup (st : State) : State :=
  let st := set_manualCloseRef true st in
  let st := clear_retryTimeout st in
  match wsRef st with
  | Some ws =>
      if bool_decide (current_readyState st = Some 1)
      then WebSocket_close ws st
      else st
  | None => st
  end.

(** *** [send] (lines 106-112) *)

Definition send (st : State) : completion State :=
  let text := trim (input st) in
  if String.eqb text ""
     || negb (bool_decide (is_Some (wsRef st)))
     || negb (bool_decide (current_readyState st = Some 1))
  then Normal st
  else
    match wsRef st with
    | Some ws =>
        st ← WebSocket_send ws
               (JSON_stringify
                  (JObj [("type", JStr "message"); ("text", JStr text)]%string))
               st;
        Normal (setInput "" st)
    | None => Normal st
    end.

(** *** The event loop *)

(** The event runs its handler to completion.  A timeout that fires is no
    longer pending when its callback runs.  [EffectRun], [EffectCleanup],
    [EffectRun] on one instance is what React does on mount in strict
    mode.  When the server starts the closing handshake the browser sets
    the ready state to CLOSING and calls no handler; the close event comes
    later. *)
Definition deliver (ev : Event) (st : State) : State :=
  match ev with
  | EffectRun ctor => effect ctor st
  | EffectCleanup => cleanup st
  | TimerFire id ctor => connect ctor (expire id st)
  | WsOpen h => onopen (set_readyState h OPEN st)
  | WsMessage h evt_data => onmessage evt_data st
  | WsError h => onerror st
  | WsClose h rnd => onclose rnd (set_readyState h CLOSED st)
  | WsClosing h => set_readyState h CLOSING st
  | Change value => setInput value st
  | Submit =>
      match send st with
      | Normal st' => st'
      | Throw _ => st
      end
  end.

Definition step (st : State) (ev : Event) : State :=
  if fires st ev then deliver ev st else st.

Definition run (evs : list Event) (st : State) : State :=
  fold_left step evs st.

Definition reachable (st : State) : Prop :=
  exists evs, st = run evs initial.

(** The admission rule as the specification words it: the payload is
    admitted when it deserializes and its kind is one of the two accepted
    ones; [admitted] is then the message that enters the sequence. *)
Definition accepts (data : json) : bool :=
  match get_type data with
  | Some (JStr kind) => String.eqb kind "message" || String.eqb kind "system"
  | _ => false
  end.

Definition admitted (evt_data : payload) : option json :=
  match JSON_parse (ToString evt_data) with
  | Normal data => if accepts data then Some data else None
  | Throw _ => None
  end.

(** *** The rest of the component *)

(** What [onKeyDown] reads of a keyboard event. *)
Record KeyboardEvent : Type := mkKeyboardEvent {
  key : string;
  shiftKey : bool;
}.

(** [onKeyDown] (lines 114-119).  The boolean tells whether
    [e.preventDefault()] was called. *)
Definition onKeyDown (e : KeyboardEvent) (st : State)
  : completion (bool * State) :=
  if String.eqb (key e) "Enter" && negb (shiftKey e)
  then st' ← send st; Normal (true, st')
  else Normal (false, st).

(** [statusColor] (lines 121-126): the class of the status indicator,
    looked up in an object literal; [None] is [undefined]. *)
Definition statusColor_table : gmap string string :=
  list_to_map
    [("connecting", "text-yellow-400"); ("connected", "text-emerald-400");
     ("disconnected", "text-rose-400"); ("error", "text-red-500")]%string.

Definition statusColor (st : State) : option string :=
  statusColor_table !! status st.

(** [attempt > 0 && status !== "connected"] (line 134): whether the header
    shows the reconnecting notice. *)
Definition shows_reconnecting (st : State) : bool :=
  (0 <? attempt st) && negb (String.eqb (status st) "connected").

(** [messages.length === 0] (line 142): whether the placeholder is shown. *)
Definition shows_placeholder (st : State) : bool :=
  (length (messages st) =? 0)%nat.

(** The class of a message in the list (lines 150-154). *)
Definition message_className (m : json) : string :=
  if strict_eq_str (get_type m) "system"
  then "text-xs text-slate-400 text-center"
  else "max-w-[80%] rounded-xl px-4 py-2 bg-blue-500/10 border border-blue-400/20".

(** The frame [send] serializes for a text. *)
Definition outgoing (text : string) : json :=
  JObj [("type", JStr "message"); ("text", JStr text)]%string.

(** A socket that has not reported its closing. *)
Definition is_live (s : Socket) : bool := negb (readyState s =? CLOSED).

Definition live_count (st : State) : nat :=
  length (List.filter is_live (sockets st)).

(** [k] connections that fail one after the other: the socket [h] closes,
    the timeout [t] fires and constructs the socket [h + 1], which closes in
    its turn, and so on.  Each close draws its own [Math.random()]. *)
Fixpoint failed_attempts (h : nat) (t : Z) (rnds : list Q) : list Event :=
  match rnds with
  | [] => []
  | rnd :: rest =>
      WsClose h rnd :: TimerFire t None :: failed_attempts (S h) (t + 1) rest
  end.

(** The constructor throws each time the timeout [t], [t + 1], ... fires. *)
Fixpoint failed_constructions (t : Z) (es : list exn) : list Event :=
  match es with
  | [] => []
  | e :: rest => TimerFire t (Some e) :: failed_constructions (t + 1) rest
  end.

(** The effect running again, or its cleanup. *)
Definition is_remount (ev : Event) : bool :=
  match ev with
  | EffectRun _ | EffectCleanup => true
  | _ => false
  end.

(** What holds of the component between one run of the effect and its
    cleanup: the teardown flag is clear, the only socket that can still
    report is the one [wsRef] holds, a pending retry means no socket is
    left, and a connected status means [wsRef] holds a socket that has
    opened and has not reported its closing. *)
Definition mounted_inv (st : State) : Prop :=
  timers_inv st /\
  manualCloseRef st = false /\
  (forall h s, sockets st !! h = Some s -> is_live s = true ->
               wsRef st = Some h) /\
  (timers st <> [] ->
   forall h s, sockets st !! h = Some s -> is_live s = false) /\
  (status st = "connected"%string ->
   exists h s, wsRef st = Some h /\ sockets st !! h = Some s /\
               (readyState s = OPEN \/ readyState s = CLOSING)).

(** * Properties *)

(** Closes a conjunction of equations that hold by computation or are
    among the hypotheses. *)
Ltac fields :=
  repeat match goal with |- _ /\ _ => split end;
  first [reflexivity | assumption | congruence].

Ltac split_hyps :=
  repeat match goal with H : _ /\ _ |- _ => destruct H end.


(** ** Rounding to the nearest double *)

Section Binary64.
Local Open Scope Q_scope.

Lemma pow2_pos (e : Z) : 0 < 2 ^ e.
Proof. apply Qpower_0_lt. reflexivity. Qed.

Lemma pow2_add (a b : Z) : 2 ^ (a + b) == 2 ^ a * 2 ^ b.
Proof. apply Qpower_plus. discriminate. Qed.

Lemma pow2_le (a b : Z) : (a <= b)%Z -> 2 ^ a <= 2 ^ b.
Proof. intros H. apply Qpower_le_compat_l; [exact H | discriminate]. Qed.

Lemma pow2_lt_inv (a b : Z) : 2 ^ a < 2 ^ b -> (a < b)%Z.
Proof. intros H. apply (Qpower_lt_compat_l_inv 2); [exact H | reflexivity]. Qed.

Lemma pow2_inject (n : Z) : (0 <= n)%Z -> inject_Z (2 ^ n) == 2 ^ n.
Proof. intros H. now rewrite Zpower_Qpower. Qed.

Lemma round_half_even_bounds (x : Q) :
  (Qfloor x <= round_half_even x <= Qfloor x + 1)%Z.
Proof.
  unfold round_half_even.
  destruct (x - inject_Z (Qfloor x) ?= 1 # 2); [|lia|lia].
  destruct (Z.even (Qfloor x)); lia.
Qed.

Lemma round_half_even_mono (x y : Q) :
  x <= y -> (round_half_even x <= round_half_even y)%Z.
Proof.
  intros H. pose proof (Qfloor_resp_le x y H) as Hf.
  destruct (Z.eq_dec (Qfloor x) (Qfloor y)) as [E|N].
  - unfold round_half_even. rewrite <- E.
    destruct (Qcompare_spec (x - inject_Z (Qfloor x)) (1 # 2)) as [Hx|Hx|Hx];
      destruct (Qcompare_spec (y - inject_Z (Qfloor x)) (1 # 2)) as [Hy|Hy|Hy];
      try destruct (Z.even (Qfloor x)); try lia; exfalso; lra.
  - pose proof (round_half_even_bounds x).
    pose proof (round_half_even_bounds y).
    lia.
Qed.

Lemma round_half_even_Z (k : Z) : round_half_even (inject_Z k) = k.
Proof.
  unfold round_half_even. rewrite Qfloor_Z.
  destruct (Qcompare_spec (inject_Z k - inject_Z k) (1 # 2)) as [H|H|H];
    [exfalso; lra | reflexivity | exfalso; lra].
Qed.

Lemma Qmake_mult (x : Q) : x * inject_Z (Zpos (Qden x)) == inject_Z (Qnum x).
Proof.
  destruct x as [p q]. unfold Qeq, inject_Z. simpl.
  rewrite Pos.mul_1_r. ring.
Qed.

Lemma ilog2_spec (x : Q) : 0 < x -> 2 ^ ilog2 x <= x /\ x < 2 ^ (ilog2 x + 1).
Proof.
  intros Hx. unfold ilog2.
  assert (Hp : (0 < Qnum x)%Z).
  { destruct x as [p q]. unfold Qlt in Hx. simpl in Hx.
    rewrite Z.mul_1_r in Hx. exact Hx. }
  set (lp := Z.log2 (Qnum x)). set (lq := Z.log2 (Zpos (Qden x))).
  pose proof (Z.log2_spec (Qnum x) Hp) as [Hp1 Hp2]. fold lp in Hp1, Hp2.
  pose proof (Z.log2_spec (Zpos (Qden x)) eq_refl) as [Hq1 Hq2].
  fold lq in Hq1, Hq2.
  assert (Hlp : (0 <= lp)%Z) by apply Z.log2_nonneg.
  assert (Hlq : (0 <= lq)%Z) by apply Z.log2_nonneg.
  rewrite Zle_Qle, pow2_inject in Hp1, Hq1 by assumption.
  rewrite Zlt_Qlt, pow2_inject in Hp2, Hq2 by lia.
  pose proof (Qmake_mult x) as Hm.
  set (P := inject_Z (Qnum x)) in *. set (D := inject_Z (Zpos (Qden x))) in *.
  assert (HD : 0 < D).
  { pose proof (pow2_pos lq). lra. }
  destruct (Qle_bool (2 ^ (lp - lq)) x) eqn:E.
  - apply Qle_bool_iff in E. split; [exact E|].
    (* x * D == P < 2^(lp+1) == 2^(e+1) * 2^lq <= 2^(e+1) * D *)
    assert (H1 : 2 ^ Z.succ lp == 2 ^ (lp - lq + 1) * 2 ^ lq).
    { rewrite <- pow2_add. apply Qpower_comp; [reflexivity | lia]. }
    pose proof (pow2_pos (lp - lq + 1)) as H2.
    apply (Qmult_lt_r _ _ D HD).
    assert (H3 : 2 ^ (lp - lq + 1) * 2 ^ lq <= 2 ^ (lp - lq + 1) * D).
    { apply Qmult_le_l; assumption. }
    lra.
  - assert (E' : x < 2 ^ (lp - lq)).
    { apply Qnot_le_lt. intros H. apply Qle_bool_iff in H. congruence. }
    split.
    + assert (H1 : 2 ^ lp == 2 ^ (lp - lq - 1) * 2 ^ Z.succ lq).
      { rewrite <- pow2_add. apply Qpower_comp; [reflexivity | lia]. }
      pose proof (pow2_pos (lp - lq - 1)) as H2.
      apply (Qmult_le_r _ _ D HD).
      assert (H3 : 2 ^ (lp - lq - 1) * D <= 2 ^ (lp - lq - 1) * 2 ^ Z.succ lq).
      { apply Qmult_le_l; [assumption | lra]. }
      lra.
    + replace (lp - lq - 1 + 1)%Z with (lp - lq)%Z by lia. exact E'.
Qed.

Lemma ilog2_unique (x : Q) (e : Z) :
  2 ^ e <= x -> x < 2 ^ (e + 1) -> ilog2 x = e.
Proof.
  intros H1 H2.
  assert (Hx : 0 < x) by (pose proof (pow2_pos e); lra).
  destruct (ilog2_spec x Hx) as [H3 H4].
  assert (Ha : (e < ilog2 x + 1)%Z) by (apply pow2_lt_inv; lra).
  assert (Hb : (ilog2 x < e + 1)%Z) by (apply pow2_lt_inv; lra).
  lia.
Qed.

Lemma ilog2_mono (x y : Q) : 0 < x -> x <= y -> (ilog2 x <= ilog2 y)%Z.
Proof.
  intros Hx Hxy.
  destruct (ilog2_spec x Hx) as [H1 _].
  destruct (ilog2_spec y) as [_ H2]; [lra|].
  assert (H : (ilog2 x < ilog2 y + 1)%Z) by (apply pow2_lt_inv; lra).
  lia.
Qed.

Lemma nearest_mult (x : Q) (k : Z) :
  (Z.max (ilog2 x) (-1022) - 52)%Z = k ->
  nearest x = inject_Z (round_half_even (x / 2 ^ k)) * 2 ^ k.
Proof. intros <-. reflexivity. Qed.

Lemma nearest_nonneg (x : Q) : 0 < x -> 0 <= nearest x.
Proof.
  intros Hx. unfold nearest.
  set (u := 2 ^ _). assert (Hu : 0 < u) by apply pow2_pos.
  apply Qmult_le_0_compat; [|lra].
  change 0 with (inject_Z 0). rewrite <- Zle_Qle.
  rewrite <- (round_half_even_Z 0). apply round_half_even_mono.
  apply Qle_shift_div_l; [exact Hu|]. change (inject_Z 0) with 0. lra.
Qed.

Lemma nearest_upper (x : Q) :
  0 < x -> nearest x <= 2 ^ (Z.max (ilog2 x) (-1022) + 1).
Proof.
  intros Hx. unfold nearest.
  set (E := Z.max (ilog2 x) (-1022)).
  set (u := 2 ^ (E - 52)). assert (Hu : 0 < u) by apply pow2_pos.
  destruct (ilog2_spec x Hx) as [_ H2].
  assert (H3 : 2 ^ (ilog2 x + 1) <= 2 ^ (E + 1)) by (apply pow2_le; lia).
  assert (H4 : 2 ^ (E + 1) == inject_Z (2 ^ 53) * u).
  { rewrite pow2_inject by lia. unfold u. rewrite <- pow2_add.
    apply Qpower_comp; [reflexivity | lia]. }
  rewrite H4. apply Qmult_le_compat_r; [|lra].
  rewrite <- Zle_Qle. rewrite <- (round_half_even_Z (2 ^ 53)).
  apply round_half_even_mono.
  apply Qle_shift_div_r; [exact Hu|]. lra.
Qed.

Lemma nearest_lower (x : Q) :
  0 < x -> (-1022 <= ilog2 x)%Z -> 2 ^ ilog2 x <= nearest x.
Proof.
  intros Hx He. unfold nearest.
  replace (Z.max (ilog2 x) (-1022)) with (ilog2 x) by lia.
  set (u := 2 ^ (ilog2 x - 52)). assert (Hu : 0 < u) by apply pow2_pos.
  destruct (ilog2_spec x Hx) as [H1 _].
  assert (H4 : 2 ^ ilog2 x == inject_Z (2 ^ 52) * u).
  { rewrite pow2_inject by lia. unfold u. rewrite <- pow2_add.
    apply Qpower_comp; [reflexivity | lia]. }
  rewrite H4 at 1. apply Qmult_le_compat_r; [|lra].
  rewrite <- Zle_Qle. rewrite <- (round_half_even_Z (2 ^ 52)) at 1.
  apply round_half_even_mono.
  apply Qle_shift_div_l; [exact Hu|]. lra.
Qed.

Lemma nearest_mono (x y : Q) : 0 < x -> x <= y -> nearest x <= nearest y.
Proof.
  intros Hx Hxy. assert (Hy : 0 < y) by lra.
  pose proof (ilog2_mono x y Hx Hxy) as He.
  destruct (Z.eq_dec (Z.max (ilog2 x) (-1022)) (Z.max (ilog2 y) (-1022)))
    as [E|N].
  - unfold nearest. rewrite E.
    set (u := 2 ^ _). assert (Hu : 0 < u) by apply pow2_pos.
    apply Qmult_le_compat_r; [|lra].
    rewrite <- Zle_Qle. apply round_half_even_mono.
    apply Qmult_le_compat_r; [exact Hxy|].
    apply Qinv_le_0_compat. lra.
  - pose proof (nearest_upper x Hx) as H1.
    pose proof (nearest_lower y Hy) as H2.
    assert (H3 : 2 ^ (Z.max (ilog2 x) (-1022) + 1) <= 2 ^ ilog2 y)
      by (apply pow2_le; lia).
    assert (H4 : (-1022 <= ilog2 y)%Z) by lia.
    specialize (H2 H4). lra.
Qed.

Lemma Qnum_pos (x : Q) (p : positive) : Qnum x = Zpos p -> 0 < x.
Proof. destruct x as [n d]. simpl. intros ->. reflexivity. Qed.

Lemma Qnum_neg (x : Q) (p : positive) : Qnum x = Zneg p -> x < 0.
Proof. destruct x as [n d]. simpl. intros ->. reflexivity. Qed.

Lemma Qnum_zero (x : Q) : Qnum x = 0%Z -> x == 0.
Proof. destruct x as [n d]. simpl. intros ->. reflexivity. Qed.

Lemma round64_pos (x : Q) : 0 < x -> round64 x = nearest x.
Proof.
  intros H. unfold round64.
  destruct (Qnum x) as [|p|p] eqn:E; [| reflexivity |].
  - apply Qnum_zero in E. lra.
  - apply Qnum_neg in E. lra.
Qed.

Lemma round64_neg (x : Q) : x < 0 -> round64 x = - nearest (- x).
Proof.
  intros H. unfold round64.
  destruct (Qnum x) as [|p|p] eqn:E; [| | reflexivity].
  - apply Qnum_zero in E. lra.
  - apply Qnum_pos in E. lra.
Qed.

Lemma round64_zero (x : Q) : x == 0 -> round64 x = 0.
Proof.
  intros H. unfold round64.
  destruct (Qnum x) as [|p|p] eqn:E; [reflexivity | |].
  - apply Qnum_pos in E. lra.
  - apply Qnum_neg in E. lra.
Qed.

(** Rounding to nearest is monotone. *)
Lemma round64_mono (x y : Q) : x <= y -> round64 x <= round64 y.
Proof.
  intros H.
  destruct (Q_dec x 0) as [[Hx|Hx]|Hx], (Q_dec y 0) as [[Hy|Hy]|Hy];
    try (exfalso; lra).
  - rewrite (round64_neg x Hx), (round64_neg y Hy).
    assert (H1 : nearest (- y) <= nearest (- x)) by (apply nearest_mono; lra).
    lra.
  - rewrite (round64_neg x Hx), (round64_pos y Hy).
    assert (H1 : 0 <= nearest (- x)) by (apply nearest_nonneg; lra).
    pose proof (nearest_nonneg y Hy). lra.
  - rewrite (round64_neg x Hx), (round64_zero y Hy).
    assert (H1 : 0 <= nearest (- x)) by (apply nearest_nonneg; lra). lra.
  - rewrite (round64_pos x Hx), (round64_pos y Hy). now apply nearest_mono.
  - rewrite (round64_zero x Hx), (round64_pos y Hy). now apply nearest_nonneg.
  - rewrite (round64_zero x Hx), (round64_zero y Hy). lra.
Qed.

Lemma round64_comp (x y : Q) : x == y -> round64 x == round64 y.
Proof.
  intros H. apply Qle_antisym; apply round64_mono; lra.
Qed.


(** A double below 1 is at most [1 - 2^-53]. *)
Lemma binary64_below_1 (x : Q) :
  round64 x == x -> x < 1 -> x <= 1 - 2 ^ (-53).
Proof.
  intros Hr H1.
  destruct (Qlt_le_dec x (1 # 2)) as [Hh|Hh].
  - assert (H : 1 # 2 <= 1 - 2 ^ (-53)) by (vm_compute; discriminate). lra.
  - assert (Hx : 0 < x) by lra.
    assert (He : ilog2 x = (-1)%Z).
    { apply ilog2_unique; [exact Hh | exact H1]. }
    rewrite (round64_pos x Hx) in Hr.
    rewrite (nearest_mult x (-53)) in Hr by (rewrite He; reflexivity).
    set (m := round_half_even (x / 2 ^ (-53))) in *.
    assert (Hm : (m < 2 ^ 53)%Z).
    { rewrite Zlt_Qlt.
      assert (H2 : inject_Z m * 2 ^ (-53) < inject_Z (2 ^ 53) * 2 ^ (-53)).
      { rewrite Hr. assert (H3 : inject_Z (2 ^ 53) * 2 ^ (-53) == 1)
          by reflexivity. lra. }
      apply (Qmult_lt_r _ _ (2 ^ (-53))); [reflexivity | exact H2]. }
    assert (Hm' : (m <= 2 ^ 53 - 1)%Z) by lia.
    rewrite Zle_Qle in Hm'.
    assert (H4 : inject_Z m * 2 ^ (-53) <= inject_Z (2 ^ 53 - 1) * 2 ^ (-53)).
    { apply Qmult_le_compat_r; [exact Hm' | discriminate]. }
    assert (H5 : inject_Z (2 ^ 53 - 1) * 2 ^ (-53) == 1 - 2 ^ (-53))
      by reflexivity.
    lra.
Qed.



Lemma round_half_even_comp (x y : Q) :
  x == y -> round_half_even x = round_half_even y.
Proof.
  intros H. apply Z.le_antisymm; apply round_half_even_mono; lra.
Qed.

(** A number with a significand below [2^53] and an exponent from [-1074]
    is a double: rounding leaves it alone. *)
Lemma round64_representable (m k : Z) :
  (0 < m < 2 ^ 53)%Z -> (-1074 <= k)%Z ->
  round64 (inject_Z m * 2 ^ k) == inject_Z m * 2 ^ k.
Proof.
  intros Hm Hk. set (x := inject_Z m * 2 ^ k).
  assert (Hm0 : 0 < inject_Z m).
  { change 0 with (inject_Z 0). rewrite <- Zlt_Qlt. lia. }
  assert (Hx : 0 < x).
  { unfold x. apply Qmult_lt_0_compat; [exact Hm0 | apply pow2_pos]. }
  destruct (Z.log2_spec m) as [L1 L2]; [lia|].
  pose proof (Z.log2_nonneg m) as L0.
  assert (L3 : (Z.log2 m < 53)%Z) by (apply Z.log2_lt_pow2; lia).
  rewrite Zle_Qle, pow2_inject in L1 by assumption.
  rewrite Zlt_Qlt, pow2_inject in L2 by lia.
  assert (He : ilog2 x = (Z.log2 m + k)%Z).
  { pose proof (pow2_pos k) as Hp.
    apply ilog2_unique; unfold x.
    - rewrite pow2_add. apply Qmult_le_compat_r; lra.
    - replace (Z.log2 m + k + 1)%Z with (Z.succ (Z.log2 m) + k)%Z by lia.
      rewrite pow2_add. apply Qmult_lt_compat_r; lra. }
  rewrite (round64_pos x Hx). unfold nearest. rewrite He.
  set (E := (Z.max (Z.log2 m + k) (-1022) - 52)%Z).
  assert (HE : (0 <= k - E)%Z) by (unfold E; lia).
  assert (Hq : x / 2 ^ E == inject_Z (m * 2 ^ (k - E))).
  { rewrite inject_Z_mult, pow2_inject by exact HE. unfold x.
    rewrite Qpower_minus by discriminate.
    field. apply Qpower_not_0. discriminate. }
  rewrite (round_half_even_comp _ _ Hq), round_half_even_Z.
  rewrite inject_Z_mult, pow2_inject by exact HE. unfold x.
  rewrite Qpower_minus by discriminate.
  field. apply Qpower_not_0. discriminate.
Qed.

End Binary64.

(** ** The retry delay *)

Section Backoff.

Local Open Scope Q_scope.

Lemma Math_min_l (a b : Q) : a <= b -> Math_min a b = a.
Proof.
  intros H. unfold Math_min.
  destruct (Qle_bool a b) eqn:E; [reflexivity|].
  apply Qle_bool_iff in H. congruence.
Qed.

Lemma Math_min_r (a b : Q) : b < a -> Math_min a b = b.
Proof.
  intros H. unfold Math_min.
  destruct (Qle_bool a b) eqn:E; [|reflexivity].
  apply Qle_bool_iff in E. lra.
Qed.

Lemma Math_max_r (a b : Q) : a <= b -> Math_max a b = b.
Proof.
  intros H. unfold Math_max.
  destruct (Qle_bool a b) eqn:E; [reflexivity|].
  apply Qle_bool_iff in H. congruence.
Qed.






Lemma pow2_ge_1 (n : Z) : (0 <= n)%Z -> 1 <= Math_pow 2 n.
Proof. intros H. unfold Math_pow. apply Qpower_1_le; [lra | exact H]. Qed.


Lemma pow2_succ (n : Z) : Math_pow 2 (n + 1) == 2 * Math_pow 2 n.
Proof.
  unfold Math_pow. rewrite Qpower_plus by lra.
  change (2 ^ 1) with 2. ring.
Qed.

Lemma baseDelay_lower (n : Z) : (0 <= n)%Z -> 500 <= baseDelay n.
Proof.
  intros H. unfold baseDelay. pose proof (pow2_ge_1 n H) as Hp.
  destruct (Qlt_le_dec (500 * Math_pow 2 n) 10000) as [Hlt|Hge].
  - rewrite Math_min_r by exact Hlt. lra.
  - rewrite Math_min_l by exact Hge. lra.
Qed.

Lemma baseDelay_upper (n : Z) : baseDelay n <= 10000.
Proof.
  unfold baseDelay.
  destruct (Qlt_le_dec (500 * Math_pow 2 n) 10000) as [Hlt|Hge].
  - rewrite Math_min_r by exact Hlt. lra.
  - rewrite Math_min_l by exact Hge. lra.
Qed.



Lemma baseDelay_unsaturated (n : Z) :
  500 * 2 ^ n < 10000 -> baseDelay n = 500 * 2 ^ n.
Proof. intros H. unfold baseDelay, Math_pow. now apply Math_min_r. Qed.


(** For an attempt count [n >= 0] the power and the product of the base
    delay are doubles. *)
Lemma base_product_exact (n : Z) :
  (0 <= n)%Z ->
  round64 (Math_pow 2 n) == Math_pow 2 n /\
  round64 (500 * Math_pow 2 n) == 500 * Math_pow 2 n.
Proof.
  intros Hn. unfold Math_pow. split.
  - assert (H : 2 ^ n == inject_Z 1 * 2 ^ n)
      by (change (inject_Z 1) with 1; ring).
    rewrite (round64_comp _ _ H), (round64_representable 1 n) by lia.
    symmetry. exact H.
  - apply (round64_representable 500 n); lia.
Qed.

Lemma jitter_bounds (rnd : Q) :
  0 <= rnd -> rnd <= 1 -> 0 <= jitter rnd /\ jitter rnd <= 300.
Proof.
  intros H0 H1. unfold jitter. split.
  - change 0 with (round64 0) at 1. apply round64_mono. lra.
  - assert (H : round64 300 == 300) by reflexivity.
    assert (H2 : round64 (rnd * 300) <= round64 300)
      by (apply round64_mono; lra).
    lra.
Qed.

(** [Math.random()] is a double below 1, so the jitter stays below 300:
    the product nearest to 300 rounds to the double just below it. *)
Lemma jitter_range (rnd : Q) :
  is_binary64 rnd = true ->
  0 <= rnd -> rnd < 1 -> 0 <= jitter rnd /\ jitter rnd < 300.
Proof.
  intros Hd H0 H1. split; [apply jitter_bounds; lra|].
  apply Qeq_bool_iff in Hd.
  pose proof (binary64_below_1 rnd Hd H1) as H.
  assert (Hc : round64 ((1 - 2 ^ (-53)) * 300) < 300) by reflexivity.
  unfold jitter.
  apply Qle_lt_trans with (round64 ((1 - 2 ^ (-53)) * 300)); [|exact Hc].
  apply round64_mono. lra.
Qed.





End Backoff.

(** ** The timeouts *)

Lemma set_timers_id (st : State) : set_timers (timers st) st = st.
Proof. destruct st; reflexivity. Qed.

Lemma filter_absent (id : Z) (l : list (Z * Q)) :
  ~ In id (map fst l) ->
  List.filter (fun t => negb (fst t =? id)) l = l.
Proof.
  induction l as [|[i d] l IH]; simpl; intros H; [reflexivity|].
  destruct (Z.eqb_spec i id) as [->|Hne]; simpl.
  - exfalso. apply H. now left.
  - f_equal. apply IH. intros Hin. apply H. now right.
Qed.

Lemma clearTimeout_absent (id : Z) (st : State) :
  ~ In id (map fst (timers st)) -> clearTimeout id st = st.
Proof.
  intros H. unfold clearTimeout.
  rewrite filter_absent by exact H. apply set_timers_id.
Qed.

Lemma clear_retryTimeout_timers (st : State) :
  timers_inv st -> timers (clear_retryTimeout st) = [].
Proof.
  intros [_ [Hnil | (id & d & Href & Hid & Hone)]]; unfold clear_retryTimeout.
  - destruct (retryTimeoutRef st) as [i|]; [|exact Hnil].
    destruct (ref_truthy (Some i)); [|exact Hnil].
    unfold clearTimeout; simpl. now rewrite Hnil.
  - rewrite Href. unfold ref_truthy.
    destruct (Z.eqb_spec id 0) as [->|_]; [congruence|]. simpl.
    rewrite Hone. simpl. now rewrite Z.eqb_refl.
Qed.

Lemma clear_retryTimeout_other (st : State) :
  let st' := clear_retryTimeout st in
  messages st' = messages st /\ input st' = input st /\
  status st' = status st /\ attempt st' = attempt st /\
  wsRef st' = wsRef st /\ retryTimeoutRef st' = retryTimeoutRef st /\
  manualCloseRef st' = manualCloseRef st /\ sockets st' = sockets st /\
  next_timer st' = next_timer st.
Proof.
  unfold clear_retryTimeout.
  destruct (retryTimeoutRef st) as [i|] eqn:E; [|now rewrite ?E].
  destruct (ref_truthy (Some i)); simpl; now rewrite ?E.
Qed.

Lemma timers_inv_fresh (st st' : State) (d : Q) :
  0 < next_timer st ->
  timers st' = [(next_timer st, d)] ->
  retryTimeoutRef st' = Some (next_timer st) ->
  next_timer st' = next_timer st + 1 ->
  timers_inv st'.
Proof.
  intros Hpos Ht Hr Hn. split; [lia|].
  right. exists (next_timer st), d. repeat split; [exact Hr | lia | exact Ht].
Qed.

Lemma timers_inv_subset (st st' : State) :
  timers_inv st ->
  next_timer st' = next_timer st ->
  retryTimeoutRef st' = retryTimeoutRef st ->
  (timers st' = timers st \/ timers st' = []) ->
  timers_inv st'.
Proof.
  intros [Hpos Hinv] Hn Hr Ht. split; [lia|].
  destruct Ht as [Ht|Ht]; [|now left].
  rewrite Ht, Hr. exact Hinv.
Qed.

Lemma filter_inv (id : Z) (st : State) :
  timers_inv st ->
  let l := List.filter (fun t => negb (fst t =? id)) (timers st) in
  l = timers st \/ l = [].
Proof.
  intros [_ [Hnil | (i & d & _ & _ & Hone)]]; simpl.
  - rewrite Hnil. now left.
  - rewrite Hone. simpl. destruct (negb (i =? id)); [now left | now right].
Qed.

(** The new state has the timeouts, the timeout ref and the id counter of
    [st], or these with no timeout pending. *)
Ltac keeps_timers st :=
  apply (timers_inv_subset st);
  [ assumption
  | first [reflexivity | assumption]
  | first [reflexivity | assumption]
  | first [now left | now right | assumption] ].

(** ** The handlers *)

Lemma onclose_manual (rnd : Q) (st : State) :
  manualCloseRef st = true -> onclose rnd st = set_wsRef None st.
Proof. intros H. unfold onclose. simpl. now rewrite H. Qed.

Lemma onclose_retry (rnd : Q) (st : State) :
  manualCloseRef st = false ->
  let st' := onclose rnd st in
  status st' = "disconnected"%string /\
  attempt st' = attempt st + 1 /\
  wsRef st' = None /\
  retryTimeoutRef st' = Some (next_timer st) /\
  timers st' = timers (clear_retryTimeout st)
               ++ [(next_timer st, delay (attempt st) rnd)] /\
  next_timer st' = next_timer st + 1 /\
  messages st' = messages st /\ input st' = input st /\
  manualCloseRef st' = false /\ sockets st' = sockets st.
Proof.
  intros H. unfold onclose. simpl. rewrite H.
  unfold clear_retryTimeout. simpl.
  destruct (retryTimeoutRef st) as [i|]; simpl.
  - destruct (negb (i =? 0)); simpl; rewrite ?H; fields.
  - rewrite ?H. fields.
Qed.

Lemma connect_ok (st : State) :
  connect None st
  = set_wsRef (Some (length (sockets st)))
      (set_sockets (sockets st ++ [mkSocket the_wsUrl CONNECTING []]) st).
Proof. reflexivity. Qed.

Lemma connect_failed (e : exn) (st : State) :
  let st' := connect (Some e) st in
  status st' = "error"%string /\
  attempt st' = attempt st /\
  wsRef st' = wsRef st /\
  retryTimeoutRef st' = Some (next_timer st) /\
  timers st' = timers (clear_retryTimeout st) ++ [(next_timer st, 1000%Q)] /\
  next_timer st' = next_timer st + 1 /\
  messages st' = messages st /\ input st' = input st /\
  manualCloseRef st' = manualCloseRef st /\ sockets st' = sockets st.
Proof.
  unfold connect, try_catch, new_WebSocket. simpl.
  unfold clear_retryTimeout. simpl.
  destruct (retryTimeoutRef st) as [i|]; simpl.
  - destruct (negb (i =? 0)); simpl; fields.
  - fields.
Qed.

(** The outcome of [onmessage], by cases on the parse. *)
Lemma onmessage_cases (evt_data : payload) (st : State) :
  match JSON_parse (ToString evt_data) with
  | Normal data =>
      (accepted_kind data /\
       onmessage evt_data st = setMessages (messages st ++ [data]) st) \/
      (~ accepted_kind data /\ onmessage evt_data st = st)
  | Throw _ => onmessage evt_data st = st
  end.
Proof.
  unfold onmessage, try_catch, accepted_kind.
  destruct (JSON_parse (ToString evt_data)) as [data|e]; simpl; [|reflexivity].
  destruct data as [ | b | m e | s | items | fields ]; simpl;
    try (right; split; [intros [H|H]; discriminate|]; reflexivity);
    try (right; split; [intros [H|H]; discriminate|];
         now destruct (truthy _)).
  - destruct b; right; (split; [intros [H|H]; discriminate | reflexivity]).
  - destruct (negb (m =? 0)); right;
      (split; [intros [H|H]; discriminate | reflexivity]).
  - destruct (negb (String.eqb s ""));
      right; (split; [intros [H|H]; discriminate | reflexivity]).
  - destruct (assoc "type" fields) as [[ | b | m e | k | items | fs ]|];
      simpl;
      try (right; split; [intros [H|H]; discriminate | reflexivity]).
    destruct (String.eqb_spec k "message") as [->|Hm]; simpl.
    + left. split; [now left | reflexivity].
    + destruct (String.eqb_spec k "system") as [->|Hs]; simpl.
      * left. split; [now right | reflexivity].
      * right. split; [|reflexivity].
        intros [H|H]; inversion H; congruence.
Qed.

(** *** Invariants of the reachable states *)

Lemma set_readyState_other (h : nat) (v : Z) (st : State) :
  let st' := set_readyState h v st in
  messages st' = messages st /\ input st' = input st /\
  status st' = status st /\ attempt st' = attempt st /\
  wsRef st' = wsRef st /\ retryTimeoutRef st' = retryTimeoutRef st /\
  manualCloseRef st' = manualCloseRef st /\ timers st' = timers st /\
  next_timer st' = next_timer st.
Proof.
  unfold set_readyState. destruct (sockets st !! h); simpl; fields.
Qed.

Lemma send_other (st : State) :
  exists st', send st = Normal st' /\
  messages st' = messages st /\
  status st' = status st /\ attempt st' = attempt st /\
  wsRef st' = wsRef st /\ retryTimeoutRef st' = retryTimeoutRef st /\
  manualCloseRef st' = manualCloseRef st /\ timers st' = timers st /\
  next_timer st' = next_timer st.
Proof.
  unfold send.
  destruct (String.eqb (trim (input st)) ""); simpl;
    [exists st; fields|].
  destruct (wsRef st) as [ws|] eqn:Ews; simpl; [|exists st; fields].
  unfold current_readyState. rewrite Ews. simpl.
  destruct (bool_decide (readyState_of ws st = Some 1)) eqn:Er; simpl;
    [|exists st; fields].
  apply bool_decide_eq_true in Er. unfold readyState_of in Er.
  unfold WebSocket_send.
  destruct (sockets st !! ws) as [s|]; simpl in *; [|discriminate].
  injection Er as ->. simpl.
  eexists. split; [reflexivity|]. simpl. rewrite ?Ews. fields.
Qed.

Lemma cleanup_other (st : State) :
  let st' := cleanup st in
  messages st' = messages st /\ input st' = input st /\
  status st' = status st /\ attempt st' = attempt st /\
  wsRef st' = wsRef st /\ retryTimeoutRef st' = retryTimeoutRef st /\
  manualCloseRef st' = true /\
  timers st' = timers (clear_retryTimeout st) /\
  next_timer st' = next_timer st.
Proof.
  unfold cleanup.
  set (st1 := clear_retryTimeout (set_manualCloseRef true st)).
  assert (H1 : messages st1 = messages st /\ input st1 = input st /\
          status st1 = status st /\ attempt st1 = attempt st /\
          wsRef st1 = wsRef st /\ retryTimeoutRef st1 = retryTimeoutRef st /\
          manualCloseRef st1 = true /\
          timers st1 = timers (clear_retryTimeout st) /\
          next_timer st1 = next_timer st).
  { subst st1. unfold clear_retryTimeout. simpl.
    destruct (retryTimeoutRef st) as [i|] eqn:E; simpl; [|fields].
    destruct (negb (i =? 0)); simpl; fields. }
  clearbody st1.
  destruct (wsRef st1) as [ws|] eqn:Ews; [|split_hyps; fields].
  destruct (bool_decide _); [|split_hyps; fields].
  unfold WebSocket_close.
  destruct (readyState_of ws st1) as [r|] eqn:Er; [|split_hyps; fields].
  destruct ((r =? CLOSING) || (r =? CLOSED)); [split_hyps; fields|].
  pose proof (set_readyState_other ws CLOSING st1) as H2. simpl in H2.
  split_hyps; fields.
Qed.

Lemma timers_inv_connect (ctor : option exn) (st : State) :
  timers_inv st -> timers_inv (connect ctor st).
Proof.
  intros Hinv. destruct ctor as [e|].
  - destruct (connect_failed e st) as (_ & _ & _ & Hr & Ht & Hn & _).
    rewrite clear_retryTimeout_timers in Ht by exact Hinv.
    apply (timers_inv_fresh st _ 1000%Q);
      [apply Hinv | exact Ht | exact Hr | exact Hn].
  - rewrite connect_ok.
    keeps_timers st.
Qed.

Lemma timers_inv_onclose (rnd : Q) (st : State) :
  timers_inv st -> timers_inv (onclose rnd st).
Proof.
  intros Hinv. destruct (manualCloseRef st) eqn:Hm.
  - rewrite onclose_manual by exact Hm.
    keeps_timers st.
  - destruct (onclose_retry rnd st Hm) as (_ & _ & _ & Hr & Ht & Hn & _).
    rewrite clear_retryTimeout_timers in Ht by exact Hinv.
    apply (timers_inv_fresh st _ (delay (attempt st) rnd));
      [apply Hinv | exact Ht | exact Hr | exact Hn].
Qed.

Lemma timers_inv_deliver (ev : Event) (st : State) :
  timers_inv st -> timers_inv (deliver ev st).
Proof.
  intros Hinv. destruct ev as [ctor| |id ctor|h|h d|h|h rnd|h|v|]; simpl.
  - apply timers_inv_connect.
    keeps_timers st.
  - destruct (cleanup_other st) as (_ & _ & _ & _ & _ & Hr & _ & Ht & Hn).
    rewrite clear_retryTimeout_timers in Ht by exact Hinv.
    keeps_timers st.
  - apply timers_inv_connect.
    pose proof (filter_inv id st Hinv) as Hf. keeps_timers st.
  - destruct (set_readyState_other h OPEN st)
      as (_ & _ & _ & _ & _ & Hr & _ & Ht & Hn).
    keeps_timers st.
  - pose proof (onmessage_cases d st) as Hc.
    destruct (JSON_parse (ToString d)) as [data|e].
    + destruct Hc as [[_ ->]|[_ ->]]; [|exact Hinv].
      keeps_timers st.
    + now rewrite Hc.
  - keeps_timers st.
  - apply timers_inv_onclose.
    destruct (set_readyState_other h CLOSED st)
      as (_ & _ & _ & _ & _ & Hr & _ & Ht & Hn).
    keeps_timers st.
  - destruct (set_readyState_other h CLOSING st)
      as (_ & _ & _ & _ & _ & Hr & _ & Ht & Hn).
    keeps_timers st.
  - keeps_timers st.
  - destruct (send_other st) as (st' & -> & _ & _ & _ & _ & Hr & _ & Ht & Hn).
    keeps_timers st.
Qed.

Lemma timers_inv_step (ev : Event) (st : State) :
  timers_inv st -> timers_inv (step st ev).
Proof.
  intros Hinv. unfold step.
  destruct (fires st ev); [now apply timers_inv_deliver | exact Hinv].
Qed.

Lemma timers_inv_run (evs : list Event) (st : State) :
  timers_inv st -> timers_inv (run evs st).
Proof.
  revert st. induction evs as [|ev evs IH]; intros st Hinv; simpl.
  - exact Hinv.
  - apply IH. now apply timers_inv_step.
Qed.

Lemma timers_inv_initial : timers_inv initial.
Proof. split; [reflexivity | now left]. Qed.

Lemma reachable_timers_inv (st : State) : reachable st -> timers_inv st.
Proof. intros [evs ->]. apply timers_inv_run, timers_inv_initial. Qed.

(** ** The retry path *)

(** The sum before the floor, for a jitter between 0 and 300. *)
Lemma sum_bounds (n : Z) (j : Q) :
  (0 <= n)%Z -> (0 <= j)%Q -> (j <= 300)%Q ->
  let pre := round64 (baseDelay n + j) in
  (500 <= baseDelay n + j)%Q /\ (baseDelay n + j <= 10300)%Q /\
  (500 <= pre)%Q /\ (pre <= 10300)%Q /\ Math_max 300 pre = pre.
Proof.
  intros Hn H0 H1 pre.
  pose proof (baseDelay_lower n Hn) as Hl.
  pose proof (baseDelay_upper n) as Hu.
  assert (Hlo : (500 <= pre)%Q).
  { assert (H : (round64 500 == 500)%Q) by reflexivity.
    assert (H2 : (round64 500 <= pre)%Q) by (apply round64_mono; lra).
    lra. }
  assert (Hhi : (pre <= 10300)%Q).
  { assert (H : (round64 10300 == 10300)%Q) by reflexivity.
    assert (H2 : (pre <= round64 10300)%Q) by (apply round64_mono; lra).
    lra. }
  split; [lra|]. split; [lra|]. split; [exact Hlo|]. split; [exact Hhi|].
  apply Math_max_r. lra.
Qed.

Lemma delay_bounds (n : Z) (rnd : Q) :
  (0 <= n)%Z -> (0 <= rnd)%Q -> (rnd < 1)%Q ->
  (500 <= delay n rnd)%Q /\ (delay n rnd <= 10300)%Q /\
  delay n rnd = round64 (baseDelay n + jitter rnd).
Proof.
  intros Hn H0 H1.
  destruct (jitter_bounds rnd H0) as [Hj0 Hj1]; [lra|].
  destruct (sum_bounds n (jitter rnd) Hn Hj0 Hj1) as (_ & _ & Hlo & Hhi & Hmax).
  unfold delay. rewrite Hmax. split; [exact Hlo|]. split; [exact Hhi|].
  reflexivity.
Qed.




(** C10, as the code has it.  The floor of 300 ms never binds: for every
    attempt count [n >= 0] and every jitter [j] with [0 <= j < 300] the
    sum [min(10000, 500 * 2^n) + j] is at least 500, and so is the double
    it rounds to, on which [max(300, .)] is the identity.  The jitter the
    code draws, [Math.random() * 300], is such a [j] for every double that
    [Math.random()] returns.  The exact sum is below 10300, but the double
    nearest to it can be 10300 itself: the computed delay lies in the
    closed interval [[500, 10300]]. *)
Theorem floor_never_binds (n : Z) (j : Q) :
  (0 <= n)%Z -> (0 <= j)%Q -> (j < 300)%Q ->
  let pre := round64 (baseDelay n + j) in
  (500 <= baseDelay n + j)%Q /\ (baseDelay n + j < 10300)%Q /\
  Math_max 300 (baseDelay n + j) = (baseDelay n + j)%Q /\
  (500 <= pre)%Q /\ (pre <= 10300)%Q /\
  Math_max 300 pre = pre /\
  (forall rnd, (0 <= rnd)%Q -> (rnd < 1)%Q ->
     (0 <= jitter rnd)%Q /\ (jitter rnd <= 300)%Q /\
     (is_binary64 rnd = true -> (jitter rnd < 300)%Q) /\
     delay n rnd = round64 (baseDelay n + jitter rnd) /\
     (500 <= delay n rnd)%Q /\ (delay n rnd <= 10300)%Q).
Proof.
  intros Hn H0 H1 pre.
  pose proof (baseDelay_upper n) as Hu.
  destruct (sum_bounds n j Hn H0) as (Hs0 & _ & Hlo & Hhi & Hmax); [lra|].
  split; [exact Hs0|]. split; [lra|].
  split; [apply Math_max_r; lra|].
  split; [exact Hlo|]. split; [exact Hhi|]. split; [exact Hmax|].
  intros rnd Hr0 Hr1.
  destruct (delay_bounds n rnd Hn Hr0 Hr1) as (Hlo' & Hhi' & Heq).
  destruct (jitter_bounds rnd Hr0) as [Hj0 Hj1]; [lra|].
  split; [exact Hj0|]. split; [exact Hj1|].
  split; [intros Hd; exact (proj2 (jitter_range rnd Hd Hr0 Hr1))|].
  fields.
Qed.

(** ** The lifecycle *)

Lemma connect_attempt (ctor : option exn) (st : State) :
  attempt (connect ctor st) = attempt st.
Proof.
  destruct ctor as [e|]; [|reflexivity].
  now destruct (connect_failed e st) as (_ & H & _).
Qed.

Lemma attempt_deliver (ev : Event) (st : State) :
  attempt (deliver ev st) = attempt st \/
  (exists h, ev = WsOpen h /\ attempt (deliver ev st) = 0) \/
  (exists h rnd, ev = WsClose h rnd /\ manualCloseRef st = false /\
                 attempt (deliver ev st) = attempt st + 1).
Proof.
  destruct ev as [ctor| |id ctor|h|h d|h|h rnd|h|v|]; cbn [deliver].
  - left. unfold effect. now rewrite connect_attempt.
  - left. now destruct (cleanup_other st) as (_ & _ & _ & H & _).
  - left. now rewrite connect_attempt.
  - right. left. now exists h.
  - left. pose proof (onmessage_cases d st) as Hc.
    destruct (JSON_parse (ToString d)) as [data|e].
    + now destruct Hc as [[_ ->]|[_ ->]].
    + now rewrite Hc.
  - now left.
  - destruct (set_readyState_other h CLOSED st)
      as (_ & _ & _ & Ha & _ & _ & Hm & _).
    destruct (manualCloseRef st) eqn:Hman.
    + left. rewrite onclose_manual by congruence. exact Ha.
    + right. right. exists h, rnd. split; [reflexivity|]. split; [reflexivity|].
      destruct (onclose_retry rnd (set_readyState h CLOSED st))
        as (_ & H & _); [congruence|].
      rewrite H. now rewrite Ha.
  - left. now destruct (set_readyState_other h CLOSING st)
      as (_ & _ & _ & Ha & _).
  - now left.
  - left. destruct (send_other st) as (st' & -> & _ & _ & H & _).
    exact H.
Qed.

Lemma attempt_nonneg_step (ev : Event) (st : State) :
  0 <= attempt st -> 0 <= attempt (step st ev).
Proof.
  intros H. unfold step.
  destruct (fires st ev); [|exact H].
  destruct (attempt_deliver ev st)
    as [-> | [(h & _ & ->) | (h & rnd & _ & _ & ->)]]; lia.
Qed.

Lemma attempt_nonneg_run (evs : list Event) (st : State) :
  0 <= attempt st -> 0 <= attempt (run evs st).
Proof.
  revert st. induction evs as [|ev evs IH]; intros st H; simpl.
  - exact H.
  - apply IH. now apply attempt_nonneg_step.
Qed.

(** C6. In every reachable state the attempt counter is non-negative; an
    open event sets it to 0 whatever it was; a close event outside of
    teardown adds exactly 1 and schedules the retry; and every event leaves
    it unchanged unless it is that reset or that increment. *)
Theorem attempt_counter (st : State) (ev : Event) :
  reachable st ->
  0 <= attempt st /\
  (forall h, attempt (deliver (WsOpen h) st) = 0) /\
  (forall h rnd, manualCloseRef st = false ->
     attempt (deliver (WsClose h rnd) st) = attempt st + 1 /\
     timers (deliver (WsClose h rnd) st)
     = [(next_timer st, delay (attempt st) rnd)]) /\
  (attempt (step st ev) = attempt st \/
   (exists h, ev = WsOpen h /\ attempt (step st ev) = 0) \/
   (exists h rnd, ev = WsClose h rnd /\ manualCloseRef st = false /\
                  attempt (step st ev) = attempt st + 1)).
Proof.
  intros Hr. pose proof (reachable_timers_inv st Hr) as Hinv.
  split.
  { destruct Hr as [evs ->]. apply attempt_nonneg_run. simpl. lia. }
  split; [reflexivity|]. split.
  - intros h rnd Hm. simpl.
    destruct (set_readyState_other h CLOSED st)
      as (_ & _ & _ & Ha & _ & Href & Hman & Ht & Hn).
    set (st0 := set_readyState h CLOSED st) in *.
    assert (Hinv0 : timers_inv st0).
    { keeps_timers st. }
    destruct (onclose_retry rnd st0) as (_ & H1 & _ & _ & H2 & _);
      [congruence|].
    rewrite clear_retryTimeout_timers in H2 by exact Hinv0.
    rewrite H1, H2, Ha, Hn. split; reflexivity.
  - unfold step. destruct (fires st ev); [|now left].
    apply attempt_deliver.
Qed.

(** C8. An exception thrown by the WebSocket constructor does not leave
    [connect]: [connect] completes, sets the status to error, and schedules
    a timeout of exactly 1000 ms, whatever the attempt count, which it
    leaves unchanged; no socket is created.  That timeout can fire, and
    when it does [connect] runs again.  Both callers of [connect], the
    effect and the timeout, take this path. *)
Theorem construction_failure_fallback (e : exn) (st : State) :
  new_WebSocket (Some e) the_wsUrl st = Throw e /\
  let st' := connect (Some e) st in
  status st' = "error"%string /\
  last (timers st') = Some (next_timer st, 1000%Q) /\
  retryTimeoutRef st' = Some (next_timer st) /\
  attempt st' = attempt st /\
  sockets st' = sockets st /\ wsRef st' = wsRef st /\
  (forall ctor,
     fires st' (TimerFire (next_timer st) ctor) = true /\
     step st' (TimerFire (next_timer st) ctor)
     = connect ctor (expire (next_timer st) st')) /\
  deliver (EffectRun (Some e)) st
  = connect (Some e) (setStatus "connecting" (set_manualCloseRef false st)) /\
  (forall id, deliver (TimerFire id (Some e)) st
              = connect (Some e) (expire id st)).
Proof.
  split; [reflexivity|].
  destruct (connect_failed e st)
    as (Hs & Ha & Hw & Hr & Ht & _ & _ & _ & _ & Hso).
  cbv zeta. rewrite Ht, last_snoc.
  assert (Hf : forall ctor,
             fires (connect (Some e) st) (TimerFire (next_timer st) ctor)
             = true).
  { intros ctor. cbn [fires]. rewrite Ht, existsb_app. simpl.
    rewrite Z.eqb_refl. now rewrite orb_true_r. }
  repeat split; try assumption.
  - apply Hf.
  - unfold step. now rewrite Hf.
Qed.

(** C7. In every reachable state at most one timeout is pending.  Both
    places that schedule one (the close handler and the fallback of
    [connect]) clear the pending one first, so that only the new one is
    pending afterwards; and clearing a timeout that is not pending (fired,
    cleared or absent) changes nothing. *)
Theorem single_retry_timer (st : State) :
  reachable st ->
  (length (timers st) <= 1)%nat /\
  (forall rnd, manualCloseRef st = false ->
     timers (onclose rnd st) = [(next_timer st, delay (attempt st) rnd)]) /\
  (forall e, timers (connect (Some e) st) = [(next_timer st, 1000%Q)]) /\
  (forall id, ~ In id (map fst (timers st)) -> clearTimeout id st = st) /\
  (timers st = [] -> clear_retryTimeout st = st).
Proof.
  intros Hr. pose proof (reachable_timers_inv st Hr) as Hinv.
  split.
  { destruct Hinv as [_ [-> | (id & d & _ & _ & ->)]]; simpl; lia. }
  split.
  { intros rnd Hm.
    destruct (onclose_retry rnd st Hm) as (_ & _ & _ & _ & Ht & _).
    now rewrite Ht, clear_retryTimeout_timers. }
  split.
  { intros e.
    destruct (connect_failed e st) as (_ & _ & _ & _ & Ht & _).
    now rewrite Ht, clear_retryTimeout_timers. }
  split; [intros id; apply clearTimeout_absent|].
  intros Hnil. unfold clear_retryTimeout.
  destruct (retryTimeoutRef st) as [i|]; [|reflexivity].
  destruct (ref_truthy (Some i)); [|reflexivity].
  apply clearTimeout_absent. rewrite Hnil. simpl. intros [].
Qed.

(** ** The connection URL *)

Lemma replace_trailing_slash_app (b : string) :
  replace_trailing_slash (b ++ "/") = b.
Proof.
  induction b as [|c b IH]; [reflexivity|].
  simpl. rewrite IH. now destruct b.
Qed.

Lemma replace_trailing_slash_id (b : string) :
  ends_with_slash b = false -> replace_trailing_slash b = b.
Proof.
  induction b as [|c b IH]; [reflexivity|].
  simpl. destruct b as [|c' b'].
  - intros ->. reflexivity.
  - intros H. now rewrite IH.
Qed.

Lemma substring_all (s : string) : substring 0 (String.length s) s = s.
Proof. induction s as [|c s IH]; simpl; [reflexivity | now rewrite IH]. Qed.

Lemma replace_leading_http_prefix (r : string) :
  replace_leading_http ("http" ++ r) = ("ws" ++ r)%string.
Proof.
  unfold replace_leading_http. simpl.
  assert (Hp : String.prefix "" r = true) by now destruct r.
  rewrite Nat.sub_0_r, substring_all.
  now destruct r.
Qed.

Lemma replace_leading_http_other (s : string) :
  String.prefix "http" s = false -> replace_leading_http s = s.
Proof. intros H. unfold replace_leading_http. now rewrite H. Qed.

Lemma ends_with_slash_http (r : string) :
  ends_with_slash r = false -> ends_with_slash ("http" ++ r) = false.
Proof. intros H. simpl. now destruct r. Qed.

Lemma http_nonempty (r : string) : String.eqb ("http" ++ r) "" = false.
Proof. reflexivity. Qed.

(** Every socket is constructed on the one URL. *)
Lemma urls_set_readyState (h : nat) (v : Z) (st : State) :
  Forall (fun s => url s = the_wsUrl) (sockets st) ->
  Forall (fun s => url s = the_wsUrl) (sockets (set_readyState h v st)).
Proof.
  intros H. unfold set_readyState.
  destruct (sockets st !! h) as [s|] eqn:E; [|exact H]. simpl.
  apply Forall_insert; [exact H|]. simpl.
  exact (proj1 (Forall_lookup _ _) H h s E).
Qed.

Lemma urls_connect (ctor : option exn) (st : State) :
  Forall (fun s => url s = the_wsUrl) (sockets st) ->
  Forall (fun s => url s = the_wsUrl) (sockets (connect ctor st)).
Proof.
  intros H. destruct ctor as [e|].
  - destruct (connect_failed e st) as (_ & _ & _ & _ & _ & _ & _ & _ & _ & ->).
    exact H.
  - rewrite connect_ok. simpl. apply Forall_app. split; [exact H|].
    now constructor.
Qed.

Lemma urls_cleanup (st : State) :
  Forall (fun s => url s = the_wsUrl) (sockets st) ->
  Forall (fun s => url s = the_wsUrl) (sockets (cleanup st)).
Proof.
  intros H. unfold cleanup.
  set (st1 := clear_retryTimeout (set_manualCloseRef true st)).
  assert (H1 : sockets st1 = sockets st).
  { subst st1.
    now destruct (clear_retryTimeout_other (set_manualCloseRef true st))
      as (_ & _ & _ & _ & _ & _ & _ & -> & _). }
  clearbody st1. rewrite <- H1 in H.
  destruct (wsRef st1) as [ws|]; [|exact H].
  destruct (bool_decide _); [|exact H].
  unfold WebSocket_close.
  destruct (readyState_of ws st1) as [r|]; [|exact H].
  destruct ((r =? CLOSING) || (r =? CLOSED)); [exact H|].
  now apply urls_set_readyState.
Qed.

Lemma urls_send (st st' : State) :
  send st = Normal st' ->
  Forall (fun s => url s = the_wsUrl) (sockets st) ->
  Forall (fun s => url s = the_wsUrl) (sockets st').
Proof.
  unfold send. intros Hs H.
  destruct (String.eqb (trim (input st)) "" || _ || _);
    [now injection Hs as <-|].
  destruct (wsRef st) as [ws|]; [|now injection Hs as <-].
  unfold WebSocket_send in Hs.
  destruct (sockets st !! ws) as [s|] eqn:E; [|now injection Hs as <-].
  destruct (readyState s =? CONNECTING); [discriminate|].
  destruct (readyState s =? OPEN); simpl in Hs; injection Hs as <-; [|exact H].
  simpl. apply Forall_insert; [exact H|]. simpl.
  exact (proj1 (Forall_lookup _ _) H ws s E).
Qed.

Lemma urls_deliver (ev : Event) (st : State) :
  Forall (fun s => url s = the_wsUrl) (sockets st) ->
  Forall (fun s => url s = the_wsUrl) (sockets (deliver ev st)).
Proof.
  intros H. destruct ev as [ctor| |id ctor|h|h d|h|h rnd|h|v|]; cbn [deliver].
  - unfold effect. now apply urls_connect.
  - now apply urls_cleanup.
  - now apply urls_connect.
  - simpl. now apply urls_set_readyState.
  - pose proof (onmessage_cases d st) as Hc.
    destruct (JSON_parse (ToString d)) as [data|e].
    + now destruct Hc as [[_ ->]|[_ ->]].
    + now rewrite Hc.
  - exact H.
  - pose proof (urls_set_readyState h CLOSED st H) as H0.
    set (st0 := set_readyState h CLOSED st) in *.
    destruct (manualCloseRef st0) eqn:Hm.
    + now rewrite onclose_manual.
    + now destruct (onclose_retry rnd st0 Hm)
        as (_ & _ & _ & _ & _ & _ & _ & _ & _ & ->).
  - now apply urls_set_readyState.
  - exact H.
  - destruct (send_other st) as (st' & Hs & _). rewrite Hs.
    now apply (urls_send st).
Qed.

Lemma urls_run (evs : list Event) (st : State) :
  Forall (fun s => url s = the_wsUrl) (sockets st) ->
  Forall (fun s => url s = the_wsUrl) (sockets (run evs st)).
Proof.
  revert st. induction evs as [|ev evs IH]; intros st H; simpl; [exact H|].
  apply IH. unfold step. destruct (fires st ev); [|exact H].
  now apply urls_deliver.
Qed.

(** C9. The connection URL is a function of the configured address and the
    window origin.  The address is the environment variable when it is set:
    one trailing slash of it is dropped, whatever the address is; when what
    is left is empty the origin takes its place; a leading [http] becomes
    [ws] (so [https] becomes [wss]) and any other beginning is kept; and
    [/ws] is appended.  Every socket of every reachable state was
    constructed on that one URL. *)
Theorem wsUrl_derivation :
  (forall b, replace_trailing_slash (b ++ "/") = b) /\
  (forall b, ends_with_slash b = false -> replace_trailing_slash b = b) /\
  (forall r, replace_leading_http ("http" ++ r) = "ws" ++ r)%string /\
  (forall r, replace_leading_http ("https" ++ r) = "wss" ++ r)%string /\
  (forall s, String.prefix "http" s = false -> replace_leading_http s = s) /\
  (forall r o, wsUrl ("http" ++ r ++ "/") o = "ws" ++ r ++ "/ws")%string /\
  (forall r o, ends_with_slash r = false ->
               wsUrl ("http" ++ r) o = "ws" ++ r ++ "/ws")%string /\
  (forall o, wsUrl "" o = replace_leading_http o ++ "/ws")%string /\
  (forall o, wsUrl (BACKEND_URL_of None) o = wsUrl "" o) /\
  (forall o, wsUrl "/" o = wsUrl "" o) /\
  (forall b o, String.eqb b "" = false -> ends_with_slash b = false ->
               wsUrl b o = replace_leading_http b ++ "/ws")%string /\
  (forall b o, String.eqb b "" = false ->
               wsUrl (b ++ "/") o = replace_leading_http b ++ "/ws")%string /\
  (forall u, BACKEND_URL_of (Some u) = u) /\
  BACKEND_URL_of None = ""%string /\
  (forall u o, String.eqb u "" = false -> ends_with_slash u = false ->
     wsUrl (BACKEND_URL_of (Some (u ++ "/"))) o
     = wsUrl (BACKEND_URL_of (Some u)) o)%string /\
  (forall st, reachable st ->
     Forall
       (fun s => url s = wsUrl (BACKEND_URL_of VITE_BACKEND_URL) origin)
       (sockets st)).
Proof.
  split; [exact replace_trailing_slash_app|].
  split; [exact replace_trailing_slash_id|].
  split; [exact replace_leading_http_prefix|].
  split; [intros r; exact (replace_leading_http_prefix ("s" ++ r))|].
  split; [exact replace_leading_http_other|].
  split.
  { intros r o. unfold wsUrl.
    change ("http" ++ r ++ "/")%string with (("http" ++ r) ++ "/")%string.
    rewrite replace_trailing_slash_app, http_nonempty.
    now rewrite replace_leading_http_prefix. }
  split.
  { intros r o Hr. unfold wsUrl.
    rewrite replace_trailing_slash_id by now apply ends_with_slash_http.
    rewrite http_nonempty. now rewrite replace_leading_http_prefix. }
  split; [reflexivity|]. split; [reflexivity|]. split; [reflexivity|].
  assert (Hstrip : forall b o, String.eqb b "" = false ->
            (wsUrl (b ++ "/") o = replace_leading_http b ++ "/ws")%string).
  { intros b o Hb. unfold wsUrl.
    rewrite replace_trailing_slash_app. now rewrite Hb. }
  assert (Hkeep : forall b o, String.eqb b "" = false ->
            ends_with_slash b = false ->
            (wsUrl b o = replace_leading_http b ++ "/ws")%string).
  { intros b o Hb Hs. unfold wsUrl.
    rewrite replace_trailing_slash_id by exact Hs. now rewrite Hb. }
  split; [exact Hkeep|]. split; [exact Hstrip|].
  split; [reflexivity|]. split; [reflexivity|].
  split.
  { intros u o Hu Hs. cbn [BACKEND_URL_of].
    now rewrite (Hstrip u o Hu), (Hkeep u o Hu Hs). }
  intros st [evs ->]. apply urls_run. constructor.
Qed.

(** ** Inbound messages *)

Lemma accepts_spec (data : json) : accepts data = true <-> accepted_kind data.
Proof.
  unfold accepts, accepted_kind.
  destruct (get_type data) as [[ | b | m e | k | items | fs ]|];
    try (split; [discriminate | intros [H|H]; discriminate]).
  rewrite orb_true_iff, !String.eqb_eq.
  split; (intros [H|H]; [left | right]); congruence.
Qed.

Lemma onmessage_admitted (evt_data : payload) (st : State) :
  onmessage evt_data st
  = match admitted evt_data with
    | Some data => setMessages (messages st ++ [data]) st
    | None => st
    end.
Proof.
  pose proof (onmessage_cases evt_data st) as Hc. unfold admitted.
  destruct (JSON_parse (ToString evt_data)) as [data|e]; [|exact Hc].
  destruct Hc as [[Ha ->]|[Hn ->]].
  - apply accepts_spec in Ha. now rewrite Ha.
  - destruct (accepts data) eqn:Ha; [|reflexivity].
    apply accepts_spec in Ha. contradiction.
Qed.

Lemma onmessage_sequence (frames : list payload) (st : State) :
  messages (fold_left (fun s p => onmessage p s) frames st)
  = messages st ++ omap admitted frames.
Proof.
  revert st. induction frames as [|p frames IH]; intros st; simpl.
  - now rewrite app_nil_r.
  - rewrite IH, onmessage_admitted.
    destruct (admitted p) as [data|]; simpl; [|reflexivity].
    now rewrite <- app_assoc.
Qed.

(** C4, as the code has it.  A payload enters the message sequence
    exactly when [JSON.parse] accepts it and the [type] of the parsed value
    is ["message"] or ["system"]; the handler then appends the parsed value
    and changes nothing else.  Every other payload, and with it every
    binary frame (whose string form is not JSON), leaves the whole state as
    it was: no status, no attempt count, no timeout changes.  The body is
    not looked at: an object of an accepted kind is appended whatever its
    [text] is, a string or not, present or not.  A run of frames leaves the
    admitted ones in the sequence in their order of arrival. *)
Theorem inbound_admission (e1 e2 : exn) (evt_data : payload) (st : State) :
  JSON_parse "[object Blob]" = Throw e1 ->
  JSON_parse "[object ArrayBuffer]" = Throw e2 ->
  ((exists data, JSON_parse (ToString evt_data) = Normal data /\
                 accepted_kind data /\
                 onmessage evt_data st
                 = setMessages (messages st ++ [data]) st) \/
   ((forall data, JSON_parse (ToString evt_data) = Normal data ->
                  ~ accepted_kind data) /\
    onmessage evt_data st = st)) /\
  onmessage BlobData st = st /\
  onmessage ArrayBufferData st = st /\
  (let st' := onmessage evt_data st in
   status st' = status st /\ attempt st' = attempt st /\
   timers st' = timers st /\ wsRef st' = wsRef st /\
   retryTimeoutRef st' = retryTimeoutRef st /\
   manualCloseRef st' = manualCloseRef st /\
   sockets st' = sockets st /\ input st' = input st) /\
  (forall fields kind,
     JSON_parse (ToString evt_data) = Normal (JObj fields) ->
     assoc "type" fields = Some (JStr kind) ->
     kind = "message"%string \/ kind = "system"%string ->
     onmessage evt_data st
     = setMessages (messages st ++ [JObj fields]) st) /\
  (forall frames,
     messages (fold_left (fun s p => onmessage p s) frames st)
     = messages st ++ omap admitted frames).
Proof.
  intros Hblob Hbuf.
  split.
  { pose proof (onmessage_cases evt_data st) as Hc.
    destruct (JSON_parse (ToString evt_data)) as [data|e].
    - destruct Hc as [[Ha Heq]|[Hn Heq]].
      + left. now exists data.
      + right. split; [|exact Heq]. intros d [= <-]. exact Hn.
    - right. split; [|exact Hc]. intros d [=]. }
  split.
  { pose proof (onmessage_cases BlobData st) as Hc. simpl in Hc.
    now rewrite Hblob in Hc. }
  split.
  { pose proof (onmessage_cases ArrayBufferData st) as Hc. simpl in Hc.
    now rewrite Hbuf in Hc. }
  split.
  { rewrite onmessage_admitted. destruct (admitted evt_data); simpl; fields. }
  split.
  { intros fs kind Hp Ht Hk.
    pose proof (onmessage_cases evt_data st) as Hc. rewrite Hp in Hc.
    destruct Hc as [[_ Heq]|[Hn _]]; [exact Heq|].
    exfalso. apply Hn. unfold accepted_kind. simpl. rewrite Ht.
    destruct Hk as [->| ->]; [now left | now right]. }
  intros frames. apply onmessage_sequence.
Qed.

(** ** Events of any handle *)

(** The handle whose state the browser updates before the handler runs
    plays no role in what the handler does. *)
Lemma onopen_any_handle (h : nat) (st : State) :
  let st' := deliver (WsOpen h) st in
  observable st' = ("connected"%string, 0, messages st, timers st) /\
  wsRef st' = wsRef st /\ retryTimeoutRef st' = retryTimeoutRef st /\
  manualCloseRef st' = manualCloseRef st.
Proof.
  destruct (set_readyState_other h OPEN st)
    as (Hm & _ & _ & _ & Hw & Hr & Hman & Ht & _).
  unfold observable. simpl. rewrite Hm, Ht. fields.
Qed.

Lemma onclose_any_handle (h : nat) (rnd : Q) (st : State) :
  let st' := deliver (WsClose h rnd) st in
  observable st' = observable (onclose rnd st) /\
  wsRef st' = None /\
  retryTimeoutRef st' = retryTimeoutRef (onclose rnd st) /\
  manualCloseRef st' = manualCloseRef st.
Proof.
  cbn [deliver]. unfold set_readyState.
  destruct (sockets st !! h) as [s|].
  - unfold onclose, observable, clear_retryTimeout. simpl.
    destruct (manualCloseRef st) eqn:Hm; simpl; [fields|].
    destruct (retryTimeoutRef st) as [i|]; simpl; [|fields].
    destruct (negb (i =? 0)); simpl; fields.
  - unfold onclose, observable, clear_retryTimeout. simpl.
    destruct (manualCloseRef st) eqn:Hm; simpl; [fields|].
    destruct (retryTimeoutRef st) as [i|]; simpl; [|fields].
    destruct (negb (i =? 0)); simpl; fields.
Qed.

(** C1, as the code has it.  No handler looks at the handle that fired: an
    open, message, error or close event has the same effect on the status,
    the attempt count, the message sequence, the pending timeouts and the
    refs whichever socket [h] fires it, the current one or a superseded
    one.  An open sets the status to connected and the attempt count to 0;
    an error sets the status to error; an admitted message is appended; a
    close clears the current-handle ref and, outside of teardown, sets the
    status to disconnected, adds 1 to the attempt count and schedules a
    retry. *)
Theorem handlers_ignore_firing_handle (st : State) (h h' : nat) (ev : Event) :
  is_socket_event ev = true ->
  (let a := deliver (fired_by h ev) st in
   let b := deliver (fired_by h' ev) st in
   observable a = observable b /\ wsRef a = wsRef b /\
   retryTimeoutRef a = retryTimeoutRef b /\
   manualCloseRef a = manualCloseRef b) /\
  (status (deliver (WsOpen h) st) = "connected"%string /\
   attempt (deliver (WsOpen h) st) = 0) /\
  status (deliver (WsError h) st) = "error"%string /\
  (forall evt_data data,
     admitted evt_data = Some data ->
     messages (deliver (WsMessage h evt_data) st) = messages st ++ [data]) /\
  (forall rnd, manualCloseRef st = false ->
     let c := deliver (WsClose h rnd) st in
     wsRef c = None /\ status c = "disconnected"%string /\
     attempt c = attempt st + 1 /\
     last (timers c) = Some (next_timer st, delay (attempt st) rnd)) /\
  (forall rnd, wsRef (deliver (WsClose h rnd) st) = None).
Proof.
  intros Hev. split.
  { destruct ev as [ctor| |id ctor|k|k d|k|k rnd|k|v|]; try discriminate;
      cbn [fired_by]; cbv zeta.
    - destruct (onopen_any_handle h st) as (-> & -> & -> & ->).
      destruct (onopen_any_handle h' st) as (-> & -> & -> & ->). fields.
    - cbn [deliver]. fields.
    - cbn [deliver]. fields.
    - destruct (onclose_any_handle h rnd st) as (-> & -> & -> & ->).
      destruct (onclose_any_handle h' rnd st) as (-> & -> & -> & ->). fields. }
  split; [split; reflexivity|]. split; [reflexivity|]. split.
  { intros evt_data data Ha. cbn [deliver].
    now rewrite onmessage_admitted, Ha. }
  split;
    [|intros rnd; now destruct (onclose_any_handle h rnd st) as (_ & Hw & _)].
  intros rnd Hm c.
  destruct (onclose_any_handle h rnd st) as (Hobs & Hw & _). fold c in Hobs, Hw.
  destruct (onclose_retry rnd st Hm) as (Hs & Ha & _ & _ & Ht & _).
  unfold observable in Hobs. injection Hobs as Hs' Ha' _ Ht'.
  rewrite Hs', Ha', Ht', Hs, Ha, Ht, last_snoc. fields.
Qed.

(** ** After the cleanup *)

Lemma clear_retryTimeout_nil (st : State) :
  timers st = [] -> timers (clear_retryTimeout st) = [].
Proof.
  intros H. unfold clear_retryTimeout.
  destruct (retryTimeoutRef st) as [i|]; [|exact H].
  destruct (ref_truthy (Some i)); [|exact H].
  simpl. now rewrite H.
Qed.

Lemma torn_down_deliver (ev : Event) (st : State) :
  is_effect_run ev = false ->
  manualCloseRef st = true -> timers st = [] ->
  let st' := step st ev in
  manualCloseRef st' = true /\ timers st' = [].
Proof.
  intros Hev Hm Ht. unfold step.
  destruct (fires st ev) eqn:Hf; [|now split].
  destruct ev as [ctor| |id ctor|h|h d|h|h rnd|h|v|];
    try discriminate; cbn [deliver].
  - destruct (cleanup_other st) as (_ & _ & _ & _ & _ & _ & H1 & H2 & _).
    cbv zeta. rewrite H1, H2. split; [reflexivity|].
    now apply clear_retryTimeout_nil.
  - simpl in Hf. now rewrite Ht in Hf.
  - destruct (set_readyState_other h OPEN st)
      as (_ & _ & _ & _ & _ & _ & H1 & H2 & _).
    simpl. now rewrite H1, H2.
  - cbv zeta. rewrite onmessage_admitted.
    destruct (admitted d); simpl; now split.
  - simpl. now split.
  - destruct (set_readyState_other h CLOSED st)
      as (_ & _ & _ & _ & _ & _ & H1 & H2 & _).
    cbv zeta. rewrite onclose_manual by congruence. simpl.
    now rewrite H1, H2.
  - destruct (set_readyState_other h CLOSING st)
      as (_ & _ & _ & _ & _ & _ & H1 & H2 & _).
    cbv zeta. now rewrite H1, H2.
  - simpl. now split.
  - destruct (send_other st) as (st' & -> & _ & _ & _ & _ & _ & H1 & H2 & _).
    cbv zeta. now rewrite H1, H2.
Qed.

Lemma torn_down_run (evs : list Event) (st : State) :
  forallb (fun ev => negb (is_effect_run ev)) evs = true ->
  manualCloseRef st = true -> timers st = [] ->
  manualCloseRef (run evs st) = true /\ timers (run evs st) = [].
Proof.
  revert st. induction evs as [|ev evs IH]; intros st Hevs Hm Ht; simpl.
  - now split.
  - simpl in Hevs. apply andb_true_iff in Hevs as [Hev Hevs].
    apply negb_true_iff in Hev.
    destruct (torn_down_deliver ev st Hev Hm Ht) as [Hm' Ht'].
    now apply IH.
Qed.

Lemma cleanup_sockets (st : State) :
  (current_readyState st <> Some OPEN -> sockets (cleanup st) = sockets st) /\
  (forall ws, wsRef st = Some ws -> readyState_of ws st = Some OPEN ->
              readyState_of ws (cleanup st) = Some CLOSING).
Proof.
  unfold cleanup.
  set (st1 := clear_retryTimeout (set_manualCloseRef true st)).
  assert (H1 : wsRef st1 = wsRef st /\ sockets st1 = sockets st).
  { subst st1.
    destruct (clear_retryTimeout_other (set_manualCloseRef true st))
      as (_ & _ & _ & _ & Hw & _ & _ & Hs & _).
    split; [exact Hw | exact Hs]. }
  destruct H1 as [Hw Hs]. clearbody st1.
  assert (Hc : current_readyState st1 = current_readyState st).
  { unfold current_readyState, readyState_of. now rewrite Hw, Hs. }
  split.
  - intros Hn. destruct (wsRef st1) as [ws|]; [|exact Hs].
    rewrite bool_decide_eq_false_2; [exact Hs|]. now rewrite Hc.
  - intros ws Hws Hopen. rewrite Hw, Hws.
    assert (Hopen1 : readyState_of ws st1 = Some OPEN).
    { unfold readyState_of. now rewrite Hs. }
    rewrite bool_decide_eq_true_2.
    2:{ rewrite Hc. unfold current_readyState. now rewrite Hws. }
    unfold WebSocket_close. rewrite Hopen1. simpl.
    unfold set_readyState, readyState_of in *.
    destruct (sockets st1 !! ws) as [s|] eqn:E; [|discriminate].
    simpl. rewrite list_lookup_insert_eq; [reflexivity|].
    exact (lookup_lt_Some _ _ _ E).
Qed.

(** C2, as the code has it.  The cleanup closes the socket [wsRef] holds
    only when it is open, and leaves a connecting one alone.  After the
    cleanup, and until the effect runs again, whatever events arrive: the
    teardown flag stays set, no timeout is pending, so none fires, and a
    close event changes neither the status nor the attempt count nor the
    messages and schedules no retry; it clears [wsRef].  Open and error
    events are not
    ignored: a socket left connecting by the cleanup still publishes
    connected, with the attempt count reset, when it opens, and a socket
    that reports an error still publishes error. *)
Theorem after_cleanup (st : State) (evs : list Event) :
  reachable st ->
  forallb (fun ev => negb (is_effect_run ev)) evs = true ->
  let st' := run evs (cleanup st) in
  (current_readyState st <> Some OPEN -> sockets (cleanup st) = sockets st) /\
  (forall ws, wsRef st = Some ws -> readyState_of ws st = Some OPEN ->
              readyState_of ws (cleanup st) = Some CLOSING) /\
  manualCloseRef st' = true /\
  timers st' = [] /\
  (forall id ctor, fires st' (TimerFire id ctor) = false) /\
  (forall h rnd, observable (step st' (WsClose h rnd)) = observable st') /\
  (forall h, fires st' (WsOpen h) = true ->
     status (step st' (WsOpen h)) = "connected"%string /\
     attempt (step st' (WsOpen h)) = 0) /\
  (forall h, fires st' (WsError h) = true ->
     status (step st' (WsError h)) = "error"%string) /\
  (forall h rnd, fires st' (WsClose h rnd) = true ->
     wsRef (step st' (WsClose h rnd)) = None).
Proof.
  intros Hr Hevs st'.
  pose proof (reachable_timers_inv st Hr) as Hinv.
  destruct (cleanup_other st) as (_ & _ & _ & _ & _ & _ & Hm0 & Ht0 & _).
  rewrite clear_retryTimeout_timers in Ht0 by exact Hinv.
  destruct (torn_down_run evs (cleanup st) Hevs Hm0 Ht0) as [Hm Ht].
  fold st' in Hm, Ht.
  split; [exact (proj1 (cleanup_sockets st))|].
  split; [exact (proj2 (cleanup_sockets st))|].
  split; [exact Hm|]. split; [exact Ht|].
  split; [intros id ctor; simpl; now rewrite Ht|].
  split.
  { intros h rnd. unfold step.
    destruct (fires st' (WsClose h rnd)); [|reflexivity].
    destruct (onclose_any_handle h rnd st') as (-> & _).
    now rewrite onclose_manual. }
  split; [intros h Hf; unfold step; rewrite Hf; split; reflexivity|].
  split; [intros h Hf; unfold step; rewrite Hf; reflexivity|].
  intros h rnd Hf. unfold step. rewrite Hf.
  now destruct (onclose_any_handle h rnd st') as (_ & Hw & _).
Qed.

(** ** Sending *)

Lemma transport_calls_insert (st : State) (ws : nat) (s : Socket)
    (frame : string) :
  sockets st !! ws = Some s ->
  exists before after,
    transport_calls st = before ++ after /\
    transport_calls
      (set_sockets
         (<[ws := mkSocket (url s) (readyState s) (outbox s ++ [frame])]>
            (sockets st)) st)
    = before ++ frame :: after.
Proof.
  intros E. unfold transport_calls. simpl.
  exists (concat (map outbox (take ws (sockets st))) ++ outbox s),
         (concat (map outbox (drop (S ws) (sockets st)))).
  pose proof (lookup_lt_Some _ _ _ E) as Hlt.
  rewrite insert_take_drop by exact Hlt.
  rewrite <- (take_drop_middle (sockets st) ws s E) at 1.
  rewrite !map_app, !concat_app. simpl.
  rewrite <- !app_assoc. split; reflexivity.
Qed.

(** C5, as the code has it.  [send] takes the text from the input field and
    guards on the socket [wsRef] holds, not on the status.  It never
    throws.  When the input is empty after trimming, or [wsRef] holds no
    socket, or that socket is not OPEN, it hands nothing to any transport
    and leaves the state as it was.  Otherwise it hands exactly one frame,
    the serialization of [{type: "message", text: <trimmed input>}], to
    that socket, and clears the input.  Empty and all-blank inputs are
    rejected, white space being what [trim] strips: the white space and
    the line terminators of ECMAScript, not only the ASCII ones. *)
Theorem send_guard (st : State) :
  let text := trim (input st) in
  let frame :=
    JSON_stringify
      (JObj [("type", JStr "message"); ("text", JStr text)]%string) in
  (exists st', send st = Normal st') /\
  (text = ""%string \/ current_readyState st <> Some OPEN ->
     send st = Normal st) /\
  (text <> ""%string -> current_readyState st = Some OPEN ->
     exists ws s st',
       wsRef st = Some ws /\ sockets st !! ws = Some s /\
       send st = Normal st' /\
       input st' = ""%string /\
       sockets st'
       = <[ws := mkSocket (url s) OPEN (outbox s ++ [frame])]> (sockets st) /\
       observable st' = observable st /\
       exists before after,
         transport_calls st = before ++ after /\
         transport_calls st' = before ++ frame :: after) /\
  (input st = ""%string \/ input st = "   "%string -> send st = Normal st) /\
  (blank (input st) = true -> send st = Normal st).
Proof.
  intros text frame.
  assert (Hrej : text = ""%string \/ current_readyState st <> Some OPEN ->
                 send st = Normal st).
  { intros H. unfold send. fold text.
    destruct (String.eqb_spec text "") as [_|Hne]; [reflexivity|]. simpl.
    destruct H as [H|H]; [contradiction|].
    destruct (wsRef st) as [ws|] eqn:Ews; simpl; [|reflexivity].
    rewrite bool_decide_eq_false_2; [reflexivity|exact H]. }
  split; [destruct (send_other st) as (st' & Hs & _); now exists st'|].
  split; [exact Hrej|]. split.
  - intros Hne Hopen. unfold current_readyState in Hopen.
    destruct (wsRef st) as [ws|] eqn:Ews; simpl in Hopen; [|discriminate].
    unfold readyState_of in Hopen.
    destruct (sockets st !! ws) as [s|] eqn:E; simpl in Hopen; [|discriminate].
    injection Hopen as Hopen.
    exists ws, s. eexists. split; [reflexivity|]. split; [exact E|].
    split.
    { unfold send. fold text. fold frame.
      destruct (String.eqb_spec text "") as [Heq|_]; [contradiction|]. simpl.
      unfold current_readyState. rewrite Ews. simpl.
      unfold readyState_of. rewrite E. simpl. rewrite Hopen. simpl.
      unfold WebSocket_send. rewrite E, Hopen. simpl. reflexivity. }
    simpl. split; [reflexivity|]. split; [reflexivity|].
    split; [reflexivity|].
    destruct (transport_calls_insert st ws s frame E) as (b & a & H1 & H2).
    exists b, a. split; [exact H1|]. rewrite <- Hopen. exact H2.
  - split.
    + intros [H|H]; apply Hrej; left; unfold text; now rewrite H.
    + intros H. apply Hrej. left. unfold text, trim.
      unfold blank in H. apply String.eqb_eq in H. now rewrite H.
Qed.

(** * The rest of the component *)

(** ** Reachable states *)

Lemma run_invariant (P : State -> Prop) :
  (forall st ev, P st -> P (step st ev)) ->
  forall evs st, P st -> P (run evs st).
Proof.
  intros Hstep evs. induction evs as [|ev evs IH]; intros st H; simpl.
  - exact H.
  - apply IH, Hstep, H.
Qed.

Lemma reachable_invariant (P : State -> Prop) :
  P initial ->
  (forall st ev, P st -> P (step st ev)) ->
  forall st, reachable st -> P st.
Proof.
  intros H0 Hstep st [evs ->]. now apply run_invariant.
Qed.

Lemma run_app (evs1 evs2 : list Event) (st : State) :
  run (evs1 ++ evs2) st = run evs2 (run evs1 st).
Proof. unfold run. apply fold_left_app. Qed.

Lemma reachable_step (st : State) (ev : Event) :
  reachable st -> reachable (step st ev).
Proof.
  intros [evs ->]. exists (evs ++ [ev]). now rewrite run_app.
Qed.

(** ** Status and attempt count *)

Lemma connect_status (ctor : option exn) (st : State) :
  (ctor = None /\ status (connect ctor st) = status st) \/
  (ctor <> None /\ status (connect ctor st) = "error"%string).
Proof.
  destruct ctor as [e|].
  - right. split; [discriminate|].
    now destruct (connect_failed e st) as (H & _).
  - left. split; reflexivity.
Qed.

(** What one event does to the status and the attempt count. *)
Lemma status_attempt_deliver (ev : Event) (st : State) :
  let st' := deliver ev st in
  (status st' = status st /\ attempt st' = attempt st) \/
  (status st' = "error"%string /\ attempt st' = attempt st) \/
  (is_effect_run ev = true /\ status st' = "connecting"%string /\
   attempt st' = attempt st) \/
  (status st' = "connected"%string /\ attempt st' = 0) \/
  (status st' = "disconnected"%string /\ attempt st' = attempt st + 1).
Proof.
  destruct ev as [ctor| |id ctor|h|h d|h|h rnd|h|v|]; cbn [deliver]; cbv zeta.
  - unfold effect. rewrite connect_attempt.
    destruct (connect_status ctor
                (setStatus "connecting" (set_manualCloseRef false st)))
      as [[_ ->]|[_ ->]].
    + right. right. left. repeat split.
    + right. left. split; reflexivity.
  - left. destruct (cleanup_other st) as (_ & _ & Hs & Ha & _). now split.
  - rewrite connect_attempt.
    destruct (connect_status ctor (expire id st)) as [[_ ->]|[_ ->]].
    + left. split; reflexivity.
    + right. left. split; reflexivity.
  - right. right. right. left. split; reflexivity.
  - left. rewrite onmessage_admitted. destruct (admitted d); now split.
  - right. left. split; reflexivity.
  - destruct (set_readyState_other h CLOSED st)
      as (_ & _ & Hs & Ha & _ & _ & Hm & _).
    destruct (manualCloseRef st) eqn:Hman.
    + left. rewrite onclose_manual by congruence. simpl. now split.
    + right. right. right. right.
      destruct (onclose_retry rnd (set_readyState h CLOSED st))
        as (H1 & H2 & _); [congruence|].
      rewrite H1, H2, Ha. split; reflexivity.
  - left. destruct (set_readyState_other h CLOSING st)
      as (_ & _ & Hs & Ha & _). now split.
  - left. split; reflexivity.
  - left. destruct (send_other st) as (st' & -> & _ & Hs & Ha & _).
    now split.
Qed.

Lemma statusColor_defined (s : string) :
  s = "connecting"%string \/ s = "connected"%string \/
  s = "disconnected"%string \/ s = "error"%string ->
  is_Some (statusColor_table !! s).
Proof.
  intros [-> | [-> | [-> | ->]]]; eexists; vm_compute; reflexivity.
Qed.

(** X1. The status only ever holds one of the four strings the component
    writes, so the lookup of the indicator's class in [statusColor] never
    yields [undefined]. *)
Theorem status_domain (st : State) :
  reachable st ->
  (status st = "connecting"%string \/ status st = "connected"%string \/
   status st = "disconnected"%string \/ status st = "error"%string) /\
  is_Some (statusColor st).
Proof.
  intros Hr.
  assert (H : status st = "connecting"%string \/
              status st = "connected"%string \/
              status st = "disconnected"%string \/
              status st = "error"%string).
  { revert st Hr. apply reachable_invariant; [now left|].
    intros st ev IH. unfold step. destruct (fires st ev); [|exact IH].
    destruct (status_attempt_deliver ev st)
      as [[-> _]|[[-> _]|[(_ & -> & _)|[[-> _]|[-> _]]]]]; tauto. }
  split; [exact H|]. now apply statusColor_defined.
Qed.

(** X2. Whenever the status is connected the attempt count is 0, so the
    header shows the reconnecting notice exactly when the attempt count is
    positive: the test on the status in the notice's condition never
    decides. *)
Theorem connected_means_no_attempts (st : State) :
  reachable st ->
  (status st = "connected"%string -> attempt st = 0) /\
  shows_reconnecting st = (0 <? attempt st).
Proof.
  intros Hr.
  assert (H : status st = "connected"%string -> attempt st = 0).
  { revert st Hr.
    apply (reachable_invariant
             (fun st => status st = "connected"%string -> attempt st = 0));
      [discriminate|].
    intros st ev IH. unfold step. destruct (fires st ev); [|exact IH].
    destruct (status_attempt_deliver ev st)
      as [[-> ->]|[[-> _]|[(_ & -> & _)|[[_ ->]|[-> _]]]]];
      try exact IH; try discriminate. reflexivity. }
  split; [exact H|]. unfold shows_reconnecting.
  destruct (String.eqb_spec (status st) "connected") as [Hc|_]; simpl.
  - rewrite (H Hc). reflexivity.
  - apply andb_true_r.
Qed.

(** X8. Only the effect sets the status to connecting: no other event ever
    brings it there, and a retry that constructs a new socket leaves the
    status as the failure left it until that socket opens. *)
Theorem connecting_only_from_effect (st : State) (ev : Event) :
  is_effect_run ev = false ->
  (status (step st ev) = "connecting"%string ->
   status st = "connecting"%string) /\
  (forall id, status (deliver (TimerFire id None) st) = status st).
Proof.
  intros Hev. split.
  - unfold step. destruct (fires st ev); [|tauto].
    destruct (status_attempt_deliver ev st)
      as [[-> _]|[[-> _]|[(He & _)|[[-> _]|[-> _]]]]];
      try tauto; try discriminate. congruence.
  - intros id. reflexivity.
Qed.

(** ** The message list *)

Lemma messages_deliver (ev : Event) (st : State) :
  messages (deliver ev st) = messages st \/
  exists h evt_data data,
    ev = WsMessage h evt_data /\ admitted evt_data = Some data /\
    messages (deliver ev st) = messages st ++ [data].
Proof.
  destruct ev as [ctor| |id ctor|h|h d|h|h rnd|h|v|]; cbn [deliver].
  - left. unfold effect. destruct ctor as [e|]; [|reflexivity].
    now destruct (connect_failed e
                    (setStatus "connecting" (set_manualCloseRef false st)))
      as (_ & _ & _ & _ & _ & _ & -> & _).
  - left. now destruct (cleanup_other st) as (-> & _).
  - left. destruct ctor as [e|]; [|reflexivity].
    now destruct (connect_failed e (expire id st))
      as (_ & _ & _ & _ & _ & _ & -> & _).
  - left. simpl. now destruct (set_readyState_other h OPEN st) as (-> & _).
  - rewrite onmessage_admitted. destruct (admitted d) as [data|] eqn:E.
    + right. exists h, d, data. split; [reflexivity|]. split; [exact E|].
      reflexivity.
    + now left.
  - now left.
  - left. destruct (set_readyState_other h CLOSED st)
      as (Hm & _ & _ & _ & _ & _ & Hman & _).
    destruct (manualCloseRef st) eqn:E.
    + rewrite onclose_manual by congruence. exact Hm.
    + destruct (onclose_retry rnd (set_readyState h CLOSED st))
        as (_ & _ & _ & _ & _ & _ & -> & _); [congruence | exact Hm].
  - left. now destruct (set_readyState_other h CLOSING st) as (-> & _).
  - now left.
  - left. now destruct (send_other st) as (st' & -> & -> & _).
Qed.

Lemma admitted_accepts (evt_data : payload) (data : json) :
  admitted evt_data = Some data -> accepts data = true.
Proof.
  unfold admitted.
  destruct (JSON_parse (ToString evt_data)) as [d|e]; [|discriminate].
  destruct (accepts d) eqn:E; [|discriminate]. now intros [= <-].
Qed.

(** X3. The message sequence only grows: no event removes, reorders or
    rewrites a message already shown, so once a message has arrived the
    empty-list placeholder never comes back. *)
Theorem messages_only_grow (st : State) (evs : list Event) :
  messages st `prefix_of` messages (run evs st) /\
  (shows_placeholder (run evs st) = true -> shows_placeholder st = true).
Proof.
  assert (H : messages st `prefix_of` messages (run evs st)).
  { revert st. induction evs as [|ev evs IH]; intros st; simpl.
    - reflexivity.
    - etransitivity; [|apply IH]. unfold step.
      destruct (fires st ev); [|reflexivity].
      destruct (messages_deliver ev st) as [->|(h & d & data & _ & _ & ->)].
      + reflexivity.
      + now apply prefix_app_r. }
  split; [exact H|]. unfold shows_placeholder.
  intros Hp. apply Nat.eqb_eq in Hp. apply Nat.eqb_eq.
  apply prefix_length in H. lia.
Qed.

(** X4. Every message in the list of a reachable state carries one of the
    two accepted kinds, so the list's two-way choice of class is exact: a
    message gets the notice class when its type is system and the bubble
    class when its type is message, and nothing else is ever rendered.
    The text plays no part in admission: an object of an accepted kind is
    appended whatever its other fields are. *)
Theorem messages_are_accepted (st : State) :
  reachable st ->
  Forall
    (fun m =>
       (get_type m = Some (JStr "system") /\
        message_className m = "text-xs text-slate-400 text-center"%string) \/
       (get_type m = Some (JStr "message") /\
        message_className m
        = "max-w-[80%] rounded-xl px-4 py-2 bg-blue-500/10 border border-blue-400/20"%string))
    (messages st) /\
  (forall evt_data fields kind,
     JSON_parse (ToString evt_data) = Normal (JObj fields) ->
     assoc "type" fields = Some (JStr kind) ->
     kind = "message"%string \/ kind = "system"%string ->
     messages (onmessage evt_data st) = messages st ++ [JObj fields]).
Proof.
  intros Hr. split.
  - revert st Hr. apply reachable_invariant; [constructor|].
    intros st ev IH. unfold step. destruct (fires st ev); [|exact IH].
    destruct (messages_deliver ev st) as [->|(h & d & data & _ & Ha & ->)];
      [exact IH|].
    apply Forall_app. split; [exact IH|]. constructor; [|constructor].
    apply admitted_accepts, accepts_spec in Ha. unfold message_className.
    destruct Ha as [Ha|Ha]; rewrite Ha; [right | left]; split; reflexivity.
  - intros evt_data fields kind Hp Ht Hk.
    pose proof (onmessage_cases evt_data st) as Hc. rewrite Hp in Hc.
    destruct Hc as [[_ ->]|[Hn _]]; [reflexivity|].
    exfalso. apply Hn. unfold accepted_kind. simpl. rewrite Ht.
    destruct Hk as [->| ->]; [now left | now right].
Qed.

(** ** The socket store *)

Lemma set_readyState_sockets (h : nat) (v : Z) (st : State) :
  (sockets st !! h = None /\ set_readyState h v st = st) \/
  (exists s, sockets st !! h = Some s /\
             sockets (set_readyState h v st)
             = <[h := mkSocket (url s) v (outbox s)]> (sockets st)).
Proof.
  unfold set_readyState. destruct (sockets st !! h) as [s|].
  - right. now exists s.
  - now left.
Qed.

Lemma cleanup_sockets_cases (st : State) :
  sockets (cleanup st) = sockets st \/
  (exists h s, wsRef st = Some h /\ sockets st !! h = Some s /\
               readyState s = OPEN /\
               sockets (cleanup st)
               = <[h := mkSocket (url s) CLOSING (outbox s)]> (sockets st)).
Proof.
  destruct (current_readyState st) as [r|] eqn:Er.
  - destruct (Z.eq_dec r OPEN) as [->|Hne].
    + right. unfold current_readyState in Er.
      destruct (wsRef st) as [h|] eqn:Eh; [|discriminate]. simpl in Er.
      unfold readyState_of in Er.
      destruct (sockets st !! h) as [s|] eqn:Es; [|discriminate].
      injection Er as Er. exists h, s. repeat split; try assumption.
      unfold cleanup.
      set (st1 := clear_retryTimeout (set_manualCloseRef true st)).
      assert (H1 : wsRef st1 = wsRef st /\ sockets st1 = sockets st).
      { subst st1.
        destruct (clear_retryTimeout_other (set_manualCloseRef true st))
          as (_ & _ & _ & _ & Hw & _ & _ & Hs & _).
        split; [exact Hw | exact Hs]. }
      destruct H1 as [Hw Hs]. clearbody st1.
      assert (Hc : current_readyState st1 = Some OPEN).
      { unfold current_readyState, readyState_of.
        rewrite Hw, Eh. simpl. rewrite Hs, Es. simpl. now rewrite Er. }
      rewrite Hw, Eh. rewrite bool_decide_eq_true_2 by exact Hc.
      unfold WebSocket_close, readyState_of. rewrite Hs, Es. simpl.
      rewrite Er. simpl. unfold set_readyState.
      assert (E1 : sockets st1 !! h = Some s) by (rewrite Hs; exact Es).
      rewrite E1. simpl. now rewrite Hs.
    + left. apply cleanup_sockets. rewrite Er. congruence.
  - left. apply cleanup_sockets. now rewrite Er.
Qed.

(** [send], by cases: it rejects, or it hands the frame to the open socket
    [wsRef] holds and clears the input. *)
Lemma send_cases (st : State) :
  send st = Normal st \/
  exists ws s,
    wsRef st = Some ws /\ sockets st !! ws = Some s /\
    readyState s = OPEN /\ trim (input st) <> ""%string /\
    send st
    = Normal
        (setInput ""
           (set_sockets
              (<[ws := mkSocket (url s) (readyState s)
                         (outbox s
                          ++ [JSON_stringify (outgoing (trim (input st)))])]>
                 (sockets st)) st)).
Proof.
  unfold send.
  destruct (String.eqb_spec (trim (input st)) "") as [_|Hne];
    [now left|]. simpl.
  destruct (wsRef st) as [ws|] eqn:Ews; simpl; [|now left].
  unfold current_readyState. rewrite Ews. simpl.
  destruct (bool_decide (readyState_of ws st = Some 1)) eqn:Er; simpl;
    [|now left].
  apply bool_decide_eq_true in Er. unfold readyState_of in Er.
  unfold WebSocket_send.
  destruct (sockets st !! ws) as [s|] eqn:Es; simpl in Er; [|discriminate].
  injection Er as Er. right. exists ws, s.
  repeat (split; [first [reflexivity | assumption]|]).
  rewrite Er. reflexivity.
Qed.

Lemma map_insert_same {A B : Type} (f : A -> B) (l : list A) (h : nat)
    (s s' : A) :
  l !! h = Some s -> f s' = f s -> map f (<[h := s']> l) = map f l.
Proof.
  revert h. induction l as [|x l IH]; intros [|h] E Hf; simpl in *;
    try discriminate.
  - injection E as ->. now rewrite Hf.
  - f_equal. now apply IH.
Qed.

Lemma length_filter_insert {A : Type} (p : A -> bool) (l : list A) (h : nat)
    (s s' : A) :
  l !! h = Some s ->
  (length (List.filter p (<[h := s']> l)) + (if p s then 1 else 0)
   = length (List.filter p l) + (if p s' then 1 else 0))%nat.
Proof.
  revert h. induction l as [|x l IH]; intros [|h] E; simpl in *;
    try discriminate.
  - injection E as ->. destruct (p s), (p s'); simpl; lia.
  - specialize (IH h E). destruct (p x); simpl; lia.
Qed.

(** What one event does to the frames handed to the transports. *)
Lemma transport_calls_deliver (ev : Event) (st : State) :
  transport_calls (deliver ev st) = transport_calls st \/
  (ev = Submit /\ trim (input st) <> ""%string /\
   exists before after,
     transport_calls st = before ++ after /\
     transport_calls (deliver ev st)
     = before ++ JSON_stringify (outgoing (trim (input st))) :: after).
Proof.
  unfold transport_calls.
  assert (Hrs : forall h v st0,
             map outbox (sockets (set_readyState h v st0))
             = map outbox (sockets st0)).
  { intros h v st0.
    destruct (set_readyState_sockets h v st0) as [[_ ->]|(s & Es & ->)];
      [reflexivity|]. now apply (map_insert_same outbox _ h s). }
  destruct ev as [ctor| |id ctor|h|h d|h|h rnd|h|v|]; cbn [deliver].
  - left. unfold effect. destruct ctor as [e|].
    + now destruct (connect_failed e
                      (setStatus "connecting" (set_manualCloseRef false st)))
        as (_ & _ & _ & _ & _ & _ & _ & _ & _ & ->).
    + rewrite connect_ok. simpl. rewrite map_app, concat_app. simpl.
      now rewrite app_nil_r.
  - left. destruct (cleanup_sockets_cases st)
      as [->|(h & s & _ & Es & _ & ->)]; [reflexivity|].
    now rewrite (map_insert_same outbox _ h s).
  - left. destruct ctor as [e|].
    + now destruct (connect_failed e (expire id st))
        as (_ & _ & _ & _ & _ & _ & _ & _ & _ & ->).
    + rewrite connect_ok. simpl. rewrite map_app, concat_app. simpl.
      now rewrite app_nil_r.
  - left. simpl. now rewrite Hrs.
  - left. rewrite onmessage_admitted. now destruct (admitted d).
  - now left.
  - left. destruct (manualCloseRef (set_readyState h CLOSED st)) eqn:E.
    + rewrite onclose_manual by exact E. simpl. now rewrite Hrs.
    + destruct (onclose_retry rnd (set_readyState h CLOSED st) E)
        as (_ & _ & _ & _ & _ & _ & _ & _ & _ & ->). now rewrite Hrs.
  - left. now rewrite Hrs.
  - now left.
  - destruct (send_cases st) as [->|(ws & s & _ & Es & _ & Hne & ->)];
      [now left|].
    right. split; [reflexivity|]. split; [exact Hne|].
    exact (transport_calls_insert st ws s _ Es).
Qed.

(** ** Sending *)

Lemma chr_ord (c : ascii) : chr (ord c) = c.
Proof. unfold chr, ord. rewrite Nat2Z.id. apply ascii_nat_embedding. Qed.

Lemma ord_range (c : ascii) : 0 <= ord c < 256.
Proof. unfold ord. pose proof (nat_ascii_bounded c). lia. Qed.

Lemma append_cons (a : ascii) (s w : string) :
  String a s +:+ w = String a (s +:+ w).
Proof. reflexivity. Qed.

Lemma trimStart_eq (s : string) :
  trimStart s = match skip_space s with Some r => trimStart r | None => s end.
Proof.
  unfold skip_space.
  destruct s as [|a [|b [|c s]]]; cbn [trimStart];
    destruct (space_width _) as [|[|[|[|n]]]]; reflexivity.
Qed.

Lemma skip_space_length (s r : string) :
  skip_space s = Some r -> (String.length r < String.length s)%nat.
Proof.
  unfold skip_space.
  destruct s as [|a [|b [|c s]]];
    destruct (space_width _) as [|[|[|[|n]]]]; intros [= <-]; simpl; lia.
Qed.

Lemma trimStart_skip (s : string) : skip_space (trimStart s) = None.
Proof.
  remember (String.length s) as n eqn:Hn.
  revert s Hn. induction (lt_wf n) as [n _ IH]. intros s ->.
  rewrite trimStart_eq. destruct (skip_space s) as [r|] eqn:E; [|exact E].
  exact (IH _ (skip_space_length s r E) r eq_refl).
Qed.

Lemma trimStart_id (s : string) : skip_space s = None <-> trimStart s = s.
Proof.
  split; intros H.
  - rewrite trimStart_eq. now rewrite H.
  - rewrite <- H. apply trimStart_skip.
Qed.

Lemma trimStart_idem (s : string) : trimStart (trimStart s) = trimStart s.
Proof. apply trimStart_id, trimStart_skip. Qed.

Lemma decode_app (s w : string) (x : Z * nat) :
  decode s = Some x -> decode (s +:+ w) = Some x.
Proof.
  intros H.
  destruct s as [|a [|b [|c [|d s]]]];
    cbv beta iota zeta delta [String.append decode] in *;
    repeat case_match; congruence.
Qed.

Lemma skip_space_app (s r w : string) :
  skip_space s = Some r -> skip_space (s +:+ w) = Some (r +:+ w).
Proof.
  unfold skip_space, space_width.
  destruct (decode s) as [[cp n]|] eqn:E.
  - rewrite (decode_app s w _ E).
    destruct s as [|a [|b [|c s]]]; rewrite ?append_cons;
      destruct (is_space cp); destruct n as [|[|[|[|n]]]];
      intros [= <-]; reflexivity.
  - destruct s as [|a [|b [|c s]]]; discriminate.
Qed.

Lemma trimStart_app_blank (x w : string) :
  blank x = true -> trimStart (x +:+ w) = trimStart w.
Proof.
  unfold blank. rewrite String.eqb_eq.
  remember (String.length x) as n eqn:Hn.
  revert x Hn. induction (lt_wf n) as [n _ IH]. intros x -> Hx.
  rewrite trimStart_eq in Hx.
  destruct (skip_space x) as [r|] eqn:E.
  - rewrite (trimStart_eq (x +:+ w)), (skip_space_app x r w E).
    exact (IH _ (skip_space_length x r E) r eq_refl Hx).
  - now subst x.
Qed.

Lemma trimEnd_split (s : string) :
  exists w, s = (trimEnd s +:+ w) /\ blank w = true.
Proof.
  induction s as [|c s (w & Hs & Hw)].
  - now exists ""%string.
  - cbn [trimEnd]. destruct (blank (String c s)) eqn:E.
    + now exists (String c s).
    + exists w. split; [|exact Hw]. now rewrite append_cons, <- Hs.
Qed.

Lemma trimEnd_idem (s : string) : trimEnd (trimEnd s) = trimEnd s.
Proof.
  induction s as [|c s IH]; [reflexivity|].
  cbn [trimEnd]. destruct (blank (String c s)) eqn:E; [reflexivity|].
  cbn [trimEnd]. destruct (blank (String c (trimEnd s))) eqn:E'.
  - exfalso. destruct (trimEnd_split s) as (w & Hs & Hw).
    pose proof (trimStart_app_blank _ w E') as H. rewrite append_cons in H.
    rewrite <- Hs in H. unfold blank in E, Hw.
    rewrite H, Hw in E. discriminate.
  - now rewrite IH.
Qed.

Lemma skip_space_trimEnd (s : string) :
  skip_space s = None -> skip_space (trimEnd s) = None.
Proof.
  intros H. destruct (skip_space (trimEnd s)) as [r|] eqn:E; [|reflexivity].
  destruct (trimEnd_split s) as (w & Hs & _).
  apply (skip_space_app _ _ w) in E. rewrite <- Hs in E. congruence.
Qed.

Lemma trimStart_trim (s : string) : trimStart (trim s) = trim s.
Proof. apply trimStart_id, skip_space_trimEnd, trimStart_skip. Qed.

Lemma trim_idem (s : string) : trim (trim s) = trim s.
Proof.
  unfold trim at 1. rewrite trimStart_trim. unfold trim. apply trimEnd_idem.
Qed.

(** [skip_space] removes the encoding of one code point of [WhiteSpace] or
    [LineTerminator], and nothing else. *)
Lemma skip_space_utf8 (cp : Z) (r : string) :
  In cp (WhiteSpace ++ LineTerminator) ->
  skip_space (utf8 cp +:+ r) = Some r.
Proof.
  intros H. simpl in H.
  repeat (destruct H as [<-|H]; [reflexivity|]). contradiction.
Qed.

Lemma utf8_digits (a b c d : Z) :
  0 <= b < 64 -> 0 <= c < 64 -> 0 <= d < 64 ->
  (a * 64 + b) / 64 = a /\ (a * 64 + b) mod 64 = b /\
  ((a * 64 + b) * 64 + c) / 4096 = a /\
  ((a * 64 + b) * 64 + c) / 64 mod 64 = b /\
  (((a * 64 + b) * 64 + c) * 64 + d) / 262144 = a /\
  (((a * 64 + b) * 64 + c) * 64 + d) / 4096 mod 64 = b.
Proof.
  intros Hb Hc Hd.
  assert (D : forall x y, 0 <= y < 64 -> (x * 64 + y) / 64 = x).
  { intros x y Hy. symmetry. apply (Z.div_unique_pos _ 64 x y); lia. }
  assert (M : forall x y, 0 <= y < 64 -> (x * 64 + y) mod 64 = y).
  { intros x y Hy. symmetry. apply (Z.mod_unique_pos _ 64 x y); lia. }
  assert (D2 : forall x, x / 4096 = x / 64 / 64).
  { intros x. rewrite Z.div_div by lia. reflexivity. }
  assert (D3 : forall x, x / 262144 = x / 64 / 64 / 64).
  { intros x. rewrite !Z.div_div by lia. reflexivity. }
  rewrite D3, !D2, !D, !M by assumption. repeat split; reflexivity.
Qed.

Lemma decode_utf8 (s : string) (cp : Z) (n : nat) :
  decode s = Some (cp, n) ->
  exists r, s = (utf8 cp +:+ r) /\ String.length (utf8 cp) = n.
Proof.
  unfold decode.
  destruct s as [|a s1]; [discriminate|].
  pose proof (ord_range a) as Ha.
  destruct (Z.ltb_spec (ord a) 0x80) as [H1|H1].
  { intros [= <- <-]. exists s1. unfold utf8.
    destruct (Z.ltb_spec (ord a) 0x80); [|lia].
    now rewrite chr_ord. }
  destruct s1 as [|b s2]; [discriminate|].
  pose proof (ord_range b) as Hb.
  unfold continuation.
  destruct (Z.leb_spec 0x80 (ord b)) as [Hb1|Hb1]; [|discriminate].
  destruct (Z.ltb_spec (ord b) 0xC0) as [Hb2|Hb2]; [|discriminate].
  cbn [andb negb].
  assert (Hb' : 0 <= ord b - 0x80 < 64) by lia.
  destruct (Z.ltb_spec (ord a) 0xE0) as [H2|H2].
  { destruct (Z.leb_spec 0xC2 (ord a)) as [H3|H3]; [|discriminate].
    intros [= <- <-]. exists s2. unfold utf8.
    destruct (utf8_digits (ord a - 0xC0) _ 0 0 Hb') as (E1 & E2 & _); [lia..|].
    set (cp := (ord a - 0xC0) * 64 + (ord b - 0x80)) in *.
    destruct (Z.ltb_spec cp 0x80) as [H4|_]; [unfold cp in H4; lia|].
    destruct (Z.ltb_spec cp 0x800) as [_|H4]; [|unfold cp in H4; lia].
    rewrite E1, E2.
    replace (0xC0 + (ord a - 0xC0)) with (ord a) by lia.
    replace (0x80 + (ord b - 0x80)) with (ord b) by lia.
    now rewrite !chr_ord. }
  destruct s2 as [|c s3]; [discriminate|].
  pose proof (ord_range c) as Hc.
  destruct (Z.leb_spec 0x80 (ord c)) as [Hc1|Hc1]; [|discriminate].
  destruct (Z.ltb_spec (ord c) 0xC0) as [Hc2|Hc2]; [|discriminate].
  cbn [andb negb].
  assert (Hc' : 0 <= ord c - 0x80 < 64) by lia.
  destruct (Z.ltb_spec (ord a) 0xF0) as [H3|H3].
  { destruct (utf8_digits (ord a - 0xE0) _ _ 0 Hb' Hc')
      as (_ & _ & E1 & E2 & _); [lia|].
    destruct (utf8_digits ((ord a - 0xE0) * 64 + (ord b - 0x80)) _ 0 0 Hc')
      as (_ & E3 & _); [lia..|].
    set (cp3 := ((ord a - 0xE0) * 64 + (ord b - 0x80)) * 64
                + (ord c - 0x80)) in *.
    destruct (Z.leb_spec 0x800 cp3) as [H4|H4]; [|discriminate].
    intros [= <- <-]. exists s3. unfold utf8.
    destruct (Z.ltb_spec cp3 0x80) as [H5|_]; [lia|].
    destruct (Z.ltb_spec cp3 0x800) as [H5|_]; [lia|].
    destruct (Z.ltb_spec cp3 0x10000) as [_|H5]; [|unfold cp3 in H5; lia].
    rewrite E1, E2, E3.
    replace (0xE0 + (ord a - 0xE0)) with (ord a) by lia.
    replace (0x80 + (ord b - 0x80)) with (ord b) by lia.
    replace (0x80 + (ord c - 0x80)) with (ord c) by lia.
    now rewrite !chr_ord. }
  destruct s3 as [|d s4]; [discriminate|].
  pose proof (ord_range d) as Hd.
  destruct (Z.leb_spec 0x80 (ord d)) as [Hd1|Hd1]; [|discriminate].
  destruct (Z.ltb_spec (ord d) 0xC0) as [Hd2|Hd2]; [|discriminate].
  cbn [andb].
  assert (Hd' : 0 <= ord d - 0x80 < 64) by lia.
  destruct (utf8_digits (ord a - 0xF0) _ _ _ Hb' Hc' Hd')
    as (_ & _ & _ & _ & E1 & E2).
  destruct (utf8_digits ((ord a - 0xF0) * 64 + (ord b - 0x80)) _ _ 0 Hc' Hd')
    as (_ & _ & _ & E3 & _); [lia|].
  destruct (utf8_digits (((ord a - 0xF0) * 64 + (ord b - 0x80)) * 64
                         + (ord c - 0x80)) _ 0 0 Hd')
    as (_ & E4 & _); [lia..|].
  set (cp4 := (((ord a - 0xF0) * 64 + (ord b - 0x80)) * 64 + (ord c - 0x80))
              * 64 + (ord d - 0x80)) in *.
  destruct (Z.leb_spec 0x10000 cp4) as [H4|H4]; [|discriminate].
  destruct (Z.ltb_spec cp4 0x110000) as [H5|H5]; [|discriminate].
  cbn [andb]. intros [= <- <-]. exists s4. unfold utf8.
  destruct (Z.ltb_spec cp4 0x80) as [H6|_]; [lia|].
  destruct (Z.ltb_spec cp4 0x800) as [H6|_]; [lia|].
  destruct (Z.ltb_spec cp4 0x10000) as [H6|_]; [lia|].
  rewrite E1, E2, E3, E4.
  replace (0xF0 + (ord a - 0xF0)) with (ord a) by lia.
  replace (0x80 + (ord b - 0x80)) with (ord b) by lia.
  replace (0x80 + (ord c - 0x80)) with (ord c) by lia.
  replace (0x80 + (ord d - 0x80)) with (ord d) by lia.
  now rewrite !chr_ord.
Qed.

Lemma skip_space_inv (s r : string) :
  skip_space s = Some r ->
  exists cp, In cp (WhiteSpace ++ LineTerminator) /\ s = (utf8 cp +:+ r).
Proof.
  unfold skip_space, space_width.
  destruct (decode s) as [[cp n]|] eqn:E.
  2:{ destruct s as [|a [|b [|c s]]]; discriminate. }
  destruct (is_space cp) eqn:Hsp.
  2:{ destruct s as [|a [|b [|c s]]]; discriminate. }
  intros H. exists cp. split.
  { unfold is_space in Hsp. apply existsb_exists in Hsp as (x & Hin & Hx).
    apply Z.eqb_eq in Hx. now subst x. }
  destruct (decode_utf8 s cp n E) as (r' & Hs & Hn).
  rewrite Hs in H |- *. f_equal.
  unfold utf8 in H, Hn.
  destruct (cp <? 0x80);
    [|destruct (cp <? 0x800); [|destruct (cp <? 0x10000)]];
    cbv beta iota delta [String.length] in Hn; subst n;
    cbv beta iota delta [String.append] in H; congruence.
Qed.

(** X5. Every frame the component has ever handed to a transport is the
    serialization of [{type: "message", text}] for a text that is not
    empty and has no white space at either end: it never sends a blank
    message, another kind of frame, or untrimmed text. *)
Theorem frames_are_trimmed_messages (st : State) :
  reachable st ->
  Forall
    (fun frame =>
       exists text,
         frame = JSON_stringify (outgoing text) /\
         text <> ""%string /\
         trimStart text = text /\ trimEnd text = text)
    (transport_calls st).
Proof.
  revert st. apply reachable_invariant; [constructor|].
  intros st ev IH. unfold step. destruct (fires st ev); [|exact IH].
  destruct (transport_calls_deliver ev st)
    as [->|(_ & Hne & before & after & Hb & ->)]; [exact IH|].
  rewrite Hb in IH. apply Forall_app in IH as [IHb IHa].
  apply Forall_app. split; [exact IHb|]. constructor; [|exact IHa].
  exists (trim (input st)). split; [reflexivity|]. split; [exact Hne|].
  split; [apply trimStart_trim|]. unfold trim. apply trimEnd_idem.
Qed.

(** X6. Submitting twice in a row is submitting once: a successful [send]
    clears the input, so a second click or key press sends nothing and
    changes nothing, and a rejected one leaves everything as it was. *)
Theorem double_submit_sends_once (st : State) :
  step (step st Submit) Submit = step st Submit /\
  (length (transport_calls (step (step st Submit) Submit))
   <= S (length (transport_calls st)))%nat.
Proof.
  unfold step. cbn [fires deliver].
  destruct (send_cases st) as [Hs|(ws & s & Hws & Es & Hr & Hne & Hs)];
    rewrite Hs.
  - rewrite Hs. split; [reflexivity | lia].
  - set (st' := setInput "" _).
    assert (Hrej : send st' = Normal st') by reflexivity.
    rewrite Hrej. split; [reflexivity|].
    destruct (transport_calls_insert st ws s
                (JSON_stringify (outgoing (trim (input st)))) Es)
      as (b & a & Hb & Ha).
    change (transport_calls st') with
      (transport_calls
         (set_sockets
            (<[ws := mkSocket (url s) (readyState s)
                       (outbox s
                        ++ [JSON_stringify (outgoing (trim (input st)))])]>
               (sockets st)) st)).
    rewrite Ha, Hb, !length_app. simpl. lia.
Qed.

(** X7. What is sent comes back as it went: when the input is not blank
    and the current socket is open, [send] puts nothing in the message list
    itself; if the server echoes the frame and [JSON.parse] inverts
    [JSON.stringify] on it, the message list gains exactly the message with
    the trimmed text. *)
Theorem echo_is_displayed (st : State) (ws : nat) :
  wsRef st = Some ws ->
  readyState_of ws st = Some OPEN ->
  trim (input st) <> ""%string ->
  JSON_parse (JSON_stringify (outgoing (trim (input st))))
  = Normal (outgoing (trim (input st))) ->
  let frame := JSON_stringify (outgoing (trim (input st))) in
  let st1 := step st Submit in
  messages st1 = messages st /\
  input st1 = ""%string /\
  (exists s, sockets st1 !! ws = Some s /\ last (outbox s) = Some frame) /\
  fires st1 (WsMessage ws (TextData frame)) = true /\
  messages (step st1 (WsMessage ws (TextData frame)))
  = messages st ++ [outgoing (trim (input st))].
Proof.
  intros Hws Hopen Hne Hrt frame st1.
  unfold readyState_of in Hopen.
  destruct (sockets st !! ws) as [s|] eqn:Es; [|discriminate].
  simpl in Hopen. injection Hopen as Hopen.
  assert (Hst1 : st1
                 = setInput ""
                     (set_sockets
                        (<[ws := mkSocket (url s) (readyState s)
                                   (outbox s ++ [frame])]> (sockets st)) st)).
  { unfold st1, step. cbn [fires deliver].
    destruct (send_cases st) as [Hs|(ws' & s' & Hws' & Es' & _ & _ & Hs)].
    - exfalso. unfold send in Hs.
      destruct (String.eqb_spec (trim (input st)) "") as [He|_];
        [contradiction|].
      rewrite Hws in Hs. simpl in Hs. unfold current_readyState in Hs.
      rewrite Hws in Hs. simpl in Hs. unfold readyState_of in Hs.
      rewrite Es in Hs. simpl in Hs. rewrite Hopen in Hs. simpl in Hs.
      unfold WebSocket_send in Hs. rewrite Es, Hopen in Hs. simpl in Hs.
      injection Hs as Hs. apply (f_equal input) in Hs. simpl in Hs.
      apply Hne. rewrite <- Hs. reflexivity.
    - rewrite Hs. rewrite Hws in Hws'. injection Hws' as <-.
      rewrite Es in Es'. injection Es' as <-. reflexivity. }
  clearbody st1. pose proof (lookup_lt_Some _ _ _ Es) as Hlt.
  assert (Hlook : sockets st1 !! ws
                  = Some (mkSocket (url s) (readyState s)
                            (outbox s ++ [frame]))).
  { rewrite Hst1. simpl. now apply list_lookup_insert_eq. }
  assert (Hf : fires st1 (WsMessage ws (TextData frame)) = true).
  { cbn [fires]. apply bool_decide_eq_true_2. unfold readyState_of.
    rewrite Hlook. simpl. now rewrite Hopen. }
  split; [now rewrite Hst1|]. split; [now rewrite Hst1|].
  split; [eexists; split; [exact Hlook | apply last_snoc]|].
  split; [exact Hf|].
  unfold step. rewrite Hf. cbn [deliver]. rewrite onmessage_admitted.
  unfold admitted. cbn [ToString]. unfold frame. rewrite Hrt.
  cbn. now rewrite Hst1.
Qed.

Lemma send_idem (st st' : State) :
  send st = Normal st' -> send st' = Normal st'.
Proof.
  destruct (send_cases st) as [Hs|(ws & s & _ & _ & _ & _ & Hs)];
    rewrite Hs; intros [= <-]; [exact Hs | reflexivity].
Qed.

(** X12. Only Enter without Shift sends: every other key, and Enter with
    Shift, leaves the state and the key's default action alone.  Enter
    without Shift always suppresses the default action and never throws; it
    changes the state exactly as [send] does, so on a blank input it
    neither inserts a line break nor sends, and a repeated Enter (a held
    key) sends the text once. *)
Theorem enter_sends (e : KeyboardEvent) (st : State) :
  (key e <> "Enter"%string \/ shiftKey e = true ->
   onKeyDown e st = Normal (false, st)) /\
  (key e = "Enter"%string -> shiftKey e = false ->
   exists st', onKeyDown e st = Normal (true, st') /\
               st' = step st Submit /\
               onKeyDown e st' = Normal (true, st') /\
               (trim (input st) = ""%string -> st' = st)).
Proof.
  unfold onKeyDown. split.
  - intros [H|H].
    + destruct (String.eqb_spec (key e) "Enter"); [contradiction|].
      reflexivity.
    + rewrite H. now rewrite andb_false_r.
  - intros -> ->. simpl.
    destruct (send_other st) as (st' & Hs & _). exists st'.
    rewrite Hs, (send_idem st st' Hs). split; [reflexivity|].
    split; [unfold step; cbn [fires deliver]; now rewrite Hs|].
    split; [reflexivity|].
    intros Hb. unfold send in Hs. rewrite Hb in Hs. simpl in Hs.
    now injection Hs.
Qed.

(** ** One transport at a time *)

Lemma clear_retryTimeout_length (st : State) :
  (length (timers (clear_retryTimeout st)) <= length (timers st))%nat.
Proof.
  unfold clear_retryTimeout.
  destruct (retryTimeoutRef st) as [i|]; [|reflexivity].
  destruct (ref_truthy (Some i)); [|reflexivity].
  simpl. apply List.filter_length_le.
Qed.

Lemma fires_timer_single (st : State) (id : Z) (ctor : option exn) :
  fires st (TimerFire id ctor) = true ->
  (length (timers st) <= 1)%nat ->
  timers (expire id st) = [] /\ length (timers st) = 1%nat.
Proof.
  cbn [fires]. unfold expire. simpl.
  destruct (timers st) as [|[i d] [|x l]]; simpl; intros Hf Hl;
    [discriminate| |lia].
  rewrite orb_false_r in Hf. rewrite Hf. split; reflexivity.
Qed.

Lemma live_count_app (st : State) (s : Socket) :
  live_count (set_sockets (sockets st ++ [s]) st)
  = (live_count st + (if is_live s then 1 else 0))%nat.
Proof.
  unfold live_count. simpl. rewrite List.filter_app, length_app. simpl.
  now destruct (is_live s).
Qed.

Lemma live_count_sockets (st st' : State) :
  sockets st' = sockets st -> live_count st' = live_count st.
Proof. unfold live_count. now intros ->. Qed.

(** The number of live sockets plus the number of pending timeouts is at
    most one, and stays so under every event but a run of the effect. *)
Lemma one_transport_step (st : State) (ev : Event) :
  is_effect_run ev = false ->
  (live_count st + length (timers st) <= 1)%nat ->
  (live_count (step st ev) + length (timers (step st ev)) <= 1)%nat.
Proof.
  intros Hev HJ. unfold step. destruct (fires st ev) eqn:Hf; [|exact HJ].
  destruct ev as [ctor| |id ctor|h|h d|h|h rnd|h|v|]; try discriminate;
    cbn [deliver].
  - (* cleanup *)
    destruct (cleanup_other st) as (_ & _ & _ & _ & _ & _ & _ & Ht & _).
    rewrite Ht. pose proof (clear_retryTimeout_length st) as Hl.
    assert (Hc : live_count (cleanup st) = live_count st).
    { unfold live_count.
      destruct (cleanup_sockets_cases st)
        as [->|(h & s & _ & Es & Hr & ->)]; [reflexivity|].
      pose proof (length_filter_insert is_live _ h s
                    (mkSocket (url s) CLOSING (outbox s)) Es) as Hc.
      replace (is_live s) with true in Hc
        by (unfold is_live; now rewrite Hr).
      change (is_live (mkSocket (url s) CLOSING (outbox s))) with true in Hc.
      cbv iota in Hc. lia. }
    lia.
  - (* the timeout fires *)
    destruct (fires_timer_single st id ctor Hf) as [Hexp Hone]; [lia|].
    assert (Hlive : live_count (expire id st) = 0%nat).
    { rewrite (live_count_sockets st) by reflexivity. lia. }
    destruct ctor as [e|].
    + destruct (connect_failed e (expire id st))
        as (_ & _ & _ & _ & Ht & _ & _ & _ & _ & Hs).
      rewrite Ht, (clear_retryTimeout_nil _ Hexp).
      rewrite (live_count_sockets (expire id st)) by exact Hs.
      rewrite Hlive. simpl. lia.
    + assert (Ht : timers (connect None (expire id st))
                   = timers (expire id st)) by reflexivity.
      assert (Hl : live_count (connect None (expire id st))
                   = S (live_count (expire id st))).
      { rewrite connect_ok.
        rewrite (live_count_sockets
                   (set_sockets
                      (sockets (expire id st)
                       ++ [mkSocket the_wsUrl CONNECTING []])
                      (expire id st))) by reflexivity.
        rewrite live_count_app.
        change (is_live (mkSocket the_wsUrl CONNECTING [])) with true.
        cbv iota. lia. }
      rewrite Ht, Hl, Hexp, Hlive. simpl. lia.
  - (* open *)
    cbn [fires] in Hf. apply bool_decide_eq_true in Hf.
    unfold readyState_of in Hf.
    destruct (set_readyState_other h OPEN st)
      as (_ & _ & _ & _ & _ & _ & _ & Ht & _).
    assert (Hc : live_count (onopen (set_readyState h OPEN st))
                 = live_count st).
    { unfold live_count. simpl.
      destruct (set_readyState_sockets h OPEN st)
        as [[_ ->]|(s & Es & ->)]; [reflexivity|].
      rewrite Es in Hf. simpl in Hf. injection Hf as Hf.
      pose proof (length_filter_insert is_live _ h s
                    (mkSocket (url s) OPEN (outbox s)) Es) as Hc.
      replace (is_live s) with true in Hc
        by (unfold is_live; now rewrite Hf).
      change (is_live (mkSocket (url s) OPEN (outbox s))) with true in Hc.
      cbv iota in Hc. lia. }
    rewrite Hc. simpl. rewrite Ht. exact HJ.
  - (* message *)
    rewrite onmessage_admitted. now destruct (admitted d).
  - (* error *)
    exact HJ.
  - (* close *)
    cbn [fires] in Hf. unfold readyState_of in Hf.
    destruct (sockets st !! h) as [s|] eqn:Es; simpl in Hf; [|discriminate].
    apply andb_true_iff in Hf as [Hf _]. apply andb_true_iff in Hf as [Hf _].
    set (st0 := set_readyState h CLOSED st).
    destruct (set_readyState_other h CLOSED st)
      as (_ & _ & _ & _ & _ & _ & Hm & Ht & _). fold st0 in Hm, Ht.
    assert (Hc : (live_count st0 + 1 = live_count st)%nat).
    { unfold live_count, st0.
      destruct (set_readyState_sockets h CLOSED st)
        as [[En _]|(s' & Es' & ->)]; [congruence|].
      rewrite Es in Es'. injection Es' as <-.
      pose proof (length_filter_insert is_live _ h s
                    (mkSocket (url s) CLOSED (outbox s)) Es) as Hc.
      replace (is_live s) with true in Hc by (symmetry; exact Hf).
      change (is_live (mkSocket (url s) CLOSED (outbox s))) with false in Hc.
      cbv iota in Hc. lia. }
    assert (Hnil : timers st0 = []).
    { rewrite Ht. destruct (timers st); [reflexivity|]. simpl in HJ. lia. }
    destruct (manualCloseRef st0) eqn:Hman.
    + rewrite onclose_manual by exact Hman.
      rewrite (live_count_sockets st0) by reflexivity. simpl.
      rewrite Hnil. simpl. lia.
    + destruct (onclose_retry rnd st0 Hman)
        as (_ & _ & _ & _ & Ht' & _ & _ & _ & _ & Hs').
      rewrite Ht', (clear_retryTimeout_nil _ Hnil).
      rewrite (live_count_sockets st0) by exact Hs'. simpl. lia.
  - (* the closing handshake starts *)
    cbn [fires] in Hf. apply bool_decide_eq_true in Hf.
    unfold readyState_of in Hf.
    destruct (set_readyState_other h CLOSING st)
      as (_ & _ & _ & _ & _ & _ & _ & Ht & _).
    assert (Hc : live_count (set_readyState h CLOSING st) = live_count st).
    { unfold live_count.
      destruct (set_readyState_sockets h CLOSING st)
        as [[_ ->]|(s & Es & ->)]; [reflexivity|].
      rewrite Es in Hf. simpl in Hf. injection Hf as Hf.
      pose proof (length_filter_insert is_live _ h s
                    (mkSocket (url s) CLOSING (outbox s)) Es) as Hc.
      replace (is_live s) with true in Hc
        by (unfold is_live; now rewrite Hf).
      change (is_live (mkSocket (url s) CLOSING (outbox s))) with true in Hc.
      cbv iota in Hc. lia. }
    rewrite Hc, Ht. exact HJ.
  - (* change *)
    exact HJ.
  - (* submit *)
    destruct (send_other st) as (st' & Hs & _ & _ & _ & _ & _ & _ & Ht & _).
    rewrite Hs, Ht.
    assert (Hc : live_count st' = live_count st).
    { destruct (send_cases st) as [Hs'|(ws & s & _ & Es & _ & _ & Hs')];
        rewrite Hs' in Hs; injection Hs as <-; [reflexivity|].
      unfold live_count. simpl.
      pose proof (length_filter_insert is_live _ ws s
                    (mkSocket (url s) (readyState s)
                       (outbox s
                        ++ [JSON_stringify (outgoing (trim (input st)))]))
                    Es) as Hc.
      change (is_live (mkSocket (url s) (readyState s)
                         (outbox s
                          ++ [JSON_stringify (outgoing (trim (input st)))])))
        with (is_live s) in Hc.
      destruct (is_live s); lia. }
    rewrite Hc. exact HJ.
Qed.

(** X9. As long as the effect has run only once, the component never
    holds two live sockets, and never a live socket together with a pending
    retry: at any time it has at most one of an unclosed socket and a
    scheduled reconnection. *)
Theorem one_transport_at_a_time (ctor : option exn) (evs : list Event) :
  forallb (fun ev => negb (is_effect_run ev)) evs = true ->
  let st := run (EffectRun ctor :: evs) initial in
  (live_count st + length (timers st) <= 1)%nat.
Proof.
  intros Hevs. cbv zeta. simpl.
  assert (H0 : (live_count (step initial (EffectRun ctor))
                + length (timers (step initial (EffectRun ctor))) <= 1)%nat).
  { destruct ctor as [e|]; vm_compute; lia. }
  revert H0. generalize (step initial (EffectRun ctor)). intros st.
  revert st. induction evs as [|ev evs IH]; intros st H0; simpl.
  - exact H0.
  - simpl in Hevs. apply andb_true_iff in Hevs as [Hev Hevs].
    apply negb_true_iff in Hev.
    apply IH; [exact Hevs|]. now apply one_transport_step.
Qed.

(** ** Runs of failures *)

(** One failed connection: the current socket [h] closes, the timeout
    fires, and [connect] constructs the socket [h + 1]. *)
Lemma failed_attempt_cycle (st : State) (h : nat) (rnd : Q) :
  wsRef st = Some h -> length (sockets st) = S h ->
  (exists s, sockets st !! h = Some s /\ readyState s <> CLOSED) ->
  manualCloseRef st = false -> timers st = [] ->
  (0 <= rnd)%Q -> (rnd < 1)%Q ->
  let st1 := step st (WsClose h rnd) in
  let st2 := step st1 (TimerFire (next_timer st) None) in
  timers st1 = [(next_timer st, delay (attempt st) rnd)] /\
  wsRef st2 = Some (S h) /\ length (sockets st2) = S (S h) /\
  (exists s, sockets st2 !! S h = Some s /\ readyState s = CONNECTING) /\
  manualCloseRef st2 = false /\ timers st2 = [] /\
  next_timer st2 = next_timer st + 1 /\
  attempt st2 = attempt st + 1 /\
  status st2 = "disconnected"%string /\
  messages st2 = messages st.
Proof.
  intros Hws Hlen (s & Es & Hlive) Hman Hnil H0 H1 st1 st2.
  assert (Hf : fires st (WsClose h rnd) = true).
  { cbn [fires]. unfold readyState_of. rewrite Es. simpl.
    apply andb_true_iff. split; [apply andb_true_iff; split|].
    - apply negb_true_iff. now apply Z.eqb_neq.
    - now apply Qle_bool_iff.
    - apply negb_true_iff. destruct (Qle_bool 1 rnd) eqn:E; [|reflexivity].
      apply Qle_bool_iff in E. lra. }
  set (st0 := set_readyState h CLOSED st).
  destruct (set_readyState_other h CLOSED st)
    as (Hm0 & _ & _ & Ha0 & _ & _ & Hman0 & Ht0 & Hn0).
  fold st0 in Hm0, Ha0, Hman0, Ht0, Hn0.
  assert (Hlen0 : length (sockets st0) = S h).
  { unfold st0.
    destruct (set_readyState_sockets h CLOSED st) as [[_ ->]|(s' & _ & ->)];
      [exact Hlen|]. now rewrite length_insert. }
  assert (Hst1 : st1 = onclose rnd st0).
  { unfold st1, step. now rewrite Hf. }
  destruct (onclose_retry rnd st0) as
    (Hs1 & Ha1 & Hw1 & Hr1 & Ht1 & Hn1 & Hm1 & _ & Hman1 & Hso1);
    [congruence|].
  rewrite <- Hst1 in Hs1, Ha1, Hw1, Hr1, Ht1, Hn1, Hm1, Hman1, Hso1.
  rewrite clear_retryTimeout_nil in Ht1 by congruence. simpl in Ht1.
  rewrite Hn0, Ha0 in Ht1. clearbody st1.
  assert (Hf2 : fires st1 (TimerFire (next_timer st) None) = true).
  { cbn [fires]. rewrite Ht1. simpl. now rewrite Z.eqb_refl. }
  assert (Hst2 : st2 = connect None (expire (next_timer st) st1)).
  { unfold st2, step. now rewrite Hf2. }
  rewrite connect_ok in Hst2. clearbody st2. subst st2. simpl.
  rewrite Hso1, Hlen0, Ht1. simpl. rewrite Z.eqb_refl. simpl.
  split; [reflexivity|]. split; [reflexivity|].
  split; [rewrite length_app, Hlen0; simpl; lia|].
  split.
  { eexists.
    split; [apply list_lookup_middle; exact (eq_sym Hlen0) | reflexivity]. }
  split; [exact Hman1|]. split; [reflexivity|].
  split; [congruence|]. split; [congruence|].
  split; [exact Hs1|]. congruence.
Qed.

(** X10. Connections that fail one after the other count up: after [k]
    failures in a row, each followed by its retry, the attempt count has
    grown by [k], the component holds exactly the newest socket, no timeout
    is pending, the status is disconnected, and no message was lost; the
    next failure waits [delay (n + k)], which stays within 10300 ms however
    large [k] is. *)
Theorem consecutive_failures (rnds : list Q) (st : State) (h : nat) :
  wsRef st = Some h -> length (sockets st) = S h ->
  (exists s, sockets st !! h = Some s /\ readyState s <> CLOSED) ->
  manualCloseRef st = false -> timers st = [] ->
  (0 <= attempt st) ->
  Forall (fun rnd => (0 <= rnd)%Q /\ (rnd < 1)%Q) rnds ->
  let k := length rnds in
  let st' := run (failed_attempts h (next_timer st) rnds) st in
  attempt st' = attempt st + Z.of_nat k /\
  wsRef st' = Some (h + k)%nat /\
  length (sockets st') = S (h + k) /\
  timers st' = [] /\
  next_timer st' = next_timer st + Z.of_nat k /\
  messages st' = messages st /\
  (rnds <> [] -> status st' = "disconnected"%string) /\
  (forall rnd, (0 <= rnd)%Q -> (rnd < 1)%Q ->
     timers (step st' (WsClose (h + k) rnd))
     = [(next_timer st', delay (attempt st + Z.of_nat k) rnd)] /\
     (delay (attempt st + Z.of_nat k) rnd <= 10300)%Q).
Proof.
  revert st h.
  induction rnds as [|rnd rnds IH];
    intros st h Hws Hlen Hlive Hman Hnil Hatt Hr k st'.
  - subst k st'. simpl. rewrite !Z.add_0_r, Nat.add_0_r.
    repeat (split; [first [reflexivity | assumption | congruence]|]).
    intros rnd H0 H1.
    destruct (failed_attempt_cycle st h rnd Hws Hlen Hlive Hman Hnil H0 H1)
      as (Ht1 & _).
    split; [exact Ht1|].
    now destruct (delay_bounds (attempt st) rnd Hatt H0 H1) as (_ & Hhi & _).
  - apply Forall_cons in Hr as [[H0 H1] Hr].
    destruct (failed_attempt_cycle st h rnd Hws Hlen Hlive Hman Hnil H0 H1)
      as (_ & Hws2 & Hlen2 & (s2 & Es2 & Hc2) & Hman2 & Hnil2 & Hn2 & Ha2
          & Hs2 & Hm2).
    set (st2 := step (step st (WsClose h rnd))
                  (TimerFire (next_timer st) None)) in *.
    assert (Hlive2 : exists s, sockets st2 !! S h = Some s /\
                               readyState s <> CLOSED).
    { exists s2. split; [exact Es2|]. rewrite Hc2. discriminate. }
    assert (Hatt2 : 0 <= attempt st2) by lia.
    specialize (IH st2 (S h) Hws2 Hlen2 Hlive2 Hman2 Hnil2 Hatt2 Hr).
    cbv zeta in IH. rewrite Hn2 in IH.
    assert (Hrun : st' = run (failed_attempts (S h) (next_timer st + 1) rnds)
                           st2) by reflexivity.
    rewrite <- Hrun in IH. clearbody st' st2.
    destruct IH as (IHa & IHw & IHl & IHt & IHn & IHm & IHs & IHd).
    subst k. simpl length.
    replace (h + S (length rnds))%nat with (S h + length rnds)%nat by lia.
    replace (attempt st + Z.of_nat (S (length rnds)))
      with (attempt st2 + Z.of_nat (length rnds)) by lia.
    split; [exact IHa|]. split; [exact IHw|]. split; [exact IHl|].
    split; [exact IHt|]. split; [lia|]. split; [congruence|].
    split; [|exact IHd].
    intros _. destruct rnds as [|r rnds]; [|apply IHs; discriminate].
    simpl in Hrun. now rewrite Hrun.
Qed.

Lemma failed_construction_step (st : State) (t : Z) (d : Q) (e : exn) :
  timers st = [(t, d)] ->
  let st' := step st (TimerFire t (Some e)) in
  timers st' = [(next_timer st, 1000%Q)] /\
  next_timer st' = next_timer st + 1 /\
  status st' = "error"%string /\ attempt st' = attempt st /\
  sockets st' = sockets st /\ wsRef st' = wsRef st /\
  messages st' = messages st.
Proof.
  intros Ht st'.
  assert (Hf : fires st (TimerFire t (Some e)) = true).
  { cbn [fires]. rewrite Ht. simpl. now rewrite Z.eqb_refl. }
  assert (Hst' : st' = connect (Some e) (expire t st)).
  { unfold st', step. now rewrite Hf. }
  clearbody st'. subst st'.
  assert (Hexp : timers (expire t st) = []).
  { unfold expire. simpl. rewrite Ht. simpl. now rewrite Z.eqb_refl. }
  destruct (connect_failed e (expire t st))
    as (Hs & Ha & Hw & _ & Ht' & Hn & Hm & _ & _ & Hso).
  rewrite (clear_retryTimeout_nil _ Hexp) in Ht'.
  repeat split; assumption.
Qed.

(** X11. When the WebSocket constructor rejects the URL the component
    retries once a second for ever and never counts: after the mount and
    any number of retries there is still no socket, the status is error,
    the attempt count is 0, exactly one timeout of 1000 ms is pending, and
    the header never shows the reconnecting notice. *)
Theorem rejected_url_retries_every_second (e : exn) (es : list exn) :
  let st := run (EffectRun (Some e) :: failed_constructions 1 es) initial in
  status st = "error"%string /\ attempt st = 0 /\
  sockets st = [] /\ wsRef st = None /\ messages st = [] /\
  timers st = [(1 + Z.of_nat (length es), 1000%Q)] /\
  shows_reconnecting st = false.
Proof.
  cbv zeta.
  assert (H : forall es st t d,
             timers st = [(t, d)] -> next_timer st = t + 1 ->
             d = 1000%Q -> status st = "error"%string ->
             let st' := run (failed_constructions t es) st in
             status st' = "error"%string /\ attempt st' = attempt st /\
             sockets st' = sockets st /\ wsRef st' = wsRef st /\
             messages st' = messages st /\
             timers st' = [(t + Z.of_nat (length es), 1000%Q)]).
  { clear es. induction es as [|e' es IH]; intros st t d Ht Hn Hd Hs st'.
    - subst st'. simpl. rewrite Z.add_0_r, Ht, Hd. repeat split. exact Hs.
    - destruct (failed_construction_step st t d e' Ht)
        as (Ht1 & Hn1 & Hs1 & Ha1 & Hso1 & Hw1 & Hm1).
      rewrite Hn in Ht1, Hn1.
      specialize (IH (step st (TimerFire t (Some e'))) (t + 1) 1000%Q
                    Ht1 Hn1 eq_refl Hs1).
      cbv zeta in IH. destruct IH as (IHs & IHa & IHso & IHw & IHm & IHt).
      subst st'. simpl run.
      replace (t + Z.of_nat (length (e' :: es)))
        with (t + 1 + Z.of_nat (length es)) by (simpl length; lia).
      repeat split; congruence. }
  specialize (H es (step initial (EffectRun (Some e))) 1 1000%Q
                eq_refl eq_refl eq_refl eq_refl).
  cbv zeta in H. destruct H as (Hs & Ha & Hso & Hw & Hm & Ht).
  simpl run.
  repeat (split; [first [assumption | congruence]|]).
  unfold shows_reconnecting. now rewrite Ha.
Qed.

(** X13. Running the cleanup and then the effect again keeps what the user
    sees of the session: the message list, the input and the attempt count
    are untouched (the effect does not reset the count).  The cleanup has
    cancelled any pending retry, so the one new socket the effect
    constructs is the only connection started, and it becomes the current
    one. *)
Theorem remount_keeps_history (st : State) :
  reachable st ->
  let st' := step (step st EffectCleanup) (EffectRun None) in
  messages st' = messages st /\ input st' = input st /\
  attempt st' = attempt st /\
  status st' = "connecting"%string /\
  manualCloseRef st' = false /\
  timers st' = [] /\
  wsRef st' = Some (length (sockets st)) /\
  readyState_of (length (sockets st)) st' = Some CONNECTING.
Proof.
  intros Hr st'. pose proof (reachable_timers_inv st Hr) as Hinv.
  destruct (cleanup_other st)
    as (Hm & Hi & _ & Ha & _ & _ & _ & Ht & _).
  rewrite clear_retryTimeout_timers in Ht by exact Hinv.
  assert (Hlen : length (sockets (cleanup st)) = length (sockets st)).
  { destruct (cleanup_sockets_cases st) as [->|(h & s & _ & _ & _ & ->)];
      [reflexivity|]. apply length_insert. }
  assert (Hst' : st' = effect None (cleanup st)) by reflexivity.
  clearbody st'. subst st'. unfold effect. rewrite connect_ok. simpl.
  rewrite Hm, Hi, Ha, Ht, Hlen.
  repeat (split; [reflexivity|]).
  unfold readyState_of. simpl.
  rewrite (list_lookup_middle _ [] _ (length (sockets st)))
    by (symmetry; exact Hlen).
  reflexivity.
Qed.

(** X15. A successful open restarts the backoff: whatever the attempt
    count was, the first close after an open brings the attempt count to 1
    and schedules the retry after [500 + Math.random() * 300] ms, computed
    in doubles: at least 500 and at most 800 ms. *)
Theorem backoff_restarts_after_open (st : State) (h h' : nat) (rnd : Q) :
  manualCloseRef st = false ->
  (0 <= rnd)%Q -> (rnd < 1)%Q ->
  let st' := deliver (WsClose h' rnd) (deliver (WsOpen h) st) in
  attempt st' = 1 /\
  last (timers st') = Some (next_timer st, delay 0 rnd) /\
  delay 0 rnd = round64 (500 + round64 (rnd * 300)) /\
  (500 <= delay 0 rnd)%Q /\ (delay 0 rnd <= 800)%Q.
Proof.
  intros Hman H0 H1 st'.
  destruct (onopen_any_handle h st) as (Hobs & _ & _ & Hm).
  set (st1 := deliver (WsOpen h) st) in *.
  assert (Ha1 : attempt st1 = 0) by reflexivity.
  assert (Hn1 : next_timer st1 = next_timer st).
  { unfold st1. cbn [deliver]. simpl.
    now destruct (set_readyState_other h OPEN st)
      as (_ & _ & _ & _ & _ & _ & _ & _ & ->). }
  clearbody st1.
  destruct (onclose_any_handle h' rnd st1) as (Hobs' & _).
  fold st' in Hobs'.
  destruct (onclose_retry rnd st1) as (_ & Ha & _ & _ & Ht & _);
    [congruence|].
  unfold observable in Hobs'. injection Hobs' as _ Ha' _ Ht'.
  rewrite Ha', Ht', Ha, Ht, Ha1, Hn1, last_snoc.
  split; [reflexivity|]. split; [reflexivity|].
  destruct (delay_bounds 0 rnd (Z.le_refl 0) H0 H1) as (Hlo & _ & Heq).
  split; [exact Heq|]. split; [exact Hlo|].
  rewrite Heq. change (baseDelay 0) with 500%Q.
  destruct (jitter_bounds rnd H0) as [_ Hj]; [lra|].
  assert (H : (round64 800 == 800)%Q) by reflexivity.
  assert (H2 : (round64 (500 + jitter rnd) <= round64 800)%Q)
    by (apply round64_mono; lra).
  lra.
Qed.

(** ** After the cleanup, again *)

Lemma sockets_length_step (st : State) (ev : Event) :
  is_effect_run ev = false -> timers st = [] ->
  length (sockets (step st ev)) = length (sockets st).
Proof.
  intros Hev Hnil. unfold step. destruct (fires st ev) eqn:Hf; [|reflexivity].
  assert (Hrs : forall h v st0,
             length (sockets (set_readyState h v st0))
             = length (sockets st0)).
  { intros h v st0.
    destruct (set_readyState_sockets h v st0) as [[_ ->]|(s & _ & ->)];
      [reflexivity | apply length_insert]. }
  destruct ev as [ctor| |id ctor|h|h d|h|h rnd|h|v|]; try discriminate;
    cbn [deliver].
  - destruct (cleanup_sockets_cases st) as [->|(h & s & _ & _ & _ & ->)];
      [reflexivity | apply length_insert].
  - cbn [fires] in Hf. now rewrite Hnil in Hf.
  - simpl. apply Hrs.
  - rewrite onmessage_admitted. now destruct (admitted d).
  - reflexivity.
  - destruct (manualCloseRef (set_readyState h CLOSED st)) eqn:E.
    + rewrite onclose_manual by exact E. simpl. apply Hrs.
    + destruct (onclose_retry rnd (set_readyState h CLOSED st) E)
        as (_ & _ & _ & _ & _ & _ & _ & _ & _ & ->). apply Hrs.
  - apply Hrs.
  - reflexivity.
  - destruct (send_cases st) as [->|(ws & s & _ & _ & _ & _ & ->)];
      [reflexivity|]. simpl. apply length_insert.
Qed.

(** X14. No reconnection after the cleanup: from the cleanup until the
    effect runs again, whatever the sockets report and whatever the user
    does, the component constructs no socket. *)
Theorem no_reconnect_after_cleanup (st : State) (evs : list Event) :
  reachable st ->
  forallb (fun ev => negb (is_effect_run ev)) evs = true ->
  length (sockets (run evs (cleanup st))) = length (sockets st).
Proof.
  intros Hr Hevs. pose proof (reachable_timers_inv st Hr) as Hinv.
  destruct (cleanup_other st) as (_ & _ & _ & _ & _ & _ & Hm0 & Ht0 & _).
  rewrite clear_retryTimeout_timers in Ht0 by exact Hinv.
  assert (Hlen0 : length (sockets (cleanup st)) = length (sockets st)).
  { destruct (cleanup_sockets_cases st) as [->|(h & s & _ & _ & _ & ->)];
      [reflexivity | apply length_insert]. }
  rewrite <- Hlen0. clear Hlen0 Hr Hinv.
  revert Hm0 Ht0. generalize (cleanup st). clear st.
  induction evs as [|ev evs IH]; intros st Hm Ht; simpl; [reflexivity|].
  simpl in Hevs. apply andb_true_iff in Hevs as [Hev Hevs].
  apply negb_true_iff in Hev.
  destruct (torn_down_deliver ev st Hev Hm Ht) as [Hm' Ht'].
  rewrite (IH Hevs _ Hm' Ht'). now apply sockets_length_step.
Qed.

(** X16. Whenever the status is disconnected the attempt count is at least
    1, so a disconnected component always shows the reconnecting notice
    with the number of the try. *)
Theorem disconnected_shows_notice (st : State) :
  reachable st ->
  status st = "disconnected"%string ->
  1 <= attempt st /\ shows_reconnecting st = true.
Proof.
  intros Hr Hs.
  assert (H : 0 <= attempt st /\
              (status st = "disconnected"%string -> 1 <= attempt st)).
  { clear Hs. revert st Hr.
    apply (reachable_invariant
             (fun st => 0 <= attempt st /\
                        (status st = "disconnected"%string ->
                         1 <= attempt st))).
    - split; [reflexivity | discriminate].
    - intros st ev [IH0 IH]. unfold step.
      destruct (fires st ev); [|now split].
      destruct (status_attempt_deliver ev st)
        as [[-> ->]|[[-> ->]|[(_ & -> & ->)|[[-> ->]|[-> ->]]]]];
        split; try discriminate; try assumption; try lia. }
  destruct H as [_ H]. specialize (H Hs). split; [exact H|].
  unfold shows_reconnecting. rewrite Hs. simpl.
  rewrite andb_true_r. apply Z.ltb_lt. lia.
Qed.

(** ** While mounted *)

Lemma mounted_inv_timer (st : State) (id : Z) (ctor : option exn) :
  fires st (TimerFire id ctor) = true ->
  mounted_inv st -> mounted_inv (deliver (TimerFire id ctor) st).
Proof.
  intros Hf (Hinv & Hman & Hcur & Hretry & Hconn).
  assert (Hne : timers st <> []).
  { cbn [fires] in Hf. destruct (timers st); [discriminate | discriminate]. }
  pose proof (Hretry Hne) as Hdead.
  assert (Hexp : timers (expire id st) = []).
  { apply (fires_timer_single st id ctor Hf).
    destruct Hinv as [_ [-> | (i & d & _ & _ & ->)]]; simpl; lia. }
  assert (Hnc : status st <> "connected"%string).
  { intros Hc. destruct (Hconn Hc) as (h & s & _ & Es & Hr).
    pose proof (Hdead h s Es) as Hd. unfold is_live in Hd.
    destruct Hr as [Hr|Hr]; rewrite Hr in Hd; discriminate. }
  split; [now apply timers_inv_deliver|].
  cbn [deliver].
  assert (H0 : manualCloseRef (expire id st) = manualCloseRef st /\
               sockets (expire id st) = sockets st /\
               status (expire id st) = status st) by (repeat split).
  destruct H0 as (Hm0 & Hso0 & Hs0).
  set (st0 := expire id st) in *. clearbody st0.
  rewrite <- Hso0 in Hdead. rewrite <- Hs0 in Hnc. rewrite <- Hm0 in Hman.
  destruct ctor as [e|].
  - destruct (connect_failed e st0)
      as (Hs & _ & Hw & _ & _ & _ & _ & _ & Hm & Hso).
    rewrite Hm, Hso, Hs.
    split; [exact Hman|]. split.
    { intros h s Es Hl. rewrite (Hdead h s Es) in Hl. discriminate. }
    split; [intros _; exact Hdead | discriminate].
  - rewrite connect_ok. simpl.
    split; [exact Hman|]. split.
    { intros h s Es Hl. apply lookup_app_Some in Es as [Es|[Hge Es]].
      - rewrite (Hdead h s Es) in Hl. discriminate.
      - f_equal. apply lookup_lt_Some in Es. simpl in Es. lia. }
    split; [rewrite Hexp; congruence|].
    intros Hc. contradiction.
Qed.

Lemma mounted_inv_step (st : State) (ev : Event) :
  is_remount ev = false -> mounted_inv st -> mounted_inv (step st ev).
Proof.
  intros Hev Hmi. unfold step. destruct (fires st ev) eqn:Hf; [|exact Hmi].
  destruct ev as [ctor| |id ctor|h|h d|h|h rnd|h|v|]; try discriminate.
  - now apply mounted_inv_timer.
  - (* open *)
    destruct Hmi as (Hinv & Hman & Hcur & Hretry & Hconn).
    split; [now apply timers_inv_deliver|].
    cbn [fires] in Hf. apply bool_decide_eq_true in Hf.
    unfold readyState_of in Hf.
    destruct (sockets st !! h) as [s|] eqn:Es; [|discriminate].
    simpl in Hf. injection Hf as Hf.
    assert (Hlive : is_live s = true) by (unfold is_live; now rewrite Hf).
    pose proof (Hcur h s Es Hlive) as Hw.
    pose proof (lookup_lt_Some _ _ _ Es) as Hlt.
    cbn [deliver]. unfold set_readyState. rewrite Es. simpl.
    split; [exact Hman|]. split.
    { intros h' s' Es' Hl'.
      apply list_lookup_insert_Some in Es' as [(<- & _ & _)|(Hne & Es')];
        [exact Hw | exact (Hcur h' s' Es' Hl')]. }
    split.
    { intros Hne h' s' Es'.
      pose proof (Hretry Hne h s Es) as Hd. congruence. }
    intros _. exists h, (mkSocket (url s) OPEN (outbox s)).
    split; [exact Hw|]. split; [|left; reflexivity].
    now apply list_lookup_insert_eq.
  - (* message *)
    cbn [deliver]. rewrite onmessage_admitted.
    destruct (admitted d); [|exact Hmi]. exact Hmi.
  - (* error *)
    destruct Hmi as (Hinv & Hman & Hcur & Hretry & Hconn).
    split; [exact Hinv|]. split; [exact Hman|]. split; [exact Hcur|].
    split; [exact Hretry | discriminate].
  - (* close *)
    destruct Hmi as (Hinv & Hman & Hcur & Hretry & Hconn).
    split; [now apply timers_inv_deliver|].
    cbn [fires] in Hf. unfold readyState_of in Hf.
    destruct (sockets st !! h) as [s|] eqn:Es; simpl in Hf; [|discriminate].
    apply andb_true_iff in Hf as [Hf _]. apply andb_true_iff in Hf as [Hf _].
    pose proof (Hcur h s Es Hf) as Hw.
    cbn [deliver].
    set (st0 := set_readyState h CLOSED st).
    assert (Hso0 : sockets st0
                   = <[h := mkSocket (url s) CLOSED (outbox s)]> (sockets st)).
    { unfold st0, set_readyState. now rewrite Es. }
    destruct (set_readyState_other h CLOSED st)
      as (_ & _ & _ & _ & _ & _ & Hman0 & _). fold st0 in Hman0.
    assert (Hdead : forall h' s', sockets st0 !! h' = Some s' ->
                                  is_live s' = false).
    { intros h' s' Es'. rewrite Hso0 in Es'.
      apply list_lookup_insert_Some in Es' as [(_ & <- & _)|(Hne & Es')];
        [reflexivity|].
      destruct (is_live s') eqn:Hl'; [|reflexivity].
      pose proof (Hcur h' s' Es' Hl') as Hw'. congruence. }
    destruct (onclose_retry rnd st0) as
      (Hs1 & _ & Hw1 & _ & _ & _ & _ & _ & Hman1 & Hso1); [congruence|].
    rewrite Hman1, Hw1, Hso1, Hs1.
    split; [reflexivity|]. split.
    { intros h' s' Es' Hl'. rewrite (Hdead h' s' Es') in Hl'. discriminate. }
    split; [intros _; exact Hdead | discriminate].
  - (* the closing handshake starts *)
    destruct Hmi as (Hinv & Hman & Hcur & Hretry & Hconn).
    split; [now apply timers_inv_deliver|].
    cbn [fires] in Hf. apply bool_decide_eq_true in Hf.
    unfold readyState_of in Hf.
    destruct (sockets st !! h) as [s|] eqn:Es; [|discriminate].
    simpl in Hf. injection Hf as Hf.
    assert (Hlive : is_live s = true) by (unfold is_live; now rewrite Hf).
    pose proof (Hcur h s Es Hlive) as Hw.
    pose proof (lookup_lt_Some _ _ _ Es) as Hlt.
    cbn [deliver]. unfold set_readyState. rewrite Es. simpl.
    split; [exact Hman|]. split.
    { intros h' s' Es' Hl'.
      apply list_lookup_insert_Some in Es' as [(<- & _ & _)|(Hne & Es')];
        [exact Hw | exact (Hcur h' s' Es' Hl')]. }
    split.
    { intros Hne h' s' Es'.
      pose proof (Hretry Hne h s Es) as Hd. congruence. }
    intros _. exists h, (mkSocket (url s) CLOSING (outbox s)).
    split; [exact Hw|]. split; [|right; reflexivity].
    now apply list_lookup_insert_eq.
  - (* change *)
    exact Hmi.
  - (* submit *)
    destruct Hmi as (Hinv & Hman & Hcur & Hretry & Hconn).
    split; [now apply timers_inv_deliver|].
    cbn [deliver].
    destruct (send_cases st) as [->|(ws & s & Hws & Es & Hr & _ & ->)].
    + split; [exact Hman|]. split; [exact Hcur|]. split; assumption.
    + pose proof (lookup_lt_Some _ _ _ Es) as Hlt. simpl.
      split; [exact Hman|]. split.
      { intros h' s' Es' Hl'.
        apply list_lookup_insert_Some in Es' as [(<- & _ & _)|(Hne & Es')];
          [exact Hws | exact (Hcur h' s' Es' Hl')]. }
      split.
      { intros Hne h' s' Es'.
        apply list_lookup_insert_Some in Es' as [(_ & <- & _)|(_ & Es')];
          [exact (Hretry Hne ws s Es) | exact (Hretry Hne h' s' Es')]. }
      intros Hc. destruct (Hconn Hc) as (h' & s' & Hw' & Es' & Hr').
      rewrite Hws in Hw'. injection Hw' as <-.
      eexists ws, _. split; [exact Hws|].
      split; [now apply list_lookup_insert_eq | left; exact Hr].
Qed.

(** X17. While the component is mounted once (the effect has run, and
    neither its cleanup nor a second run has happened), a connected status
    means that [wsRef] holds a socket that has opened and has not reported
    its closing: it is OPEN, or it is CLOSING because the server has
    started the closing handshake.  On the OPEN one a non-blank input is
    handed to the transport; on the CLOSING one [send] is rejected although
    the status reads connected. *)
Theorem connected_holds_opened_socket (ctor : option exn)
    (evs : list Event) :
  forallb (fun ev => negb (is_remount ev)) evs = true ->
  let st := run (EffectRun ctor :: evs) initial in
  status st = "connected"%string ->
  (exists h, wsRef st = Some h /\
             (readyState_of h st = Some OPEN \/
              readyState_of h st = Some CLOSING)) /\
  (current_readyState st = Some OPEN ->
   trim (input st) <> ""%string ->
   exists before after,
     transport_calls st = before ++ after /\
     transport_calls (step st Submit)
     = before ++ JSON_stringify (outgoing (trim (input st))) :: after) /\
  (current_readyState st = Some CLOSING -> step st Submit = st).
Proof.
  intros Hevs st Hc.
  assert (Hmi : mounted_inv st).
  { unfold st. simpl.
    assert (H0 : mounted_inv (step initial (EffectRun ctor))).
    { unfold step. cbn [fires deliver]. unfold effect.
      split; [apply timers_inv_connect; split; [reflexivity | now left]|].
      destruct ctor as [e|].
      - destruct (connect_failed e
                    (setStatus "connecting" (set_manualCloseRef false initial)))
          as (Hs & _ & Hw & _ & _ & _ & _ & _ & Hm & Hso).
        rewrite Hm, Hso, Hs. simpl.
        split; [reflexivity|]. split; [intros h s Es; discriminate|].
        split; [intros _ h s Es; discriminate | discriminate].
      - rewrite connect_ok. simpl.
        split; [reflexivity|]. split.
        { intros [|h] s Es _; [reflexivity | discriminate]. }
        split; [congruence | discriminate]. }
    revert H0. generalize (step initial (EffectRun ctor)). clear st Hc.
    induction evs as [|ev evs IH]; intros st H0; simpl; [exact H0|].
    simpl in Hevs. apply andb_true_iff in Hevs as [Hev Hevs].
    apply negb_true_iff in Hev.
    apply IH; [exact Hevs|]. now apply mounted_inv_step. }
  destruct Hmi as (_ & _ & _ & _ & Hconn).
  destruct (Hconn Hc) as (h & s & Hw & Es & Hr).
  split.
  { exists h. split; [exact Hw|]. unfold readyState_of. rewrite Es. simpl.
    destruct Hr as [-> | ->]; [now left | now right]. }
  unfold current_readyState, readyState_of. rewrite Hw. simpl.
  rewrite Es. simpl. split.
  - intros [= Ho] Hne. unfold step. cbn [fires deliver].
    destruct (send_cases st) as [Hs|(ws & s' & Hws & Es' & _ & _ & Hs)].
    + exfalso. unfold send in Hs.
      destruct (String.eqb_spec (trim (input st)) "") as [He|_];
        [contradiction|].
      rewrite Hw in Hs. simpl in Hs. unfold current_readyState in Hs.
      rewrite Hw in Hs. simpl in Hs. unfold readyState_of in Hs.
      rewrite Es in Hs. simpl in Hs. rewrite Ho in Hs. simpl in Hs.
      unfold WebSocket_send in Hs. rewrite Es, Ho in Hs. simpl in Hs.
      injection Hs as Hs. apply (f_equal input) in Hs. simpl in Hs.
      apply Hne. rewrite <- Hs. reflexivity.
    + rewrite Hs.
      exact (transport_calls_insert st ws s' _ Es').
  - intros [= Hcl]. unfold step. cbn [fires deliver].
    destruct (send_cases st) as [Hs|(ws & s' & Hws & Es' & Ho & _ & _)].
    + now rewrite Hs.
    + exfalso. rewrite Hw in Hws. injection Hws as <-.
      rewrite Es in Es'. injection Es' as <-. rewrite Hcl in Ho. discriminate.
Qed.

End ChatRoom.

(** * A concrete session

    The backend is configured as [http://localhost:8000/], the page is
    served from [http://localhost:3000], and the platform functions are
    the reference ones. *)

Abbreviation demo_run :=
  (run (Some "http://localhost:8000/"%string) "http://localhost:3000"
       RefJSON.parse RefJSON.stringify).
Abbreviation demo_step :=
  (step (Some "http://localhost:8000/"%string) "http://localhost:3000"
        RefJSON.parse RefJSON.stringify).
Abbreviation demo_deliver :=
  (deliver (Some "http://localhost:8000/"%string) "http://localhost:3000"
           RefJSON.parse RefJSON.stringify).
Abbreviation demo_reachable :=
  (reachable (Some "http://localhost:8000/"%string) "http://localhost:3000"
             RefJSON.parse RefJSON.stringify).

Example demo_session :
  let st :=
    demo_run
      [EffectRun None; WsOpen 0%nat; Change " hi "; Submit;
       WsMessage 0%nat
         (TextData (RefJSON.q "{'type':'message','text':'hi'}"));
       WsMessage 0%nat (TextData (RefJSON.q "{'type':'typing'}"));
       WsMessage 0%nat BlobData;
       WsClosing 0%nat;
       WsClose 0%nat (1 # 4)]
      initial in
  messages st = [JObj [("type", JStr "message"); ("text", JStr "hi")]%string]
  /\ status st = "disconnected"%string /\ attempt st = 1
  /\ map (fun t => (fst t, Qred (snd t))) (timers st) = [(1, 575%Q)]
  /\ transport_calls st = [RefJSON.q "{'type':'message','text':'hi'}"]
  /\ map url (sockets st) = ["ws://localhost:8000/ws"%string].
Proof. vm_compute. repeat split; reflexivity. Qed.

Example base_delays :
  map baseDelay [0; 1; 2; 3; 4; 5; 20]
  = [500; 1000; 2000; 4000; 8000; 10000; 10000]%Q.
Proof. reflexivity. Qed.

(** ** The properties at concrete inputs *)


Lemma floor_never_binds_witness :
  0 <= 3 /\ (0 <= 150)%Q /\ (150 < 300)%Q /\
  Math_max 300 (round64 (baseDelay 3 + 150))
  = round64 (baseDelay 3 + 150) /\
  (round64 (baseDelay 3 + 150) <= 10300)%Q.
Proof.
  assert (Hn : 0 <= 3) by lia.
  assert (H0 : (0 <= 150)%Q) by (vm_compute; discriminate).
  assert (H1 : (150 < 300)%Q) by reflexivity.
  repeat (split; [assumption|]).
  destruct (floor_never_binds 3 150 Hn H0 H1)
    as (_ & _ & _ & _ & Hhi & Hmax & _).
  split; [exact Hmax | exact Hhi].
Defined.

Lemma attempt_counter_witness :
  let st := demo_run [EffectRun None; WsClose 0%nat (1 # 4);
                      TimerFire 1 None] initial in
  demo_reachable st /\
  attempt st = 1 /\
  attempt (demo_deliver (WsOpen 1%nat) st) = 0 /\
  attempt (demo_deliver (WsClose 1%nat (1 # 2)) st) = 2.
Proof.
  cbv zeta.
  set (st := demo_run _ initial).
  assert (Hr : demo_reachable st) by (eexists; reflexivity).
  split; [exact Hr|]. split; [reflexivity|].
  destruct (attempt_counter _ _ _ _ st Submit Hr) as (_ & Hopen & Hclose & _).
  split; [exact (Hopen 1%nat)|].
  exact (proj1 (Hclose 1%nat (1 # 2) eq_refl)).
Defined.

Lemma single_retry_timer_witness :
  let st := demo_run [EffectRun None; WsClose 0%nat (1 # 4)] initial in
  demo_reachable st /\
  length (timers st) = 1%nat /\
  manualCloseRef st = false /\
  timers (onclose (1 # 2) st) = [(2, delay 1 (1 # 2))] /\
  clearTimeout 7 st = st.
Proof.
  cbv zeta.
  set (st := demo_run _ initial).
  assert (Hr : demo_reachable st) by (eexists; reflexivity).
  split; [exact Hr|]. split; [reflexivity|]. split; [reflexivity|].
  destruct (single_retry_timer _ _ _ _ st Hr) as (_ & Hclose & _ & Hclear & _).
  split; [exact (Hclose (1 # 2) eq_refl)|].
  apply Hclear. vm_compute. intros [H|[]]. discriminate.
Defined.

Lemma wsUrl_derivation_witness :
  ends_with_slash "s://chat.example.org" = false /\
  wsUrl "https://chat.example.org" "http://localhost:3000"
  = "wss://chat.example.org/ws"%string /\
  wsUrl "http://localhost:8000/" "http://localhost:3000"
  = "ws://localhost:8000/ws"%string /\
  wsUrl "" "http://localhost:3000" = "ws://localhost:3000/ws"%string /\
  wsUrl "ws://chat.example.org/" "http://localhost:3000"
  = "ws://chat.example.org/ws"%string /\
  wsUrl (BACKEND_URL_of (Some "/chat/"%string)) "http://localhost:3000"
  = "/chat/ws"%string.
Proof.
  destruct (wsUrl_derivation (Some "http://localhost:8000/"%string)
              "http://localhost:3000" RefJSON.parse RefJSON.stringify)
    as (_ & _ & _ & _ & _ & Hslash & Hplain & Hempty & _ & _ & _ & Hstrip
        & Hset & _).
  split; [reflexivity|].
  split; [exact (Hplain "s://chat.example.org" _ eq_refl)|].
  split; [exact (Hslash "://localhost:8000" _)|].
  split; [exact (Hempty _)|].
  split; [exact (Hstrip "ws://chat.example.org"%string _ eq_refl)|].
  rewrite Hset. exact (Hstrip "/chat"%string _ eq_refl).
Defined.

Lemma inbound_admission_witness :
  RefJSON.parse "[object Blob]" = Throw SyntaxError /\
  RefJSON.parse "[object ArrayBuffer]" = Throw SyntaxError /\
  messages
    (fold_left (fun s p => onmessage RefJSON.parse p s)
       [TextData (RefJSON.q "{'type':'system','text':'joined'}");
        TextData (RefJSON.q "{'type':'typing'}");
        TextData "not json";
        BlobData;
        TextData (RefJSON.q "{'text':'no kind'}");
        TextData (RefJSON.q "{'type':'message','text':'hi'}")]
       initial)
  = [JObj [("type", JStr "system"); ("text", JStr "joined")];
     JObj [("type", JStr "message"); ("text", JStr "hi")]]%string.
Proof.
  assert (Hblob : RefJSON.parse "[object Blob]" = Throw SyntaxError)
    by reflexivity.
  assert (Hbuf : RefJSON.parse "[object ArrayBuffer]" = Throw SyntaxError)
    by reflexivity.
  split; [exact Hblob|]. split; [exact Hbuf|].
  destruct (inbound_admission RefJSON.parse SyntaxError SyntaxError
              BlobData initial Hblob Hbuf) as (_ & _ & _ & _ & _ & Hseq).
  rewrite Hseq. reflexivity.
Defined.

(** In strict mode the first socket (handle 0) is superseded by the second
    (handle 1) while still connecting. *)
Lemma handlers_ignore_firing_handle_witness :
  let st := demo_run (strict_mount ++ [WsOpen 1%nat]) initial in
  is_socket_event (WsClose 1%nat (1 # 2)) = true /\
  wsRef st = Some 1%nat /\
  observable (demo_deliver (WsClose 0%nat (1 # 2)) st)
  = observable (demo_deliver (WsClose 1%nat (1 # 2)) st) /\
  status (demo_deliver (WsClose 0%nat (1 # 2)) st) = "disconnected"%string.
Proof.
  cbv zeta.
  set (st := demo_run _ initial).
  split; [reflexivity|]. split; [reflexivity|].
  destruct (handlers_ignore_firing_handle
              (Some "http://localhost:8000/"%string) "http://localhost:3000"
              RefJSON.parse RefJSON.stringify st 0%nat 1%nat
              (WsClose 1%nat (1 # 2)) eq_refl)
    as ((Hobs & _) & _ & _ & _ & Hc & _).
  split; [exact Hobs|].
  exact (proj1 (proj2 (Hc (1 # 2) eq_refl))).
Defined.

Lemma after_cleanup_witness :
  let st := demo_run [EffectRun None; WsClose 0%nat (1 # 4)] initial in
  let evs := [WsOpen 0%nat; Change "x"; TimerFire 1 None;
              WsClose 0%nat (1 # 2)] in
  demo_reachable st /\
  forallb (fun ev => negb (is_effect_run ev)) evs = true /\
  timers st <> [] /\
  timers (demo_run evs (cleanup st)) = [] /\
  manualCloseRef (demo_run evs (cleanup st)) = true.
Proof.
  cbv zeta.
  set (st := demo_run _ initial).
  assert (Hr : demo_reachable st) by (eexists; reflexivity).
  split; [exact Hr|]. split; [reflexivity|]. split; [discriminate|].
  destruct (after_cleanup _ _ _ _ st
              [WsOpen 0%nat; Change "x"; TimerFire 1 None;
               WsClose 0%nat (1 # 2)] Hr eq_refl) as (_ & _ & Hm & Ht & _).
  split; [exact Ht | exact Hm].
Defined.

Lemma send_guard_witness :
  let st := demo_run [EffectRun None; WsOpen 0%nat; Change "  hi there "]
              initial in
  trim (input st) <> ""%string /\
  current_readyState st = Some OPEN /\
  exists st',
    send RefJSON.stringify st = Normal st' /\
    input st' = ""%string /\
    map outbox (sockets st')
    = [[RefJSON.q "{'type':'message','text':'hi there'}"]].
Proof.
  cbv zeta.
  set (st := demo_run _ initial).
  assert (Hne : trim (input st) <> ""%string) by discriminate.
  assert (Hopen : current_readyState st = Some OPEN) by reflexivity.
  split; [exact Hne|]. split; [exact Hopen|].
  destruct (send_guard RefJSON.stringify st) as (_ & _ & Hsend & _).
  destruct (Hsend Hne Hopen) as (ws & s & st' & _ & _ & Hs & Hi & Hso & _).
  exists st'. split; [exact Hs|]. split; [exact Hi|].
  assert (Hst' : Normal st' = send RefJSON.stringify st)
    by (symmetry; exact Hs).
  vm_compute in Hst'. injection Hst' as ->. reflexivity.
Defined.

(** ** Where the specification and the code part *)

(** C1, as stated, fails.  In strict mode handle 0 is superseded by handle 1
    while connecting; handle 1 opens; then handle 0 closes.  The stale close
    is not discarded: it clears the current-handle ref, sets the status to
    disconnected, raises the attempt count and schedules a retry, although
    the current socket is open. *)
Lemma stale_close_changes_state :
  let st := demo_run (strict_mount ++ [WsOpen 1%nat]) initial in
  let st' := demo_step st (WsClose 0%nat (1 # 2)) in
  wsRef st = Some 1%nat /\
  fires st (WsClose 0%nat (1 # 2)) = true /\
  readyState_of 1 st' = Some OPEN /\
  (status st, attempt st, length (timers st), wsRef st)
  = ("connected"%string, 0, 0%nat, Some 1%nat) /\
  (status st', attempt st', length (timers st'), wsRef st')
  = ("disconnected"%string, 1, 1%nat, None) /\
  observable st' <> observable st.
Proof.
  cbv zeta. vm_compute. repeat split; discriminate.
Qed.

(** C2, as stated, fails.  The effect runs and is cleaned up before the
    socket has opened: the cleanup leaves a connecting socket alone, and
    when it opens the status becomes connected.  The same holds when the
    effect has run again in between: the first socket's open is published
    while the current socket is still connecting. *)
Lemma open_after_cleanup_publishes :
  let st := demo_run [EffectRun None; EffectCleanup] initial in
  let st2 := demo_run strict_mount initial in
  (manualCloseRef st = true /\
   fires st (WsOpen 0%nat) = true /\
   status st = "connecting"%string /\
   status (demo_step st (WsOpen 0%nat)) = "connected"%string) /\
  (wsRef st2 = Some 1%nat /\
   readyState_of 1 st2 = Some CONNECTING /\
   fires st2 (WsOpen 0%nat) = true /\
   status st2 = "connecting"%string /\
   status (demo_step st2 (WsOpen 0%nat)) = "connected"%string) /\
  observable (demo_step st (WsOpen 0%nat)) <> observable st.
Proof.
  cbv zeta. vm_compute. repeat split; discriminate.
Qed.

(** C4, as stated, fails.  A frame of an accepted kind whose body is not
    text is not dropped: the message with the number 42 for its text, the
    one with an object, and the one with no text at all enter the message
    sequence as they are. *)
Lemma non_text_body_admitted :
  let st := demo_run [EffectRun None; WsOpen 0%nat] initial in
  let frames :=
    [WsMessage 0%nat (TextData (RefJSON.q "{'type':'message','text':42}"));
     WsMessage 0%nat
       (TextData (RefJSON.q "{'type':'system','text':{'a':null}}"));
     WsMessage 0%nat (TextData (RefJSON.q "{'type':'message'}"))] in
  forallb (fires st) frames = true /\
  messages st = [] /\
  messages (demo_run frames st)
  = [JObj [("type", JStr "message"); ("text", JNum 42 0)];
     JObj [("type", JStr "system"); ("text", JObj [("a", JNull)])];
     JObj [("type", JStr "message")]]%string.
Proof.
  cbv zeta. vm_compute. repeat split; reflexivity.
Qed.

(** C10, as stated, fails.  With [Math.random()] at the last double before
    1 and the base delay at its cap, the jitter is the last double before
    300 and the exact sum is below 10300, but the double nearest to the sum
    is 10300: the computed delay is not below 10300.  The same rounding
    gives exactly 800 at attempt 0. *)
Lemma delay_reaches_10300 :
  let rnd := (1 - 2 ^ (-53))%Q in
  is_binary64 rnd = true /\ (0 <= rnd)%Q /\ (rnd < 1)%Q /\
  (jitter rnd == 300 - 2 ^ (-44))%Q /\ (jitter rnd < 300)%Q /\
  (baseDelay 5 + jitter rnd < 10300)%Q /\
  (delay 5 rnd == 10300)%Q /\ ~ (delay 5 rnd < 10300)%Q /\
  (delay 0 rnd == 800)%Q /\
  timers (demo_run [EffectRun None; WsOpen 0%nat; WsClose 0%nat rnd] initial)
  = [(1, delay 0 rnd)].
Proof.
  cbv zeta. vm_compute.
  repeat (split; [first [reflexivity | discriminate]|]). reflexivity.
Qed.

(** C5, as stated, fails.  In strict mode the first socket opens while
    the second, which [wsRef] holds, is still connecting: the status is
    connected, the text is not empty, and [send] hands nothing to any
    transport.  The same happens when the first socket fails while the second
    opens: the stale close clears [wsRef], the open sets the status to
    connected. *)
Lemma connected_send_not_transmitted :
  let st := demo_run (strict_mount ++ [WsOpen 0%nat; Change "hello"])
              initial in
  let st2 := demo_run (strict_mount
                       ++ [WsError 0%nat; WsClose 0%nat (1 # 2);
                           WsOpen 1%nat; Change "hello"]) initial in
  (status st = "connected"%string /\
   trim (input st) = "hello"%string /\
   wsRef st = Some 1%nat /\
   readyState_of 1 st = Some CONNECTING /\
   send RefJSON.stringify st = Normal st /\
   transport_calls (demo_step st Submit) = []) /\
  (status st2 = "connected"%string /\
   trim (input st2) = "hello"%string /\
   wsRef st2 = None /\
   readyState_of 1 st2 = Some OPEN /\
   send RefJSON.stringify st2 = Normal st2 /\
   transport_calls (demo_step st2 Submit) = []).
Proof.
  cbv zeta. vm_compute. repeat split; reflexivity.
Qed.

(** ** The rest of the component at concrete inputs *)

Lemma status_domain_witness :
  let st := demo_run [EffectRun None; WsOpen 0%nat; WsError 0%nat] initial in
  demo_reachable st /\ status st = "error"%string /\
  is_Some (statusColor st).
Proof.
  cbv zeta. set (st := demo_run _ initial).
  assert (Hr : demo_reachable st) by (eexists; reflexivity).
  split; [exact Hr|]. split; [reflexivity|].
  exact (proj2 (status_domain _ _ _ _ st Hr)).
Defined.

Lemma connected_means_no_attempts_witness :
  let st := demo_run [EffectRun None; WsClose 0%nat (1 # 2);
                      TimerFire 1 None; WsOpen 1%nat] initial in
  demo_reachable st /\ status st = "connected"%string /\
  attempt st = 0 /\ shows_reconnecting st = (0 <? attempt st).
Proof.
  cbv zeta. set (st := demo_run _ initial).
  assert (Hr : demo_reachable st) by (eexists; reflexivity).
  assert (Hc : status st = "connected"%string) by reflexivity.
  destruct (connected_means_no_attempts _ _ _ _ st Hr) as [H0 Hshow].
  split; [exact Hr|]. split; [exact Hc|]. split; [exact (H0 Hc) | exact Hshow].
Defined.

Lemma messages_are_accepted_witness :
  let st :=
    demo_run
      [EffectRun None; WsOpen 0%nat;
       WsMessage 0%nat (TextData (RefJSON.q "{'type':'system','text':'hi'}"));
       WsMessage 0%nat (TextData (RefJSON.q "{'type':'message'}"));
       WsMessage 0%nat (TextData (RefJSON.q "{'type':'typing'}"))]
      initial in
  demo_reachable st /\ length (messages st) = 2%nat /\
  Forall
    (fun m => get_type m = Some (JStr "system") \/
              get_type m = Some (JStr "message"))
    (messages st).
Proof.
  cbv zeta. set (st := demo_run _ initial).
  assert (Hr : demo_reachable st) by (eexists; reflexivity).
  split; [exact Hr|]. split; [reflexivity|].
  destruct (messages_are_accepted _ _ _ _ st Hr) as [Hall _].
  eapply Forall_impl; [exact Hall|].
  intros m [[H _]|[H _]]; [now left | now right].
Defined.

Lemma frames_are_trimmed_messages_witness :
  let st := demo_run [EffectRun None; WsOpen 0%nat; Change "  a b  "; Submit;
                      Change "   "; Submit; Change (utf8 0xA0); Submit;
                      Change "c"; Submit] initial in
  demo_reachable st /\ length (transport_calls st) = 2%nat /\
  Forall
    (fun frame =>
       exists text, frame = RefJSON.stringify (outgoing text) /\
                    text <> ""%string)
    (transport_calls st).
Proof.
  cbv zeta. set (st := demo_run _ initial).
  assert (Hr : demo_reachable st) by (eexists; reflexivity).
  split; [exact Hr|]. split; [reflexivity|].
  eapply Forall_impl; [exact (frames_are_trimmed_messages _ _ _ _ st Hr)|].
  intros frame (text & Hf & Hne & _). now exists text.
Defined.

Lemma echo_is_displayed_witness :
  let st := demo_run [EffectRun None; WsOpen 0%nat; Change " hi "] initial in
  let frame := RefJSON.stringify (outgoing "hi") in
  wsRef st = Some 0%nat /\ readyState_of 0 st = Some OPEN /\
  trim (input st) <> ""%string /\
  RefJSON.parse (RefJSON.stringify (outgoing (trim (input st))))
  = Normal (outgoing (trim (input st))) /\
  messages (demo_step (demo_step st Submit) (WsMessage 0%nat (TextData frame)))
  = [outgoing "hi"].
Proof.
  cbv zeta. set (st := demo_run _ initial).
  assert (Hw : wsRef st = Some 0%nat) by reflexivity.
  assert (Ho : readyState_of 0 st = Some OPEN) by reflexivity.
  assert (Hne : trim (input st) <> ""%string) by discriminate.
  assert (Hrt : RefJSON.parse
                  (RefJSON.stringify (outgoing (trim (input st))))
                = Normal (outgoing (trim (input st)))) by reflexivity.
  repeat (split; [assumption|]).
  exact (proj2 (proj2 (proj2 (proj2
           (echo_is_displayed (Some "http://localhost:8000/"%string)
              "http://localhost:3000" RefJSON.parse RefJSON.stringify
              st 0%nat Hw Ho Hne Hrt))))).
Defined.

Lemma connecting_only_from_effect_witness :
  let st := demo_run [EffectRun None; WsClose 0%nat (1 # 2)] initial in
  is_effect_run (TimerFire 1 None) = false /\
  status (demo_step st (TimerFire 1 None)) <> "connecting"%string.
Proof.
  cbv zeta. set (st := demo_run _ initial).
  split; [reflexivity|]. intros Hc.
  pose proof (proj1 (connecting_only_from_effect
                       (Some "http://localhost:8000/"%string)
                       "http://localhost:3000" RefJSON.parse
                       RefJSON.stringify st (TimerFire 1 None) eq_refl) Hc)
    as H.
  discriminate H.
Defined.

Lemma one_transport_at_a_time_witness :
  let evs := [WsClose 0%nat (1 # 2); TimerFire 1 None; WsOpen 1%nat;
              Change "x"; Submit; WsClose 1%nat (1 # 4)] in
  forallb (fun ev => negb (is_effect_run ev)) evs = true /\
  (live_count (demo_run (EffectRun None :: evs) initial)
   + length (timers (demo_run (EffectRun None :: evs) initial)) <= 1)%nat.
Proof.
  cbv zeta.
  set (evs := [WsClose 0%nat (1 # 2); TimerFire 1 None; WsOpen 1%nat;
               Change "x"; Submit; WsClose 1%nat (1 # 4)]).
  assert (Hevs : forallb (fun ev => negb (is_effect_run ev)) evs = true)
    by reflexivity.
  split; [exact Hevs|].
  exact (one_transport_at_a_time _ _ _ _ None evs Hevs).
Defined.

Lemma consecutive_failures_witness :
  let st := demo_run [EffectRun None] initial in
  let rnds := [1 # 2; 1 # 4; 0]%Q in
  wsRef st = Some 0%nat /\ length (sockets st) = 1%nat /\
  (exists s, sockets st !! 0%nat = Some s /\ readyState s <> CLOSED) /\
  manualCloseRef st = false /\ timers st = [] /\ 0 <= attempt st /\
  Forall (fun rnd => (0 <= rnd)%Q /\ (rnd < 1)%Q) rnds /\
  attempt (demo_run (failed_attempts 0 (next_timer st) rnds) st) = 3.
Proof.
  cbv zeta. set (st := demo_run _ initial).
  assert (H1 : wsRef st = Some 0%nat) by reflexivity.
  assert (H2 : length (sockets st) = 1%nat) by reflexivity.
  assert (H3 : exists s, sockets st !! 0%nat = Some s /\
                         readyState s <> CLOSED).
  { eexists. split; [reflexivity | discriminate]. }
  assert (H4 : manualCloseRef st = false) by reflexivity.
  assert (H5 : timers st = []) by reflexivity.
  assert (H6 : 0 <= attempt st) by (vm_compute; discriminate).
  assert (H7 : Forall (fun rnd => (0 <= rnd)%Q /\ (rnd < 1)%Q)
                 [1 # 2; 1 # 4; 0]%Q).
  { repeat constructor; vm_compute; discriminate. }
  repeat (split; [assumption|]).
  exact (proj1 (consecutive_failures _ _ _ _ _ st 0%nat
                  H1 H2 H3 H4 H5 H6 H7)).
Defined.

Lemma enter_sends_witness :
  let st := demo_run [EffectRun None; WsOpen 0%nat; Change "  "] initial in
  let e := mkKeyboardEvent "Enter" false in
  key e = "Enter"%string /\ shiftKey e = false /\
  trim (input st) = ""%string /\
  onKeyDown RefJSON.stringify e st = Normal (true, st).
Proof.
  cbv zeta. set (st := demo_run _ initial).
  split; [reflexivity|]. split; [reflexivity|]. split; [reflexivity|].
  destruct (proj2 (enter_sends (Some "http://localhost:8000/"%string)
                     "http://localhost:3000" RefJSON.parse RefJSON.stringify
                     (mkKeyboardEvent "Enter" false) st) eq_refl eq_refl)
    as (st' & Hk & _ & _ & Hb).
  rewrite Hk. now rewrite (Hb eq_refl).
Defined.

Lemma remount_keeps_history_witness :
  let st :=
    demo_run
      [EffectRun None; WsOpen 0%nat;
       WsMessage 0%nat (TextData (RefJSON.q "{'type':'system','text':'hi'}"));
       WsClose 0%nat (1 # 2); Change "draft"] initial in
  demo_reachable st /\ attempt st = 1 /\ timers st <> [] /\
  let st' := demo_step (demo_step st EffectCleanup) (EffectRun None) in
  messages st' = messages st /\ input st' = "draft"%string /\
  attempt st' = 1 /\ timers st' = [].
Proof.
  cbv zeta. set (st := demo_run _ initial).
  assert (Hr : demo_reachable st) by (eexists; reflexivity).
  split; [exact Hr|]. split; [reflexivity|]. split; [discriminate|].
  destruct (remount_keeps_history _ _ _ _ st Hr)
    as (Hm & Hi & Ha & _ & _ & Ht & _).
  split; [exact Hm|]. split; [exact Hi|]. split; [exact Ha | exact Ht].
Defined.

Lemma no_reconnect_after_cleanup_witness :
  let st := demo_run [EffectRun None; WsClose 0%nat (1 # 2)] initial in
  let evs := [TimerFire 1 None; WsClose 0%nat (1 # 2); Submit] in
  demo_reachable st /\
  forallb (fun ev => negb (is_effect_run ev)) evs = true /\
  length (sockets (demo_run evs (cleanup st))) = 1%nat.
Proof.
  cbv zeta. set (st := demo_run _ initial).
  assert (Hr : demo_reachable st) by (eexists; reflexivity).
  set (evs := [TimerFire 1 None; WsClose 0%nat (1 # 2); Submit]).
  assert (Hevs : forallb (fun ev => negb (is_effect_run ev)) evs = true)
    by reflexivity.
  split; [exact Hr|]. split; [exact Hevs|].
  exact (no_reconnect_after_cleanup _ _ _ _ st evs Hr Hevs).
Defined.

Lemma backoff_restarts_after_open_witness :
  let st := demo_run [EffectRun None; WsClose 0%nat (1 # 2);
                      TimerFire 1 None; WsClose 1%nat (1 # 2);
                      TimerFire 2 None] initial in
  manualCloseRef st = false /\ (0 <= 1 # 4)%Q /\ (1 # 4 < 1)%Q /\
  attempt st = 2 /\
  attempt (demo_deliver (WsClose 2%nat (1 # 4))
             (demo_deliver (WsOpen 2%nat) st)) = 1 /\
  (delay 0 (1 # 4) <= 800)%Q.
Proof.
  cbv zeta. set (st := demo_run _ initial).
  assert (Hm : manualCloseRef st = false) by reflexivity.
  assert (H0 : (0 <= 1 # 4)%Q) by (vm_compute; discriminate).
  assert (H1 : (1 # 4 < 1)%Q) by reflexivity.
  repeat (split; [assumption|]). split; [reflexivity|].
  destruct (backoff_restarts_after_open
              (Some "http://localhost:8000/"%string)
              "http://localhost:3000" RefJSON.parse RefJSON.stringify
              st 2%nat 2%nat (1 # 4) Hm H0 H1) as (Ha & _ & _ & _ & Hhi).
  split; [exact Ha | exact Hhi].
Defined.

Lemma disconnected_shows_notice_witness :
  let st := demo_run [EffectRun None; WsClose 0%nat (1 # 2)] initial in
  demo_reachable st /\ status st = "disconnected"%string /\
  shows_reconnecting st = true.
Proof.
  cbv zeta. set (st := demo_run _ initial).
  assert (Hr : demo_reachable st) by (eexists; reflexivity).
  assert (Hs : status st = "disconnected"%string) by reflexivity.
  split; [exact Hr|]. split; [exact Hs|].
  exact (proj2 (disconnected_shows_notice _ _ _ _ st Hr Hs)).
Defined.

Lemma connected_holds_opened_socket_witness :
  let evs := [WsClose 0%nat (1 # 2); TimerFire 1 None; WsOpen 1%nat;
              Change "hello"] in
  let st := demo_run (EffectRun None :: evs) initial in
  forallb (fun ev => negb (is_remount ev)) evs = true /\
  status st = "connected"%string /\
  exists h, wsRef st = Some h /\
            (readyState_of h st = Some OPEN \/
             readyState_of h st = Some CLOSING).
Proof.
  cbv zeta.
  set (evs := [WsClose 0%nat (1 # 2); TimerFire 1 None; WsOpen 1%nat;
               Change "hello"]).
  assert (Hevs : forallb (fun ev => negb (is_remount ev)) evs = true)
    by reflexivity.
  assert (Hc : status (demo_run (EffectRun None :: evs) initial)
               = "connected"%string) by reflexivity.
  split; [exact Hevs|]. split; [exact Hc|].
  exact (proj1 (connected_holds_opened_socket _ _ _ _ None evs Hevs Hc)).
Defined.

(** The server starts the closing handshake: until the close event the
    status reads connected and [send] is rejected. *)
Example connected_while_closing :
  let st := demo_run [EffectRun None; WsOpen 0%nat; Change "hello";
                      WsClosing 0%nat] initial in
  status st = "connected"%string /\
  current_readyState st = Some CLOSING /\
  demo_step st Submit = st.
Proof. cbv zeta. vm_compute. repeat split; reflexivity. Qed.

(** White space is not only ASCII: an input of a no-break space, an
    ideographic space and a byte order mark is blank, and is not sent;
    around a text they are trimmed, inside it they are kept. *)
Example unicode_white_space :
  let nbsp := utf8 0xA0 in
  let blanks := (nbsp ++ utf8 0x3000 ++ utf8 0xFEFF)%string in
  let st := demo_run [EffectRun None; WsOpen 0%nat; Change blanks] initial in
  trim blanks = ""%string /\
  demo_step st Submit = st /\
  trim (nbsp ++ "a" ++ nbsp ++ "b" ++ blanks ++ " ")%string
  = ("a" ++ nbsp ++ "b")%string /\
  trim (utf8 0xE9 ++ utf8 0x200B)%string = (utf8 0xE9 ++ utf8 0x200B)%string.
Proof. cbv zeta. vm_compute. repeat split; reflexivity. Qed.

(** In strict mode, where the effect runs twice, two sockets are live at
    once. *)
Example strict_mount_two_live :
  live_count (demo_run strict_mount initial) = 2%nat.
Proof. reflexivity. Qed.

